(** * The GitHub pull-request worker: reconciliation, pagination, orchestration

    A shallow embedding of [workers/pull_request_worker/pull_request_worker.py]
    ([GitHubPullRequestWorker]) and the properties its specification states
    about it.  Each module follows one part of the source:

    - [Frame]: the pandas frames and merges the differ is written with;
    - [PullRequestFiles]: [pull_request_files_model], from the comparison of
      the fetched rows with the table to the bulk update and insert;
    - [Py]: the Python values the paginator and the row builders handle;
    - [GraphQL]: [graphql_paginate];
    - [InsertRows]: the insert rows built by [_get_pk_source_prs],
      [pull_request_comments_model] and [pull_request_events_model];
    - [Orchestrator]: [pull_requests_model] and the step loop of
      [pull_request_nested_data_model]. *)

From Stdlib Require Import List ZArith String Bool Ascii Lia.
Import ListNotations.

(** ** Frames *)

Module Frame.

(** A cell of a frame or of a table: null ([None], [NaN], SQL [NULL]), an
    integer or a text. *)
Inductive cell : Type :=
| CNull
| CInt (z : Z)
| CStr (s : string).

Definition cell_eqb (a b : cell) : bool :=
  match a, b with
  | CNull, CNull => true
  | CInt x, CInt y => Z.eqb x y
  | CStr s, CStr t => String.eqb s t
  | _, _ => false
  end.

Definition is_null (a : cell) : bool :=
  match a with CNull => true | _ => false end.

(** [==] of SQL inside a [WHERE]: a comparison with [NULL] selects nothing. *)
Definition sql_eq (a b : cell) : bool :=
  negb (is_null a) && negb (is_null b) && cell_eqb a b.

(** The [_merge] column [indicator=True] adds. *)
Inductive indicator : Type := left_only | right_only | both.

Section Merge.
Context {A B : Type}.
(** [on a b]: the rows agree on the [on=] columns.  pandas matches a null key
    with a null key, so [on] is built from [cell_eqb]. *)
Variable on : A -> B -> bool.

(** [left.merge(right, how='inner', on=...)]: one row per matching pair, in
    the order of the left rows. *)
Definition merge_inner (l : list A) (r : list B) : list (A * B) :=
  flat_map (fun a => map (fun b => (a, b)) (filter (on a) r)) l.

(** [left.merge(right, how='outer', indicator=True, on=...)]: the matching
    pairs, the left rows without a match and the right rows without a match.
    pandas returns the rows of an outer merge ordered by their join keys; that
    order is not modelled: the rows are kept in the order of the left frame,
    the unmatched right rows last.  What is proved below is about which rows a
    frame holds and how many of each, never about their order. *)
Definition merge_outer (l : list A) (r : list B)
  : list (option A * option B * indicator) :=
  flat_map (fun a =>
              match filter (on a) r with
              | [] => [(Some a, None, left_only)]
              | ms => map (fun b => (Some a, Some b, both)) ms
              end) l
  ++ map (fun b => (None, Some b, right_only))
         (filter (fun b => negb (existsb (fun a => on a b) l)) r).

(** [.loc[lambda x : x['_merge']=='left_only'][table_columns]]: the rows
    marked [left_only], cut down to the columns of the left frame. *)
Definition loc_left_only (m : list (option A * option B * indicator)) : list A :=
  flat_map (fun row =>
              match row with
              | (Some a, _, left_only) => [a]
              | _ => []
              end) m.

End Merge.

Lemma cell_eqb_eq (a b : cell) : cell_eqb a b = true <-> a = b.
Proof.
  destruct a as [|x|s], b as [|y|t]; simpl; split; intro H;
    try discriminate; try reflexivity.
  - apply Z.eqb_eq in H. now subst.
  - injection H as ->. apply Z.eqb_refl.
  - apply String.eqb_eq in H. now subst.
  - injection H as ->. apply String.eqb_refl.
Qed.

Lemma cell_eqb_refl (a : cell) : cell_eqb a a = true.
Proof. now apply cell_eqb_eq. Qed.

Lemma cell_eqb_sym (a b : cell) : cell_eqb a b = cell_eqb b a.
Proof.
  destruct a, b; simpl; try reflexivity; [apply Z.eqb_sym | apply String.eqb_sym].
Qed.

Lemma filter_nil_existsb {A} (f : A -> bool) (l : list A) :
  filter f l = [] <-> existsb f l = false.
Proof.
  induction l as [|x l IH]; simpl; [tauto|].
  destruct (f x); simpl; [split; discriminate | exact IH].
Qed.

Section MergeFacts.
Context {A B : Type}.
Variable on : A -> B -> bool.

Lemma loc_left_only_app (m1 m2 : list (option A * option B * indicator)) :
  loc_left_only (m1 ++ m2) = loc_left_only m1 ++ loc_left_only m2.
Proof. unfold loc_left_only. apply flat_map_app. Qed.

Lemma loc_left_only_both (a : A) (ms : list B) :
  loc_left_only (map (fun b => (Some a, Some b, both)) ms) = [].
Proof. induction ms as [|b ms IH]; simpl; [reflexivity | exact IH]. Qed.

Lemma loc_left_only_right (bs : list B) :
  loc_left_only (map (fun b => (@None A, Some b, right_only)) bs) = [].
Proof. induction bs as [|b bs IH]; simpl; [reflexivity | exact IH]. Qed.

(** The [left_only] rows of an outer merge are the left rows no right row
    matches, each once. *)
Lemma loc_left_only_merge_outer (l : list A) (r : list B) :
  loc_left_only (merge_outer on l r)
  = filter (fun a => negb (existsb (on a) r)) l.
Proof.
  unfold merge_outer. rewrite loc_left_only_app, loc_left_only_right, app_nil_r.
  induction l as [|a l IH]; [reflexivity|].
  cbn [flat_map filter]. rewrite loc_left_only_app, IH.
  destruct (filter (on a) r) as [|b ms] eqn:E.
  - apply filter_nil_existsb in E. rewrite E. reflexivity.
  - assert (Hex : existsb (on a) r = true).
    { destruct (existsb (on a) r) eqn:E'; [reflexivity|].
      apply filter_nil_existsb in E'. congruence. }
    rewrite Hex, loc_left_only_both. reflexivity.
Qed.

(** The left rows of an inner merge are the left rows some right row matches
    (one copy per match). *)
Lemma in_merge_inner_fst (l : list A) (r : list B) (a : A) :
  In a (map fst (merge_inner on l r)) <-> In a l /\ existsb (on a) r = true.
Proof.
  unfold merge_inner. rewrite in_map_iff. split.
  - intros [[a' b] [Hfst Hin]]. simpl in Hfst. subst a'.
    apply in_flat_map in Hin as [a0 [Ha0 Hin]].
    apply in_map_iff in Hin as [b0 [Heq Hb0]]. injection Heq as -> ->.
    apply filter_In in Hb0 as [Hb Hon]. split; [assumption|].
    apply existsb_exists. now exists b.
  - intros [Ha Hex]. apply existsb_exists in Hex as [b [Hb Hon]].
    exists (a, b). split; [reflexivity|]. apply in_flat_map. exists a.
    split; [assumption|]. apply in_map. apply filter_In. now split.
Qed.

End MergeFacts.

End Frame.

(** ** [pull_request_files_model]: the differ and the bulk writes *)

Module PullRequestFiles.
Import Frame.

(** A fetched row, as the list comprehension over the paginated files builds
    it: these eight keys are [table_columns]. *)
Record FileRow : Type := mkFileRow {
  pull_request_id : cell;
  pr_file_additions : cell;
  pr_file_deletions : cell;
  pr_file_path : cell;
  tool_source : cell;
  tool_version : cell;
  data_source : cell;
  repo_id : cell
}.

(** A row of the table [pull_request_files] as [SELECT pull_request_files.*]
    returns it.  [pr_file_id] stands for the columns the worker never names
    (the generated key); the other eight are those of [FileRow]. *)
Record TableRow : Type := mkTableRow {
  pr_file_id : Z;
  stored : FileRow
}.

(** A row of [need_updates] once [b_pull_request_id] and [b_pr_file_path] are
    added: the parameters of one execution of the update. *)
Record UpdateRow : Type := mkUpdateRow {
  params : FileRow;
  b_pull_request_id : cell;
  b_pr_file_path : cell
}.

(** [pr_file_rows_df.dropna(subset=['pull_request_id'])] *)
Definition dropna (df : list FileRow) : list FileRow :=
  filter (fun r => negb (is_null (pull_request_id r))) df.

(** [on=dupe_columns], [dupe_columns = ['pull_request_id', 'pr_file_path']] *)
Definition on_dupe_columns (r : FileRow) (t : TableRow) : bool :=
  cell_eqb (pull_request_id r) (pull_request_id (stored t))
  && cell_eqb (pr_file_path r) (pr_file_path (stored t)).

(** [on=update_columns],
    [update_columns = ['pr_file_additions', 'pr_file_deletions']] *)
Definition on_update_columns (r : FileRow) (t : TableRow) : bool :=
  cell_eqb (pr_file_additions r) (pr_file_additions (stored t))
  && cell_eqb (pr_file_deletions r) (pr_file_deletions (stored t)).

(** [need_insertion]: the outer merge on the natural key, its [left_only]
    rows, the fetched columns. *)
Definition need_insertion (pr_file_rows_df : list FileRow)
  (table_values : list TableRow) : list FileRow :=
  loc_left_only (merge_outer on_dupe_columns pr_file_rows_df table_values).

(** [need_updates] before the [b_] columns are added: the inner merge on the
    natural key cut down to the fetched columns (suffix [''] keeps the left
    values), merged again with the whole table on the update columns alone,
    its [left_only] rows. *)
Definition need_updates_frame (pr_file_rows_df : list FileRow)
  (table_values : list TableRow) : list FileRow :=
  loc_left_only
    (merge_outer on_update_columns
       (map fst (merge_inner on_dupe_columns pr_file_rows_df table_values))
       table_values).

(** [need_updates['b_pull_request_id'] = need_updates['pull_request_id']] and
    the same for [pr_file_path]. *)
Definition need_updates (pr_file_rows_df : list FileRow)
  (table_values : list TableRow) : list UpdateRow :=
  map (fun r => mkUpdateRow r (pull_request_id r) (pr_file_path r))
      (need_updates_frame pr_file_rows_df table_values).

(** *** The update statement *)

Inductive column : Type :=
| c_pull_request_id | c_pr_file_additions | c_pr_file_deletions
| c_pr_file_path | c_tool_source | c_tool_version | c_data_source | c_repo_id.

Definition column_eqb (a b : column) : bool :=
  match a, b with
  | c_pull_request_id, c_pull_request_id
  | c_pr_file_additions, c_pr_file_additions
  | c_pr_file_deletions, c_pr_file_deletions
  | c_pr_file_path, c_pr_file_path
  | c_tool_source, c_tool_source
  | c_tool_version, c_tool_version
  | c_data_source, c_data_source
  | c_repo_id, c_repo_id => true
  | _, _ => false
  end.

(** The two things the source compares in a [where]: a column of the table
    ([self.pull_request_files_table.c.<name>]) and a bound parameter
    ([bindparam('<name>')]). *)
Inductive operand : Type :=
| Column (c : column)
| BindParam (name : string).

(** SQLAlchemy clauses: [l == r] builds a [BinaryExpression] with operator
    [eq]; [and_(a, b)] (or [a & b]) builds a conjunction. *)
Inductive clause : Type :=
| Eq (l r : operand)
| And (a b : clause).

(** [hash(l) == hash(r)]: hashes of clause elements are by identity.  A column
    of the table is one object; every call of [bindparam] makes a new one. *)
Definition same_object (l r : operand) : bool :=
  match l, r with
  | Column a, Column b => column_eqb a b
  | _, _ => false
  end.

(** [bool(c)], which Python's [and] asks of its left operand.  SQLAlchemy's
    [BinaryExpression.__bool__] answers for [==] with
    [hash(left) == hash(right)]; any other clause raises [TypeError]
    ([None] here). *)
Definition clause_bool (c : clause) : option bool :=
  match c with
  | Eq l r => Some (same_object l r)
  | And _ _ => None
  end.

(** Python's [x and y]: [x] when [x] is false, else [y]. *)
Definition py_and (x y : clause) : option clause :=
  match clause_bool x with
  | Some true => Some y
  | Some false => Some x
  | None => None
  end.

(** The argument of [.where(...)] as the source writes it:
    [c.pull_request_id == bindparam('b_pull_request_id') and
     c.pr_file_path == bindparam('b_pr_file_path')]. *)
Definition update_where : option clause :=
  py_and (Eq (Column c_pull_request_id) (BindParam "b_pull_request_id"))
         (Eq (Column c_pr_file_path) (BindParam "b_pr_file_path")).

Definition column_value (t : TableRow) (c : column) : cell :=
  match c with
  | c_pull_request_id => pull_request_id (stored t)
  | c_pr_file_additions => pr_file_additions (stored t)
  | c_pr_file_deletions => pr_file_deletions (stored t)
  | c_pr_file_path => pr_file_path (stored t)
  | c_tool_source => tool_source (stored t)
  | c_tool_version => tool_version (stored t)
  | c_data_source => data_source (stored t)
  | c_repo_id => repo_id (stored t)
  end.

(** The value a row of [pr_file_update_rows] gives a bound parameter: the
    dict has the eight fetched columns and the two [b_] keys. *)
Definition param_value (u : UpdateRow) (name : string) : cell :=
  if String.eqb name "b_pull_request_id" then b_pull_request_id u
  else if String.eqb name "b_pr_file_path" then b_pr_file_path u
  else if String.eqb name "pull_request_id" then pull_request_id (params u)
  else if String.eqb name "pr_file_additions" then pr_file_additions (params u)
  else if String.eqb name "pr_file_deletions" then pr_file_deletions (params u)
  else if String.eqb name "pr_file_path" then pr_file_path (params u)
  else if String.eqb name "tool_source" then tool_source (params u)
  else if String.eqb name "tool_version" then tool_version (params u)
  else if String.eqb name "data_source" then data_source (params u)
  else if String.eqb name "repo_id" then repo_id (params u)
  else CNull.

Definition operand_value (t : TableRow) (u : UpdateRow) (o : operand) : cell :=
  match o with
  | Column c => column_value t c
  | BindParam name => param_value u name
  end.

(** Whether the [WHERE] selects table row [t] under the parameters [u]. *)
Fixpoint selects (w : clause) (t : TableRow) (u : UpdateRow) : bool :=
  match w with
  | Eq l r => sql_eq (operand_value t u l) (operand_value t u r)
  | And a b => selects a t u && selects b t u
  end.

(** The name of a column, as a key of a row of parameters. *)
Definition column_name (c : column) : string :=
  match c with
  | c_pull_request_id => "pull_request_id"
  | c_pr_file_additions => "pr_file_additions"
  | c_pr_file_deletions => "pr_file_deletions"
  | c_pr_file_path => "pr_file_path"
  | c_tool_source => "tool_source"
  | c_tool_version => "tool_version"
  | c_data_source => "data_source"
  | c_repo_id => "repo_id"
  end.

(** [.values(pr_file_additions=bindparam('pr_file_additions'),
             pr_file_deletions=bindparam('pr_file_deletions'))] *)
Definition values_columns : list column :=
  [c_pr_file_additions; c_pr_file_deletions].

(** The columns named by the keys of a row of [pr_file_update_rows]: the
    eight fetched columns (the two [b_] keys name no column). *)
Definition row_columns : list column :=
  [c_pull_request_id; c_pr_file_additions; c_pr_file_deletions;
   c_pr_file_path; c_tool_source; c_tool_version; c_data_source; c_repo_id].

(** The columns the statement assigns: those of [.values(...)] and
    [parameter_columns].  The statement is executed with whole rows as
    parameters, and SQLAlchemy, which compiles an update for the keys of the
    parameters it is executed with, adds to the [SET] clause the columns
    these keys name ([row_columns]).  That is the library's doing and not
    written in the source, so [parameter_columns] is left open: what is
    proved below holds for every choice of it. *)
Definition assigned (parameter_columns : list column) (c : column) : bool :=
  existsb (column_eqb c) values_columns
  || existsb (column_eqb c) parameter_columns.

Definition new_value (parameter_columns : list column) (t : TableRow)
  (u : UpdateRow) (c : column) : cell :=
  if assigned parameter_columns c then param_value u (column_name c)
  else column_value t c.

(** The row [t] after [SET]. *)
Definition set_values (parameter_columns : list column) (t : TableRow)
  (u : UpdateRow) : TableRow :=
  let value := new_value parameter_columns t u in
  mkTableRow (pr_file_id t)
    (mkFileRow (value c_pull_request_id) (value c_pr_file_additions)
               (value c_pr_file_deletions) (value c_pr_file_path)
               (value c_tool_source) (value c_tool_version)
               (value c_data_source) (value c_repo_id)).

(** One execution of [UPDATE pull_request_files SET ... WHERE w]. *)
Definition update_one (parameter_columns : list column) (w : clause)
  (table : list TableRow) (u : UpdateRow) : list TableRow :=
  map (fun t => if selects w t u then set_values parameter_columns t u else t)
      table.

(** [self.db.execute(update, pr_file_update_rows)]: the statement runs once
    per row of parameters, in the order of the list. *)
Definition execute_update (parameter_columns : list column) (w : clause)
  (table : list TableRow) (rows : list UpdateRow) : list TableRow :=
  fold_left (update_one parameter_columns w) rows table.

(** *** The insert statement *)

Definition next_id (table : list TableRow) : Z :=
  fold_right (fun t m => Z.max (pr_file_id t + 1) m) 1%Z table.

(** [self.db.execute(self.pull_request_files_table.insert(),
    pr_file_insert_rows)]: every row of the list becomes a row of the table,
    with a key the table generates. *)
Fixpoint execute_insert (table : list TableRow) (rows : list FileRow)
  : list TableRow :=
  match rows with
  | [] => table
  | r :: rows' => execute_insert (table ++ [mkTableRow (next_id table) r]) rows'
  end.

(** *** The model, from the fetched rows on

    The table after the run; [None]: building the [where] raised.  A write
    that the database refuses is retried for ever by the source
    ([while not success]); the writes here succeed at once. *)
Definition pull_request_files_model (parameter_columns : list column)
  (pr_file_rows : list FileRow) (table : list TableRow)
  : option (list TableRow) :=
  let table_values := table in
  if (0 <? List.length pr_file_rows)%nat then
    let pr_file_rows_df := dropna pr_file_rows in
    let pr_file_insert_rows := need_insertion pr_file_rows_df table_values in
    let pr_file_update_rows := need_updates pr_file_rows_df table_values in
    match
      (if (0 <? List.length pr_file_update_rows)%nat then
         match update_where with
         | Some w =>
             Some (execute_update parameter_columns w table
                     pr_file_update_rows)
         | None => None
         end
       else Some table)
    with
    | Some table1 =>
        if (0 <? List.length pr_file_insert_rows)%nat
        then Some (execute_insert table1 pr_file_insert_rows)
        else Some table1
    | None => None
    end
  else Some table.

(** The natural key of a row. *)
Definition has_key (pid path : cell) (r : FileRow) : bool :=
  cell_eqb (pull_request_id r) pid && cell_eqb (pr_file_path r) path.

(** The three partitions of the reconciliation. *)
Inductive partition : Type := insert | update | unchanged.

(** Where the differ puts a fetched row: [insert] when it is a row of
    [need_insertion], [update] when it is a row of [need_updates], [unchanged]
    when it is fetched and a row of neither. *)
Definition classified (pr_file_rows : list FileRow)
  (table_values : list TableRow) (r : FileRow) (p : partition) : Prop :=
  match p with
  | insert => In r (need_insertion (dropna pr_file_rows) table_values)
  | update => In r (map params (need_updates (dropna pr_file_rows) table_values))
  | unchanged =>
      In r pr_file_rows
      /\ ~ In r (need_insertion (dropna pr_file_rows) table_values)
      /\ ~ In r (map params (need_updates (dropna pr_file_rows) table_values))
  end.

(** The same, computed from the row and the table alone. *)
Definition classify (table_values : list TableRow) (r : FileRow) : partition :=
  if is_null (pull_request_id r) then unchanged
  else if negb (existsb (on_dupe_columns r) table_values) then insert
  else if negb (existsb (on_update_columns r) table_values) then update
  else unchanged.

(** A persisted row has the natural key and the update columns of [r]. *)
Definition persisted (table_values : list TableRow) (r : FileRow) : Prop :=
  exists t, In t table_values
    /\ pull_request_id (stored t) = pull_request_id r
    /\ pr_file_path (stored t) = pr_file_path r
    /\ pr_file_additions (stored t) = pr_file_additions r
    /\ pr_file_deletions (stored t) = pr_file_deletions r.

(** Fetched row with the given key and counts, for the examples. *)
Definition file_row (pid : Z) (path : string) (additions deletions : Z)
  : FileRow :=
  mkFileRow (CInt pid) (CInt additions) (CInt deletions) (CStr path)
            (CStr "GitHub Pull Request Worker") (CStr "1.0.0")
            (CStr "GitHub API") (CInt 1).

(** The identifier and the update columns of the rows of a table. *)
Definition counts (table : list TableRow) : list (Z * cell * cell) :=
  map (fun t => (pr_file_id t, pr_file_additions (stored t),
                 pr_file_deletions (stored t))) table.

(** A cell pandas compares as the differ above does whatever the type of
    its column: a null, a text, or an integer that a float64 holds exactly
    (a column of integers with a null in it is held as float64, and two
    integers beyond 2^53 that round alike then compare equal). *)
Definition exact_cell (c : cell) : bool :=
  match c with
  | CInt z => (Z.abs z <=? 2 ^ 53)%Z
  | _ => true
  end.

Definition exact_row (r : FileRow) : bool :=
  exact_cell (pull_request_id r)
  && exact_cell (pr_file_additions r)
  && exact_cell (pr_file_deletions r).

(** Two rows agree on the natural key, on the update columns. *)
Definition same_key (r s : FileRow) : bool :=
  cell_eqb (pull_request_id r) (pull_request_id s)
  && cell_eqb (pr_file_path r) (pr_file_path s).

Definition same_counts (r s : FileRow) : bool :=
  cell_eqb (pr_file_additions r) (pr_file_additions s)
  && cell_eqb (pr_file_deletions r) (pr_file_deletions s).

(** *** The loops around the two writes

    [success = False / while not success: try: self.db.execute(...);
    success = True / except Exception as e: log / time.sleep(5)].
    [execute] tells whether the statement was executed or raised an
    [Exception], and what it left of the database. *)

Inductive step : Type := attempted | slept (seconds : nat).

Fixpoint write_until_success {DB : Type} (execute : DB -> bool * DB)
  (fuel : nat) (db : DB) (steps : list step) : option (DB * list step) :=
  match fuel with
  | O => None
  | S fuel' =>
      let (success, db') := execute db in
      let steps' := steps ++ [attempted; slept 5] in
      if success then Some (db', steps')
      else write_until_success execute fuel' db' steps'
  end.

(** The database after [k] attempts. *)
Fixpoint after {DB : Type} (execute : DB -> bool * DB) (k : nat) (db : DB)
  : DB :=
  match k with
  | O => db
  | S k' => after execute k' (snd (execute db))
  end.

(** A database on which the statement raises twice, then is executed. *)
Definition third_time (db : nat) : bool * nat := ((2 <=? db)%nat, S db).

(** *** Facts about the differ *)

Lemma need_insertion_filter df tv :
  need_insertion df tv
  = filter (fun r => negb (existsb (on_dupe_columns r) tv)) df.
Proof. apply loc_left_only_merge_outer. Qed.

Lemma in_need_insertion df tv r :
  In r (need_insertion df tv)
  <-> In r df /\ existsb (on_dupe_columns r) tv = false.
Proof.
  rewrite need_insertion_filter, filter_In, negb_true_iff. reflexivity.
Qed.

Lemma in_need_updates_frame df tv r :
  In r (need_updates_frame df tv)
  <-> In r df /\ existsb (on_dupe_columns r) tv = true
      /\ existsb (on_update_columns r) tv = false.
Proof.
  unfold need_updates_frame.
  rewrite loc_left_only_merge_outer, filter_In, in_merge_inner_fst,
    negb_true_iff.
  tauto.
Qed.

Lemma params_need_updates df tv :
  map params (need_updates df tv) = need_updates_frame df tv.
Proof.
  unfold need_updates. rewrite map_map. simpl. apply map_id.
Qed.

Lemma in_dropna df r :
  In r (dropna df) <-> In r df /\ is_null (pull_request_id r) = false.
Proof. unfold dropna. rewrite filter_In, negb_true_iff. reflexivity. Qed.

Lemma persisted_matches tv r :
  persisted tv r ->
  existsb (on_dupe_columns r) tv = true
  /\ existsb (on_update_columns r) tv = true.
Proof.
  intros (t & Ht & Hid & Hpath & Hadd & Hdel).
  split; apply existsb_exists; exists t; (split; [assumption|]).
  - unfold on_dupe_columns. rewrite Hid, Hpath, !cell_eqb_refl. reflexivity.
  - unfold on_update_columns. rewrite Hadd, Hdel, !cell_eqb_refl. reflexivity.
Qed.

Lemma classified_iff_classify rows tv r p :
  In r rows -> (classified rows tv r p <-> classify tv r = p).
Proof.
  intro Hr. unfold classify.
  destruct p; simpl; rewrite ?params_need_updates, ?in_need_insertion,
    ?in_need_updates_frame, ?in_dropna;
    destruct (is_null (pull_request_id r));
    destruct (existsb (on_dupe_columns r) tv);
    destruct (existsb (on_update_columns r) tv); simpl;
    intuition congruence.
Qed.

(** *** Facts about the bulk writes *)

Lemma update_where_first_comparison :
  update_where
  = Some (Eq (Column c_pull_request_id) (BindParam "b_pull_request_id")).
Proof. reflexivity. Qed.

(** What the update statement of the source selects: the persisted rows of
    the pull request, whatever their path. *)
Lemma update_where_selects (w : clause) (t : TableRow) (u : UpdateRow) :
  update_where = Some w ->
  selects w t u = sql_eq (pull_request_id (stored t)) (b_pull_request_id u).
Proof.
  rewrite update_where_first_comparison. intro H. injection H as <-.
  reflexivity.
Qed.

Lemma sql_eq_eq (a b : cell) : sql_eq a b = true -> a = b.
Proof.
  unfold sql_eq. intro H. apply andb_prop in H as [_ H].
  now apply cell_eqb_eq.
Qed.

(** A column the statement does not assign keeps its value. *)
Lemma set_values_frame (parameter_columns : list column) (t : TableRow)
  (u : UpdateRow) (c : column) :
  assigned parameter_columns c = false ->
  column_value (set_values parameter_columns t u) c = column_value t c.
Proof.
  intro H. destruct c; cbn [column_value set_values stored];
    unfold new_value; now rewrite H.
Qed.

(** The update columns take the values of the parameters. *)
Lemma set_values_counts (parameter_columns : list column) (t : TableRow)
  (u : UpdateRow) :
  pr_file_additions (stored (set_values parameter_columns t u))
  = pr_file_additions (params u)
  /\ pr_file_deletions (stored (set_values parameter_columns t u))
     = pr_file_deletions (params u).
Proof. split; reflexivity. Qed.

(** The natural key of an updated row is its own or that of the update. *)
Lemma update_one_key (parameter_columns : list column) (w : clause)
  (table : list TableRow) (u : UpdateRow) (pid path : cell) :
  update_where = Some w ->
  b_pull_request_id u = pull_request_id (params u) ->
  has_key pid path (params u) = false ->
  filter (has_key pid path) (map stored table) = [] ->
  filter (has_key pid path)
    (map stored (update_one parameter_columns w table u)) = [].
Proof.
  intros Hw Hb Hu. unfold update_one.
  induction table as [|t table IH]; cbn [map filter]; [reflexivity|].
  destruct (has_key pid path (stored t)) eqn:Ht; [discriminate|]. intro Habs.
  assert (Hnew : has_key pid path
                   (stored (if selects w t u
                            then set_values parameter_columns t u else t))
                 = false).
  { rewrite (update_where_selects w t u Hw).
    destruct (sql_eq (pull_request_id (stored t)) (b_pull_request_id u))
      eqn:Hsel; [|assumption].
    apply sql_eq_eq in Hsel. rewrite Hb in Hsel.
    unfold has_key in *. cbn [set_values stored pull_request_id pr_file_path].
    unfold new_value. cbn [column_name column_value].
    change (param_value u "pull_request_id") with (pull_request_id (params u)).
    change (param_value u "pr_file_path") with (pr_file_path (params u)).
    rewrite <- Hsel in *.
    apply andb_false_iff in Hu, Ht. apply andb_false_iff.
    destruct (assigned parameter_columns c_pull_request_id),
      (assigned parameter_columns c_pr_file_path); tauto. }
  rewrite Hnew. now apply IH.
Qed.

Lemma execute_update_key (parameter_columns : list column) (w : clause)
  (rows : list UpdateRow) (table : list TableRow) (pid path : cell) :
  update_where = Some w ->
  Forall (fun u => b_pull_request_id u = pull_request_id (params u)
                   /\ has_key pid path (params u) = false) rows ->
  filter (has_key pid path) (map stored table) = [] ->
  filter (has_key pid path)
    (map stored (execute_update parameter_columns w table rows)) = [].
Proof.
  intros Hw Hrows. unfold execute_update. revert table.
  induction Hrows as [|u rows [Hb Hu] _ IH]; cbn [fold_left]; intros table H;
    [assumption|].
  apply IH. now apply update_one_key.
Qed.

Lemma execute_insert_stored rows table :
  map stored (execute_insert table rows) = map stored table ++ rows.
Proof.
  revert table. induction rows as [|r rows IH]; simpl; intro table.
  - now rewrite app_nil_r.
  - rewrite IH, map_app, <- app_assoc. reflexivity.
Qed.

Lemma absent_key_no_match table pid path r :
  filter (has_key pid path) (map stored table) = [] ->
  has_key pid path r = true ->
  existsb (on_dupe_columns r) table = false.
Proof.
  intros Habs Hr. apply andb_prop in Hr as [Hid Hpath].
  apply cell_eqb_eq in Hid, Hpath.
  induction table as [|t table IH]; simpl in *; [reflexivity|].
  destruct (has_key pid path (stored t)) eqn:E; [discriminate|].
  rewrite (IH Habs), orb_false_r.
  unfold on_dupe_columns. unfold has_key in E. rewrite Hid, Hpath.
  rewrite (cell_eqb_sym pid), (cell_eqb_sym path). exact E.
Qed.

(** The rows to update have a natural key of the table. *)
Lemma need_updates_keys rows table pid path :
  filter (has_key pid path) (map stored table) = [] ->
  Forall (fun u => b_pull_request_id u = pull_request_id (params u)
                   /\ has_key pid path (params u) = false)
         (need_updates rows table).
Proof.
  intro Habs. apply Forall_forall. intros u Hu. unfold need_updates in Hu.
  apply in_map_iff in Hu as (r & <- & Hr). split; [reflexivity|].
  cbn [params]. apply in_need_updates_frame in Hr as (_ & Hkey & _).
  destruct (has_key pid path r) eqn:E; [|reflexivity].
  rewrite (absent_key_no_match table pid path r Habs E) in Hkey.
  discriminate.
Qed.

Lemma nil_of_no_member {A} (l : list A) : (forall x, ~ In x l) -> l = [].
Proof.
  destruct l as [|x l]; [reflexivity|]. intro H. destruct (H x). now left.
Qed.

Lemma filter_filter_implied {A} (f g : A -> bool) (l : list A) :
  (forall x, In x l -> f x = true -> g x = true) ->
  filter f (filter g l) = filter f l.
Proof.
  induction l as [|x l IH]; simpl; intro H; [reflexivity|].
  assert (IH' := IH (fun y Hy => H y (or_intror Hy))).
  destruct (f x) eqn:Ef.
  - rewrite (H x (or_introl eq_refl) Ef). simpl. rewrite Ef, IH'. reflexivity.
  - destruct (g x); simpl; rewrite ?Ef; exact IH'.
Qed.

Lemma has_key_not_null pid path r :
  pid <> CNull -> has_key pid path r = true ->
  negb (is_null (pull_request_id r)) = true.
Proof.
  intros Hpid Hr. apply andb_prop in Hr as [Hid _]. apply cell_eqb_eq in Hid.
  rewrite Hid. destruct pid; [contradiction | reflexivity | reflexivity].
Qed.

(** The rows of an absent key that the differ marks for insertion are all the
    fetched rows of that key. *)
Lemma need_insertion_absent_key rows table pid path :
  pid <> CNull ->
  filter (has_key pid path) (map stored table) = [] ->
  filter (has_key pid path) (need_insertion (dropna rows) table)
  = filter (has_key pid path) rows.
Proof.
  intros Hpid Habs. rewrite need_insertion_filter. unfold dropna.
  rewrite filter_filter_implied.
  - apply filter_filter_implied. intros r _. now apply has_key_not_null.
  - intros r _ Hr. now rewrite (absent_key_no_match table pid path r).
Qed.

(** What the model leaves in the table for a key no persisted row had. *)
Lemma model_absent_key parameter_columns rows table pid path :
  pid <> CNull ->
  filter (has_key pid path) (map stored table) = [] ->
  exists table',
    pull_request_files_model parameter_columns rows table = Some table'
    /\ filter (has_key pid path) (map stored table')
       = filter (has_key pid path) rows.
Proof.
  intros Hpid Habs. unfold pull_request_files_model.
  destruct (0 <? List.length rows)%nat eqn:Hlen.
  - rewrite update_where_first_comparison.
    set (w := Eq _ _).
    set (updates := need_updates (dropna rows) table).
    set (table1 := if (0 <? List.length updates)%nat
                   then execute_update parameter_columns w table updates
                   else table).
    assert (H1 : filter (has_key pid path) (map stored table1) = []).
    { subst table1. destruct (0 <? List.length updates)%nat; [|assumption].
      apply execute_update_key; [reflexivity | | assumption].
      now apply need_updates_keys. }
    assert (E : (if (0 <? List.length updates)%nat
                 then Some (execute_update parameter_columns w table updates)
                 else Some table) = Some table1).
    { subst table1. now destruct (0 <? List.length updates)%nat. }
    rewrite E.
    destruct (need_insertion (dropna rows) table) as [|r ins] eqn:Eins.
    + exists table1. split; [reflexivity|].
      rewrite H1, <- (need_insertion_absent_key rows table pid path Hpid Habs).
      now rewrite Eins.
    + cbn [List.length Nat.ltb Nat.leb]. eexists. split; [reflexivity|].
      rewrite execute_insert_stored, filter_app, H1, <- Eins.
      now apply need_insertion_absent_key.
  - exists table. split; [reflexivity|].
    destruct rows; [now rewrite Habs | discriminate].
Qed.

(** *** The claims about the differ and the bulk writes *)

(** C1 (idempotence of a second run, for the pull-request-files differ): when
    every fetched row's natural key [(pull_request_id, pr_file_path)] is
    already in the persisted table with equal [pr_file_additions] and
    [pr_file_deletions], the computed insert set and the computed update set
    are both empty, and the model leaves the table as it is. *)
Theorem unchanged_dataset_needs_no_write (parameter_columns : list column)
  (pr_file_rows : list FileRow) (table_values : list TableRow) :
  (forall r, In r pr_file_rows -> persisted table_values r) ->
  need_insertion (dropna pr_file_rows) table_values = []
  /\ need_updates (dropna pr_file_rows) table_values = []
  /\ pull_request_files_model parameter_columns pr_file_rows table_values
     = Some table_values.
Proof.
  intro H.
  assert (Hins : need_insertion (dropna pr_file_rows) table_values = []).
  { apply nil_of_no_member. intros r Hr.
    apply in_need_insertion in Hr as [Hr Hno]. apply in_dropna in Hr as [Hr _].
    destruct (persisted_matches _ _ (H r Hr)) as [Hk _]. congruence. }
  assert (Hupd : need_updates (dropna pr_file_rows) table_values = []).
  { unfold need_updates.
    replace (need_updates_frame (dropna pr_file_rows) table_values)
      with (@nil FileRow); [reflexivity|].
    symmetry. apply nil_of_no_member. intros r Hr.
    apply in_need_updates_frame in Hr as (Hr & _ & Hno).
    apply in_dropna in Hr as [Hr _].
    destruct (persisted_matches _ _ (H r Hr)) as [_ Hu]. congruence. }
  repeat split; [assumption | assumption |].
  unfold pull_request_files_model. rewrite Hins, Hupd. simpl.
  now destruct (0 <? List.length pr_file_rows)%nat.
Qed.

Lemma unchanged_dataset_needs_no_write_witness :
  let rows := [file_row 7 "a.py" 3 1; file_row 7 "b.py" 0 2] in
  let table := [mkTableRow 1 (file_row 7 "a.py" 3 1);
                mkTableRow 2 (file_row 7 "b.py" 0 2)] in
  need_insertion (dropna rows) table = []
  /\ need_updates (dropna rows) table = []
  /\ pull_request_files_model row_columns rows table = Some table.
Proof.
  apply (unchanged_dataset_needs_no_write row_columns
           [file_row 7 "a.py" 3 1; file_row 7 "b.py" 0 2]
           [mkTableRow 1 (file_row 7 "a.py" 3 1);
            mkTableRow 2 (file_row 7 "b.py" 0 2)]).
  intros r [<- | [<- | []]].
  - exists (mkTableRow 1 (file_row 7 "a.py" 3 1)). simpl. tauto.
  - exists (mkTableRow 2 (file_row 7 "b.py" 0 2)). simpl. tauto.
Defined.

(** C2 (partition exhaustivity): every fetched row of a batch is in exactly
    one of the partitions insert, update, unchanged of the pull-request-files
    differ: it is classified in one of them, and in no two; in particular no
    row is both in [need_insertion] and in [need_updates]. *)
Theorem every_row_in_exactly_one_partition
  (pr_file_rows : list FileRow) (table_values : list TableRow) (r : FileRow) :
  In r pr_file_rows ->
  (exists p, classified pr_file_rows table_values r p)
  /\ (forall p q, classified pr_file_rows table_values r p ->
                  classified pr_file_rows table_values r q -> p = q)
  /\ ~ (In r (need_insertion (dropna pr_file_rows) table_values)
        /\ In r (map params (need_updates (dropna pr_file_rows) table_values))).
Proof.
  intro Hr. split; [|split].
  - exists (classify table_values r). now apply classified_iff_classify.
  - intros p q Hp Hq.
    apply (classified_iff_classify _ _ _ _ Hr) in Hp, Hq. congruence.
  - intros [Hi Hu].
    apply (classified_iff_classify _ _ _ insert Hr) in Hi.
    apply (classified_iff_classify _ _ _ update Hr) in Hu. congruence.
Qed.

Lemma every_row_in_exactly_one_partition_witness :
  let rows := [file_row 7 "a.py" 3 1; file_row 7 "b.py" 0 2] in
  let table := [mkTableRow 1 (file_row 7 "a.py" 9 9)] in
  let r := file_row 7 "a.py" 3 1 in
  (exists p, classified rows table r p)
  /\ (forall p q, classified rows table r p -> classified rows table r q ->
                  p = q)
  /\ ~ (In r (need_insertion (dropna rows) table)
        /\ In r (map params (need_updates (dropna rows) table))).
Proof.
  apply (every_row_in_exactly_one_partition
           [file_row 7 "a.py" 3 1; file_row 7 "b.py" 0 2]
           [mkTableRow 1 (file_row 7 "a.py" 9 9)]
           (file_row 7 "a.py" 3 1)).
  simpl. left. reflexivity.
Defined.

(** C3, as the specification states it, fails: a natural key fetched twice
    (here [(7, a.py)], first with counts 1 and 1, then with 2 and 2) and not
    yet persisted gives two destination rows, one per occurrence, not one row
    with the later values. *)
Lemma duplicate_fetch_gives_two_rows :
  let rows := [file_row 7 "a.py" 1 1; file_row 7 "a.py" 2 2] in
  need_insertion (dropna rows) [] = rows
  /\ pull_request_files_model row_columns rows []
     = Some [mkTableRow 1 (file_row 7 "a.py" 1 1);
             mkTableRow 2 (file_row 7 "a.py" 2 2)]
  /\ ~ (exists table',
          pull_request_files_model row_columns rows [] = Some table'
          /\ (List.length
                (filter (has_key (CInt 7) (CStr "a.py")) (map stored table'))
              <= 1)%nat).
Proof.
  split; [reflexivity|]. split; [reflexivity|].
  intros [table' [H Hlen]]. vm_compute in H. injection H as <-.
  vm_compute in Hlen. lia.
Qed.

(** C3 as amended: when a natural key with a pull request id occurs in the
    fetched sequence and no persisted row has it, every occurrence is
    inserted: the table ends with as many rows of that key as the fetched
    sequence has, and each fetched row of the key is one of them. *)
Theorem every_occurrence_of_an_absent_key_is_inserted
  (parameter_columns : list column)
  (pr_file_rows : list FileRow) (table : list TableRow) (pid path : cell) :
  pid <> CNull ->
  filter (has_key pid path) (map stored table) = [] ->
  exists table',
    pull_request_files_model parameter_columns pr_file_rows table = Some table'
    /\ List.length (filter (has_key pid path) (map stored table'))
       = List.length (filter (has_key pid path) pr_file_rows)
    /\ (forall r, In r pr_file_rows -> has_key pid path r = true ->
                  In r (map stored table')).
Proof.
  intros Hpid Habs.
  destruct (model_absent_key parameter_columns pr_file_rows table pid path
              Hpid Habs) as (table' & Hrun & Hkey).
  exists table'. split; [assumption|]. split; [now rewrite Hkey|].
  intros r Hr Hk.
  assert (Hin : In r (filter (has_key pid path) (map stored table'))).
  { rewrite Hkey. apply filter_In. now split. }
  now apply filter_In in Hin.
Qed.

Lemma every_occurrence_of_an_absent_key_is_inserted_witness :
  let rows := [file_row 7 "a.py" 1 1; file_row 7 "c.py" 0 0;
               file_row 7 "a.py" 2 2] in
  let table := [mkTableRow 1 (file_row 7 "c.py" 4 4)] in
  exists table',
    pull_request_files_model row_columns rows table = Some table'
    /\ List.length (filter (has_key (CInt 7) (CStr "a.py")) (map stored table'))
       = List.length (filter (has_key (CInt 7) (CStr "a.py")) rows)
    /\ (forall r, In r rows -> has_key (CInt 7) (CStr "a.py") r = true ->
                  In r (map stored table')).
Proof.
  apply (every_occurrence_of_an_absent_key_is_inserted row_columns
           [file_row 7 "a.py" 1 1; file_row 7 "c.py" 0 0;
            file_row 7 "a.py" 2 2]
           [mkTableRow 1 (file_row 7 "c.py" 4 4)] (CInt 7) (CStr "a.py")).
  - discriminate.
  - reflexivity.
Defined.

(** C4 fails on the code: the table holds two files of pull request 7,
    [a.py] (row 1) with counts 1 and 1 and [b.py] (row 2) with counts 2 and
    2; the fetch reports [a.py] with counts 5 and 5.  The differ asks for one
    update, of [(7, a.py)], and the update statement overwrites the counts of
    row 2 as well: its [where] is the comparison of [pull_request_id]
    alone. *)
Theorem update_overwrites_every_file_of_the_pull_request
  (parameter_columns : list column) :
  let table := [mkTableRow 1 (file_row 7 "a.py" 1 1);
                mkTableRow 2 (file_row 7 "b.py" 2 2)] in
  let rows := [file_row 7 "a.py" 5 5] in
  update_where
  = Some (Eq (Column c_pull_request_id) (BindParam "b_pull_request_id"))
  /\ need_insertion (dropna rows) table = []
  /\ map params (need_updates (dropna rows) table) = rows
  /\ option_map counts
       (pull_request_files_model parameter_columns rows table)
     = Some [(1%Z, CInt 5, CInt 5); (2%Z, CInt 5, CInt 5)].
Proof. repeat split. Qed.

(** X4 (what the differ marks for update), for ids and counts that are
    null or integers of magnitude at most 2^53, fetched and stored (those
    pandas compares exactly, also in a column it holds as float64): the rows
    marked for update are the fetched rows whose natural key is persisted and
    whose pair of update values no persisted row has, of whatever key (the
    second merge is on the update columns alone).  So a fetched row whose
    counts differ from those stored under its key, and equal those of another
    persisted file, is marked for nothing. *)
Theorem marked_for_update_iff
  (pr_file_rows : list FileRow) (table_values : list TableRow) (r : FileRow) :
  forallb exact_row pr_file_rows = true ->
  forallb (fun t => exact_row (stored t)) table_values = true ->
  (In r (map params (need_updates (dropna pr_file_rows) table_values))
   <-> In r pr_file_rows
       /\ is_null (pull_request_id r) = false
       /\ existsb (on_dupe_columns r) table_values = true
       /\ existsb (on_update_columns r) table_values = false).
Proof.
  intros _ _.
  rewrite params_need_updates, in_need_updates_frame, in_dropna. tauto.
Qed.

(** [a.py] is stored with counts 1 and 1 and fetched with 2 and 2, the
    counts stored for [b.py]: it is marked neither for update nor for
    insertion. *)
Lemma marked_for_update_iff_witness :
  let table := [mkTableRow 1 (file_row 7 "a.py" 1 1);
                mkTableRow 2 (file_row 7 "b.py" 2 2)] in
  let rows := [file_row 7 "a.py" 2 2] in
  ~ In (file_row 7 "a.py" 2 2) (map params (need_updates (dropna rows) table))
  /\ need_insertion (dropna rows) table = [].
Proof.
  split; [|reflexivity].
  intro H.
  apply (marked_for_update_iff
           [file_row 7 "a.py" 2 2]
           [mkTableRow 1 (file_row 7 "a.py" 1 1);
            mkTableRow 2 (file_row 7 "b.py" 2 2)]
           (file_row 7 "a.py" 2 2) eq_refl eq_refl) in H.
  destruct H as (_ & _ & _ & H). discriminate.
Defined.

(** *** A second run *)

Lemma existsb_on_stored (f : FileRow -> FileRow -> bool) (r : FileRow)
  (table : list TableRow) :
  existsb (fun t => f r (stored t)) table = existsb (f r) (map stored table).
Proof.
  induction table as [|t table IH]; simpl; [reflexivity | now rewrite IH].
Qed.

Lemma same_key_refl (r : FileRow) : same_key r r = true.
Proof. unfold same_key. now rewrite !cell_eqb_refl. Qed.

Lemma same_counts_refl (r : FileRow) : same_counts r r = true.
Proof. unfold same_counts. now rewrite !cell_eqb_refl. Qed.

(** With nothing to update, the run leaves the table with the rows to
    insert added to it. *)
Lemma insert_only_run (parameter_columns : list column)
  (pr_file_rows : list FileRow) (table : list TableRow) :
  need_updates (dropna pr_file_rows) table = [] ->
  exists table',
    pull_request_files_model parameter_columns pr_file_rows table
    = Some table'
    /\ map stored table'
       = map stored table ++ need_insertion (dropna pr_file_rows) table.
Proof.
  intro Hupd. unfold pull_request_files_model. cbv zeta. rewrite Hupd.
  destruct (0 <? List.length pr_file_rows)%nat eqn:Hlen.
  - destruct (need_insertion (dropna pr_file_rows) table) as [|r ins] eqn:E.
    + exists table. split; [reflexivity|]. now rewrite app_nil_r.
    + eexists. split; [reflexivity|]. apply execute_insert_stored.
  - destruct pr_file_rows; [|discriminate]. exists table.
    split; [reflexivity|]. rewrite need_insertion_filter. cbn [dropna filter].
    now rewrite app_nil_r.
Qed.

(** X10 (a run that only inserts is idempotent): when the differ finds
    nothing to update, the run inserts the rows whose natural key was
    missing, and a second run over the same fetched rows finds nothing to
    insert and nothing to update and leaves the table as the first run left
    it. *)
Theorem insert_only_run_is_idempotent (parameter_columns : list column)
  (pr_file_rows : list FileRow) (table : list TableRow) :
  need_updates (dropna pr_file_rows) table = [] ->
  exists table',
    pull_request_files_model parameter_columns pr_file_rows table
    = Some table'
    /\ need_insertion (dropna pr_file_rows) table' = []
    /\ need_updates (dropna pr_file_rows) table' = []
    /\ pull_request_files_model parameter_columns pr_file_rows table'
       = Some table'.
Proof.
  intro Hupd.
  destruct (insert_only_run parameter_columns pr_file_rows table Hupd)
    as (table' & Hrun & Hstored).
  exists table'. split; [assumption|].
  assert (Hkey : forall r, In r (dropna pr_file_rows) ->
                           existsb (on_dupe_columns r) table' = true).
  { intros r Hr.
    change (on_dupe_columns r) with (fun t => same_key r (stored t)).
    rewrite existsb_on_stored, Hstored, existsb_app, <- existsb_on_stored.
    change (fun t => same_key r (stored t)) with (on_dupe_columns r).
    destruct (existsb (on_dupe_columns r) table) eqn:E; [reflexivity|].
    simpl. apply existsb_exists. exists r. split; [|apply same_key_refl].
    apply in_need_insertion. now split. }
  assert (Hcounts : forall r, In r (dropna pr_file_rows) ->
                              existsb (on_update_columns r) table' = true).
  { intros r Hr.
    change (on_update_columns r) with (fun t => same_counts r (stored t)).
    rewrite existsb_on_stored, Hstored, existsb_app, <- existsb_on_stored.
    change (fun t => same_counts r (stored t)) with (on_update_columns r).
    destruct (existsb (on_dupe_columns r) table) eqn:E.
    - assert (Hno : ~ In r (need_updates_frame (dropna pr_file_rows) table)).
      { rewrite <- params_need_updates, Hupd. intros []. }
      destruct (existsb (on_update_columns r) table) eqn:E'; [reflexivity|].
      destruct Hno. apply in_need_updates_frame. now repeat split.
    - apply orb_true_iff. right. apply existsb_exists. exists r.
      split; [|apply same_counts_refl]. apply in_need_insertion. now split. }
  assert (Hins : need_insertion (dropna pr_file_rows) table' = []).
  { apply nil_of_no_member. intros r Hr.
    apply in_need_insertion in Hr as [Hr Hno]. rewrite (Hkey r Hr) in Hno.
    discriminate. }
  assert (Hupd' : need_updates (dropna pr_file_rows) table' = []).
  { unfold need_updates.
    replace (need_updates_frame (dropna pr_file_rows) table')
      with (@nil FileRow); [reflexivity|].
    symmetry. apply nil_of_no_member. intros r Hr.
    apply in_need_updates_frame in Hr as (Hr & _ & Hno).
    rewrite (Hcounts r Hr) in Hno. discriminate. }
  repeat split; [assumption | assumption |].
  unfold pull_request_files_model. rewrite Hins, Hupd'. simpl.
  now destruct (0 <? List.length pr_file_rows)%nat.
Qed.

Lemma insert_only_run_is_idempotent_witness :
  let rows := [file_row 7 "a.py" 3 1; file_row 7 "b.py" 0 2;
               file_row 8 "a.py" 0 2] in
  let table := [mkTableRow 1 (file_row 7 "a.py" 3 1)] in
  exists table',
    pull_request_files_model row_columns rows table = Some table'
    /\ need_insertion (dropna rows) table' = []
    /\ need_updates (dropna rows) table' = []
    /\ pull_request_files_model row_columns rows table' = Some table'.
Proof.
  apply (insert_only_run_is_idempotent row_columns
           [file_row 7 "a.py" 3 1; file_row 7 "b.py" 0 2;
            file_row 8 "a.py" 0 2]
           [mkTableRow 1 (file_row 7 "a.py" 3 1)]).
  reflexivity.
Defined.

(** X11 (rows without a pull request id): a fetched row whose
    [pull_request_id] is null is dropped before the comparison: it is in
    neither set whatever the table holds, and every row of the two sets is a
    fetched row with a pull request id. *)
Theorem rows_without_pull_request_id_are_dropped
  (pr_file_rows : list FileRow) (table_values : list TableRow) (r : FileRow) :
  (pull_request_id r = CNull ->
   ~ In r (need_insertion (dropna pr_file_rows) table_values)
   /\ ~ In r (map params (need_updates (dropna pr_file_rows) table_values)))
  /\ (In r (need_insertion (dropna pr_file_rows) table_values)
      \/ In r (map params (need_updates (dropna pr_file_rows) table_values)) ->
      In r pr_file_rows /\ pull_request_id r <> CNull).
Proof.
  assert (H : In r (need_insertion (dropna pr_file_rows) table_values)
              \/ In r (map params
                         (need_updates (dropna pr_file_rows) table_values)) ->
              In r pr_file_rows /\ is_null (pull_request_id r) = false).
  { rewrite params_need_updates, in_need_insertion, in_need_updates_frame,
      in_dropna. tauto. }
  split.
  - intro Hnull. split; intro Hin;
      [destruct (H (or_introl Hin)) as [_ E]
      | destruct (H (or_intror Hin)) as [_ E]];
      rewrite Hnull in E; discriminate.
  - intro Hin. destruct (H Hin) as [Hr E]. split; [assumption|].
    intro Hnull. rewrite Hnull in E. discriminate.
Qed.

(** *** A write that fails *)

Lemma write_until_success_after {DB : Type} (execute : DB -> bool * DB)
  (k fuel : nat) (db : DB) (steps : list step) :
  (forall i, i < k -> fst (execute (after execute i db)) = false) ->
  fst (execute (after execute k db)) = true ->
  write_until_success execute (S k + fuel) db steps
  = Some (after execute (S k) db,
          steps ++ List.concat (repeat [attempted; slept 5] (S k))).
Proof.
  revert db steps. induction k as [|k IH]; intros db steps Hfail Hok.
  - cbn in *. destruct (execute db) as [success db']. cbn in *. now subst.
  - assert (H0 := Hfail 0 ltac:(lia)).
    assert (Hlater : forall i, i < k ->
               fst (execute (after execute i (snd (execute db)))) = false)
      by (intros i Hi; apply (Hfail (S i)); lia).
    change (S (S k) + fuel) with (S (S k + fuel)).
    cbn [write_until_success]. cbn [after] in H0, Hok.
    cbn [after]. destruct (execute db) as [success db']. cbn [fst snd] in *.
    subst success. rewrite IH by assumption.
    cbn [repeat List.concat app]. now rewrite <- app_assoc.
Qed.

(** X25 (a write is retried until it succeeds): when the statement raises
    an [Exception] [k] times and is executed at the next attempt, the loop
    makes [k + 1] attempts, five seconds apart, sleeps once more and goes on
    with the database the successful attempt left; when the statement raises
    every time, the loop never ends: no number of failures makes the model
    give up or skip the write. *)
Theorem a_write_is_retried_until_it_succeeds {DB : Type}
  (execute : DB -> bool * DB) :
  (forall k fuel db steps,
      (forall i, i < k -> fst (execute (after execute i db)) = false) ->
      fst (execute (after execute k db)) = true ->
      write_until_success execute (S k + fuel) db steps
      = Some (after execute (S k) db,
              steps ++ List.concat (repeat [attempted; slept 5] (S k))))
  /\ ((forall db, fst (execute db) = false) ->
      forall fuel db steps, write_until_success execute fuel db steps = None).
Proof.
  split.
  - intros k fuel db steps. apply write_until_success_after.
  - intros Hfail fuel. induction fuel as [|fuel IH]; intros db steps;
      [reflexivity|].
    cbn [write_until_success]. specialize (Hfail db).
    destruct (execute db) as [success db']. cbn [fst] in Hfail. subst success.
    apply IH.
Qed.

Lemma a_write_is_retried_until_it_succeeds_witness :
  write_until_success third_time 5 0 []
  = Some (3, [attempted; slept 5; attempted; slept 5; attempted; slept 5]).
Proof.
  apply (proj1 (a_write_is_retried_until_it_succeeds third_time) 2 2 0 []).
  - intros i Hi. destruct i as [|[|i]]; [reflexivity | reflexivity | lia].
  - reflexivity.
Defined.

End PullRequestFiles.

(** ** Python values *)

Module Py.
#[local] Open Scope string_scope.
#[local] Open Scope list_scope.

(** Python values: what [response.json()] returns, what [data_subjects] is
    written with, and the records the models build rows from.  A dict keeps
    its items in insertion order.  [VNaN] is [float('nan')], the missing value
    of pandas; no other float is modelled. *)
#[local] Set Warnings "-register-all".

Inductive value : Type :=
| VNone
| VBool (b : bool)
| VInt (z : Z)
| VNaN
| VStr (s : string)
| VList (l : list value)
| VDict (d : list (string * value)).

Inductive exn : Type :=
| KeyError | IndexError | TypeError | ValueError | AttributeError
| UnboundLocalError | NameError.

Inductive result (A : Type) : Type :=
| Return (a : A)
| Raise (e : exn).
Arguments Return {A} a.
Arguments Raise {A} e.

(** [bool(v)] *)
Definition truthy (v : value) : bool :=
  match v with
  | VNone => false
  | VBool b => b
  | VInt z => negb (Z.eqb z 0)
  | VNaN => true
  | VStr s => negb (String.eqb s "")
  | VList l => match l with [] => false | _ => true end
  | VDict d => match d with [] => false | _ => true end
  end.

(** [v == 'text'] *)
Definition str_eq (v : value) (text : string) : bool :=
  match v with
  | VStr s => String.eqb s text
  | _ => false
  end.

Definition has_key (d : list (string * value)) (key : string) : bool :=
  existsb (fun kv => String.eqb (fst kv) key) d.

Fixpoint lookup (d : list (string * value)) (key : string) : option value :=
  match d with
  | [] => None
  | (k, v) :: d' => if String.eqb k key then Some v else lookup d' key
  end.

Definition is_substring (key s : string) : bool :=
  match String.index 0 key s with
  | Some _ => true
  | None => false
  end.

(** ['key' in v] *)
Definition py_in (key : string) (v : value) : result bool :=
  match v with
  | VDict d => Return (has_key d key)
  | VList l => Return (existsb (fun x => str_eq x key) l)
  | VStr s => Return (is_substring key s)
  | _ => Raise TypeError
  end.

(** [v['key']] *)
Definition getitem (v : value) (key : string) : result value :=
  match v with
  | VDict d => match lookup d key with
               | Some x => Return x
               | None => Raise KeyError
               end
  | _ => Raise TypeError
  end.

(** [v[0]] *)
Definition getitem0 (v : value) : result value :=
  match v with
  | VList (x :: _) => Return x
  | VList [] => Raise IndexError
  | VStr (String c _) => Return (VStr (String c EmptyString))
  | VStr EmptyString => Raise IndexError
  | VDict _ => Raise KeyError
  | _ => Raise TypeError
  end.

Fixpoint chars (s : string) : list value :=
  match s with
  | EmptyString => []
  | String c s' => VStr (String c EmptyString) :: chars s'
  end.

(** The items [tuples += v] appends. *)
Definition iterate (v : value) : result (list value) :=
  match v with
  | VList l => Return l
  | VStr s => Return (chars s)
  | VDict d => Return (map (fun kv => VStr (fst kv)) d)
  | _ => Raise TypeError
  end.

(** [len(v)] *)
Definition py_len (v : value) : result nat :=
  match v with
  | VList l => Return (List.length l)
  | VStr s => Return (String.length s)
  | VDict d => Return (List.length d)
  | _ => Raise TypeError
  end.

Fixpoint set_key (d : list (string * value)) (key : string) (v : value)
  : list (string * value) :=
  match d with
  | [] => [(key, v)]
  | (k, x) :: d' =>
      if String.eqb k key then (k, v) :: d' else (k, x) :: set_key d' key v
  end.

(** [target['key'] = v], giving the target as it is afterwards. *)
Definition setitem (target : value) (key : string) (v : value)
  : result value :=
  match target with
  | VDict d => Return (VDict (set_key d key v))
  | _ => Raise TypeError
  end.

(** A number: an integer, or [NaN]. *)
Definition number (v : value) : option (option Z) :=
  match v with
  | VBool b => Some (Some (if b then 1 else 0)%Z)
  | VInt z => Some (Some z)
  | VNaN => Some None
  | _ => None
  end.

(** [a + b] *)
Definition py_add (a b : value) : result value :=
  match a, b with
  | VList x, VList y => Return (VList (x ++ y))
  | VStr x, VStr y => Return (VStr (x ++ y)%string)
  | _, _ =>
      match number a, number b with
      | Some (Some x), Some (Some y) => Return (VInt (x + y))
      | Some _, Some _ => Return VNaN
      | _, _ => Raise TypeError
      end
  end.

End Py.

(** ** [graphql_paginate] *)

Module GraphQL.
Import Py.
#[local] Open Scope string_scope.
#[local] Open Scope list_scope.

(** [all_items]: every key of the nested dict with its value, a dict before
    its own items. *)
Fixpoint all_items (dictionary : value) : result (list (string * value)) :=
  match dictionary with
  | VDict d =>
      (fix items (l : list (string * value)) : result (list (string * value)) :=
         match l with
         | [] => Return []
         | (key, v) :: l' =>
             match v with
             | VDict _ =>
                 match all_items v, items l' with
                 | Return inner, Return rest => Return ((key, v) :: inner ++ rest)
                 | Raise e, _ => Raise e
                 | _, Raise e => Raise e
                 end
             | _ =>
                 match items l' with
                 | Return rest => Return ((key, v) :: rest)
                 | Raise e => Raise e
                 end
             end
         end) d
  | _ => Raise AttributeError
  end.

(** [find_root_of_subject]: the value under [key_subject] in the first nest
    that has it; a dict that has not is searched instead of its later
    siblings; no item left raises [KeyError]. *)
Fixpoint find_root_of_subject (data : value) (key_subject : string)
  : result value :=
  match data with
  | VDict d =>
      (fix items (l : list (string * value)) : result value :=
         match l with
         | [] => Raise KeyError
         | (subject, nest) :: l' =>
             match py_in key_subject nest with
             | Raise e => Raise e
             | Return true => getitem nest key_subject
             | Return false =>
                 match nest with
                 | VDict _ => find_root_of_subject nest key_subject
                 | _ => items l'
                 end
             end
         end) d
  | _ => Raise AttributeError
  end.

(** What [before_parameters] holds for a subject: the empty text at first,
    then the [before:] argument formatted with the cursor. *)
Inductive before : Type :=
| NoCursor
| Before (cursor : value).

Definition parameters : Type := list (string * before).

(** [before_parameters[subject] = b], also [before_parameters.update]. *)
Fixpoint assign (p : parameters) (subject : string) (b : before) : parameters :=
  match p with
  | [] => [(subject, b)]
  | (k, x) :: p' =>
      if String.eqb k subject then (k, b) :: p'
      else (k, x) :: assign p' subject b
  end.

(** What the worker does to the world, in order: a request (the query with
    [before_parameters] filled in) and the calls of [update_gh_rate_limit]. *)
Inductive rate_limit_mode : Type := plain | temporarily_disable | bad_credentials.

Inductive event : Type :=
| Post (query : parameters)
| UpdateRateLimit (mode : rate_limit_mode).

(** The world: the responses the endpoint will give, in order, and what the
    worker has done so far. *)
Record world : Type := mkWorld {
  script : list value;
  trace : list event
}.

(** A computation: [None] when the script (or the fuel of a loop) runs out
    before it ends, else its result and the world it leaves. *)
Definition M (A : Type) : Type := world -> option (result A * world).

Definition ret {A} (a : A) : M A := fun w => Some (Return a, w).
Definition raise {A} (e : exn) : M A := fun w => Some (Raise e, w).
Definition bind {A B} (m : M A) (k : A -> M B) : M B :=
  fun w => match m w with
           | Some (Return a, w') => k a w'
           | Some (Raise e, w') => Some (Raise e, w')
           | None => None
           end.
Definition lift {A} (r : result A) : M A := fun w => Some (r, w).
Definition out_of_fuel {A} : M A := fun _ => None.

Notation "x <- m ;; k" := (bind m (fun x => k))
  (at level 61, m at next level, right associativity).
Notation "m ;;; k" := (bind m (fun _ => k))
  (at level 61, right associativity).

Definition log (e : event) : M unit :=
  fun w => Some (Return tt, mkWorld (script w) (trace w ++ [e])).

(** [requests.post] of the query formatted with [before_parameters], followed
    by [response.json()]: the next response of the script. *)
Definition post (p : parameters) : M value :=
  fun w => match script w with
           | [] => None
           | response :: rest =>
               Some (Return response, mkWorld rest (trace w ++ [Post p]))
           end.

Definition update_gh_rate_limit (mode : rate_limit_mode) : M unit :=
  log (UpdateRateLimit mode).

Definition abuse_message : string :=
  "You have triggered an abuse detection mechanism. Please wait a few minutes before you try again.".

(** The body of [for attempt in range(num_attempts)], with [remaining]
    passes of the range left.  [range(num_attempts)] is built once, with
    [num_attempts = 3], when the loop starts; the variable [num_attempts] is
    carried along as the source updates it and is never read again.  The
    result is [Some (page_info, data)] when the loop ends with
    [success = True], [None] when it ends (by [break] or at the end of the
    range) with [success = False]. *)
Fixpoint attempt_loop (remaining : nat) (num_attempts : Z)
  (data_subject : string) (before_parameters : parameters)
  : M (option (value * value)) :=
  match remaining with
  | O => ret None
  | S remaining' =>
      data <- post before_parameters ;;
      update_gh_rate_limit plain ;;;
      has_errors <- lift (py_in "errors" data) ;;
      if (has_errors : bool) then
        errors <- lift (getitem data "errors") ;;
        first <- lift (getitem0 errors) ;;
        type <- lift (getitem first "type") ;;
        if str_eq type "NOT_FOUND" then ret None
        else if str_eq type "RATE_LIMITED" then
          update_gh_rate_limit plain ;;;
          attempt_loop remaining' (num_attempts - 1) data_subject
            before_parameters
        else
          attempt_loop remaining' num_attempts data_subject before_parameters
      else
        has_data <- lift (py_in "data" data) ;;
        if (has_data : bool) then
          root <- lift (find_root_of_subject data data_subject) ;;
          page_info <- lift (getitem root "pageInfo") ;;
          edges <- lift (getitem root "edges") ;;
          ret (Some (page_info, edges))
        else
          message <- lift (getitem data "message") ;;
          if str_eq message "Not Found" then ret None
          else if str_eq message abuse_message then
            update_gh_rate_limit temporarily_disable ;;;
            attempt_loop remaining' (num_attempts - 1) data_subject
              before_parameters
          else if str_eq message "Bad credentials" then
            update_gh_rate_limit bad_credentials ;;;
            attempt_loop remaining' num_attempts data_subject before_parameters
          else
            attempt_loop remaining' num_attempts data_subject before_parameters
  end.

(** [while has_previous_page], entered with [has_previous_page] true: one
    page per pass.  It gives back [tuples] and [before_parameters] as the
    loop leaves them. *)
Fixpoint page_loop (fuel : nat) (data_subject : string)
  (before_parameters : parameters) (tuples : list value)
  : M (list value * parameters) :=
  match fuel with
  | O => out_of_fuel
  | S fuel' =>
      page <- attempt_loop 3 3 data_subject before_parameters ;;
      match page with
      | None => ret (tuples, before_parameters)
      | Some (page_info, data) =>
          start_cursor <- lift (getitem page_info "startCursor") ;;
          let before_parameters' :=
            assign before_parameters data_subject (Before start_cursor) in
          has_previous_page <- lift (getitem page_info "hasPreviousPage") ;;
          items <- lift (iterate data) ;;
          let tuples' := tuples ++ items in
          if truthy has_previous_page
          then page_loop fuel' data_subject before_parameters' tuples'
          else ret (tuples', before_parameters')
      end
  end.

(** The key the loop [for subject, _ in all_items(data_subjects)] leaves in
    [subject]: the last one, none when there was no item. *)
Definition last_subject (items : list (string * value)) : option string :=
  match rev items with
  | [] => None
  | (subject, _) :: _ => Some subject
  end.

(** [graphql_paginate(query, data_subjects, before_parameters)].  The body of
    [for data_subject, nest in data_subjects.items()] ends in a [return] on
    both branches, so the loop runs for the first item only; over an empty
    dict the function falls off its end and returns [None].  [subject] is the
    local variable the first loop (run only when [before_parameters] is
    empty) may have bound. *)
Fixpoint graphql_paginate (fuel : nat) (data_subjects : value)
  (before_parameters : option parameters) : M value :=
  match fuel with
  | O => out_of_fuel
  | S fuel' =>
      init <- match before_parameters with
              | Some (item :: given) => ret (item :: given, @None string)
              | _ =>
                  items <- lift (all_items data_subjects) ;;
                  ret (fold_left (fun p kv => assign p (fst kv) NoCursor)
                                 items [],
                       last_subject items)
              end ;;
      let '(before_parameters, subject) := init in
      match data_subjects with
      | VDict [] => ret VNone
      | VDict ((data_subject, nest) :: _) =>
          paged <- page_loop fuel' data_subject before_parameters [] ;;
          let '(tuples, before_parameters) := paged in
          if negb (truthy nest) then ret (VList tuples)
          else
            match subject with
            | None => raise UnboundLocalError
            | Some subject =>
                nested <- lift (getitem data_subjects subject) ;;
                more <- graphql_paginate fuel' nested (Some before_parameters) ;;
                match more with
                | VList l => ret (VList (tuples ++ l))
                | _ => raise TypeError
                end
            end
      | _ => raise AttributeError
      end
  end.

(** *** Responses *)

(** [pageInfo] with the four fields the queries of this worker ask for. *)
Definition page_info (has_previous_page has_next_page end_cursor
                      start_cursor : value) : value :=
  VDict [("hasPreviousPage", has_previous_page);
         ("hasNextPage", has_next_page);
         ("endCursor", end_cursor);
         ("startCursor", start_cursor)].

(** The answer to the files query of [pull_request_files_model]:
    [data.repository.pullRequest.files] with its page info and edges. *)
Definition files_response (info : value) (edges : list value) : value :=
  VDict [("data",
          VDict [("repository",
                  VDict [("pullRequest",
                          VDict [("files",
                                  VDict [("pageInfo", info);
                                         ("edges", VList edges)])])])])].

(** An [errors] answer whose first error has the given type. *)
Definition error_response (type : string) : value :=
  VDict [("errors", VList [VDict [("type", VStr type)]])].

(** A page of the files query. *)
Record page : Type := mkPage {
  previous : value;
  next : value;
  end_cursor : value;
  start_cursor : value;
  edges : list value
}.

Definition response_of (p : page) : value :=
  files_response
    (page_info (previous p) (next p) (end_cursor p) (start_cursor p))
    (edges p).

(** The requests among the events. *)
Definition posts (events : list event) : nat :=
  List.length (filter (fun e => match e with Post _ => true | _ => false end)
                      events).

(** A response nested along a path of keys:
    [{k1: {k2: ... {kn: leaf}}}]. *)
Fixpoint nest_along (key : string) (path : list string) (leaf : value)
  : value :=
  match path with
  | [] => VDict [(key, leaf)]
  | key' :: path' => VDict [(key, nest_along key' path' leaf)]
  end.

(** A [message] answer, as the REST side of the API gives for a failure. *)
Definition message_response (message : string) : value :=
  VDict [("message", VStr message)].

(** What [before_parameters] holds after the pages were read. *)
Definition cursors_after (before_parameters : parameters)
  (pages : list page) : parameters :=
  fold_left (fun p pg => assign p "files" (Before (start_cursor pg)))
            pages before_parameters.

(** What the worker does while it reads the pages: a request with the
    cursors of the moment and a look at the rate limit, page after page. *)
Fixpoint requests_for (before_parameters : parameters) (pages : list page)
  : list event :=
  match pages with
  | [] => []
  | pg :: pages' =>
      Post before_parameters :: UpdateRateLimit plain
      :: requests_for
           (assign before_parameters "files" (Before (start_cursor pg)))
           pages'
  end.

(** The queries sent, in order. *)
Definition queries (events : list event) : list parameters :=
  flat_map (fun e => match e with Post q => [q] | _ => [] end) events.

(** An answer after which the attempt loop tries again: an [errors] answer
    of a type other than [NOT_FOUND], or a [message] other than
    [Not Found]. *)
Inductive retried : value -> Prop :=
| retried_error (type : string) :
    type <> "NOT_FOUND" -> retried (error_response type)
| retried_message (message : string) :
    message <> "Not Found" -> retried (message_response message).

(** *** One attempt, one page *)

(** A files answer ends the attempt loop at once, with its page. *)
Lemma attempt_loop_page (remaining : nat) (num_attempts : Z)
  (before_parameters : parameters) (info : value) (edges rest : list value)
  (done : list event) :
  attempt_loop (S remaining) num_attempts "files" before_parameters
    (mkWorld (files_response info edges :: rest) done)
  = Some (Return (Some (info, VList edges)),
          mkWorld rest
            ((done ++ [Post before_parameters]) ++ [UpdateRateLimit plain])).
Proof. reflexivity. Qed.

(** A rate-limited answer uses up one pass of the range: the loop goes on
    with one pass fewer, whatever [num_attempts] has become. *)
Lemma attempt_loop_rate_limited (remaining : nat) (num_attempts : Z)
  (data_subject : string) (before_parameters : parameters)
  (rest : list value) (done : list event) :
  attempt_loop (S remaining) num_attempts data_subject before_parameters
    (mkWorld (error_response "RATE_LIMITED" :: rest) done)
  = attempt_loop remaining (num_attempts - 1) data_subject before_parameters
      (mkWorld rest
         (((done ++ [Post before_parameters]) ++ [UpdateRateLimit plain])
          ++ [UpdateRateLimit plain])).
Proof. reflexivity. Qed.

(** The variable [num_attempts] has no bearing on the loop. *)
Lemma num_attempts_is_never_read (remaining : nat) (n m : Z)
  (data_subject : string) (before_parameters : parameters) (w : world) :
  attempt_loop remaining n data_subject before_parameters w
  = attempt_loop remaining m data_subject before_parameters w.
Proof.
  revert n m w. induction remaining as [|remaining IH]; intros n m w;
    [reflexivity|].
  cbn [attempt_loop]. unfold bind, post.
  destruct (script w) as [|data rest]; [reflexivity|].
  unfold update_gh_rate_limit, log, lift. cbn [script trace].
  destruct (py_in "errors" data) as [[|]|e]; [| |reflexivity].
  - destruct (getitem data "errors") as [errors|e]; [|reflexivity].
    destruct (getitem0 errors) as [first|e]; [|reflexivity].
    destruct (getitem first "type") as [type|e]; [|reflexivity].
    destruct (str_eq type "NOT_FOUND"); [reflexivity|].
    destruct (str_eq type "RATE_LIMITED"); apply IH.
  - destruct (py_in "data" data) as [[|]|e]; [reflexivity| |reflexivity].
    destruct (getitem data "message") as [message|e]; [|reflexivity].
    destruct (str_eq message "Not Found"); [reflexivity|].
    destruct (str_eq message abuse_message); [apply IH|].
    destruct (str_eq message "Bad credentials"); apply IH.
Qed.

(** A page that reports a previous page: the loop takes its edges, moves the
    cursor and asks again. *)
Lemma page_loop_more (fuel : nat) (before_parameters : parameters)
  (tuples : list value) (previous next end_cursor start_cursor : value)
  (edges rest : list value) (done : list event) :
  truthy previous = true ->
  page_loop (S fuel) "files" before_parameters tuples
    (mkWorld (files_response (page_info previous next end_cursor start_cursor)
                             edges :: rest) done)
  = page_loop fuel "files"
      (assign before_parameters "files" (Before start_cursor))
      (tuples ++ edges)
      (mkWorld rest
         ((done ++ [Post before_parameters]) ++ [UpdateRateLimit plain])).
Proof.
  intro H. cbn [page_loop]. unfold bind at 1. rewrite attempt_loop_page.
  cbn. rewrite H. reflexivity.
Qed.

(** A page that reports no previous page ends the loop. *)
Lemma page_loop_last (fuel : nat) (before_parameters : parameters)
  (tuples : list value) (previous next end_cursor start_cursor : value)
  (edges rest : list value) (done : list event) :
  truthy previous = false ->
  page_loop (S fuel) "files" before_parameters tuples
    (mkWorld (files_response (page_info previous next end_cursor start_cursor)
                             edges :: rest) done)
  = Some (Return (tuples ++ edges,
                  assign before_parameters "files" (Before start_cursor)),
          mkWorld rest
            ((done ++ [Post before_parameters]) ++ [UpdateRateLimit plain])).
Proof.
  intro H. cbn [page_loop]. unfold bind at 1. rewrite attempt_loop_page.
  cbn. rewrite H. reflexivity.
Qed.

(** *** The claims about pagination *)

(** C6 (pagination termination, GraphQL): the files query is answered by
    three pages that report [hasPreviousPage] true, true and false.  The
    paginator sends exactly three requests (the first without a cursor, then
    before the start cursor of the page just read), leaves whatever the
    endpoint would answer next unasked, and returns the edges of the three
    pages in the order they were fetched.  Four units of fuel are enough, and
    more change nothing. *)
Theorem three_pages_three_requests
  (fuel : nat) (edges1 edges2 edges3 : list value)
  (cursor1 cursor2 cursor3 next1 next2 next3 end1 end2 end3 : value)
  (rest : list value) (done : list event) :
  graphql_paginate (4 + fuel) (VDict [("files", VNone)]) None
    (mkWorld
       (files_response (page_info (VBool true) next1 end1 cursor1) edges1
        :: files_response (page_info (VBool true) next2 end2 cursor2) edges2
        :: files_response (page_info (VBool false) next3 end3 cursor3) edges3
        :: rest)
       done)
  = Some (Return (VList (edges1 ++ edges2 ++ edges3)),
          mkWorld rest
            (done ++ [Post [("files", NoCursor)]; UpdateRateLimit plain;
                      Post [("files", Before cursor1)]; UpdateRateLimit plain;
                      Post [("files", Before cursor2)]; UpdateRateLimit plain])).
Proof.
  change (4 + fuel)%nat with (S (S (S (S fuel)))).
  cbn [graphql_paginate]. unfold bind at 1. cbn [all_items lift].
  unfold bind at 1. cbn [lift ret fold_left last_subject rev app fst assign].
  unfold bind at 1.
  rewrite page_loop_more by reflexivity.
  rewrite page_loop_more by reflexivity.
  rewrite page_loop_last by reflexivity.
  cbn [truthy negb ret assign String.eqb Ascii.eqb Bool.eqb app].
  cbn. rewrite <- !app_assoc. reflexivity.
Qed.

(** C7 fails on the code: a rate-limited answer takes one of the three passes
    of the attempt loop like any other error ([num_attempts -= 1] changes a
    variable the loop never reads again).  Three rate-limited answers in a
    row use up the budget: the paginator sends three requests, gives up the
    page and returns no record, and the page the endpoint would have served
    at the fourth request is never fetched; one rate-limited answer leaves
    two passes where an unthrottled fetch has three. *)
Theorem rate_limited_answers_use_up_the_attempts
  (info : value) (edges : list value) :
  graphql_paginate 5 (VDict [("files", VNone)]) None
    (mkWorld [error_response "RATE_LIMITED"; error_response "RATE_LIMITED";
              error_response "RATE_LIMITED"; files_response info edges] [])
  = Some (Return (VList []),
          mkWorld [files_response info edges]
            [Post [("files", NoCursor)]; UpdateRateLimit plain;
             UpdateRateLimit plain;
             Post [("files", NoCursor)]; UpdateRateLimit plain;
             UpdateRateLimit plain;
             Post [("files", NoCursor)]; UpdateRateLimit plain;
             UpdateRateLimit plain])
  /\ forall data_subject before_parameters rest done,
       attempt_loop 3 3 data_subject before_parameters
         (mkWorld (error_response "RATE_LIMITED" :: rest) done)
       = attempt_loop 2 3 data_subject before_parameters
           (mkWorld rest
              (done ++ [Post before_parameters; UpdateRateLimit plain;
                        UpdateRateLimit plain])).
Proof.
  split; [reflexivity|].
  intros data_subject before_parameters rest done.
  rewrite attempt_loop_rate_limited, <- !app_assoc.
  apply num_attempts_is_never_read.
Qed.

(** The loop over [data_subjects] never reaches a second subject: called
    with cursors, the paginator does for a dict what it does for the dict of
    its first item alone. *)
Lemma later_subjects_are_never_paged (fuel : nat) (item : string * value)
  (others : list (string * value)) (cursor : string * before)
  (cursors : parameters) (w : world) :
  graphql_paginate fuel (VDict (item :: others)) (Some (cursor :: cursors)) w
  = graphql_paginate fuel (VDict [item]) (Some (cursor :: cursors)) w.
Proof. destruct fuel, item; reflexivity. Qed.

(** C5 fails on the code.  With a sub-field nested in the outer field
    ([{'commits': {'files': None}}]), the outer field is paged and then the
    look-up of the sub-field, done in [data_subjects] under the last key of
    [all_items], raises [KeyError]: nothing of the sub-field is fetched and
    nothing is returned.  With two fields side by side
    ([{'files': None, 'commits': None}]), the first is paged and returned;
    the second is never asked for. *)
Theorem nested_and_sibling_fields_are_not_paged
  (commits files : list value) (cursor : value) :
  let commits_page :=
    VDict [("data",
            VDict [("repository",
                    VDict [("commits",
                            VDict [("pageInfo",
                                    page_info (VBool false) VNone VNone cursor);
                                   ("edges", VList commits)])])])] in
  let files_page :=
    files_response (page_info (VBool false) VNone VNone cursor) files in
  graphql_paginate 5 (VDict [("commits", VDict [("files", VNone)])]) None
    (mkWorld [commits_page; files_page] [])
  = Some (Raise KeyError,
          mkWorld [files_page]
            [Post [("commits", NoCursor); ("files", NoCursor)];
             UpdateRateLimit plain])
  /\ graphql_paginate 5 (VDict [("files", VNone); ("commits", VNone)]) None
       (mkWorld [files_page; commits_page] [])
     = Some (Return (VList files),
             mkWorld [commits_page]
               [Post [("files", NoCursor); ("commits", NoCursor)];
                UpdateRateLimit plain]).
Proof. split; reflexivity. Qed.

(** *** Any number of pages, and errors on the way *)

Lemma posts_app (a b : list event) : posts (a ++ b) = (posts a + posts b)%nat.
Proof. unfold posts. now rewrite filter_app, length_app. Qed.

(** The page loop over pages that all report a previous page but the last. *)
Lemma page_loop_pages (earlier : list page) (last : page) (fuel : nat)
  (rest : list value) :
  Forall (fun p => truthy (previous p) = true) earlier ->
  truthy (previous last) = false ->
  forall before_parameters tuples done,
  exists before_parameters' events,
    page_loop (S (List.length earlier) + fuel) "files" before_parameters tuples
      (mkWorld (map response_of earlier ++ response_of last :: rest) done)
    = Some (Return (tuples ++ List.concat (map edges earlier) ++ edges last,
                    before_parameters'),
            mkWorld rest (done ++ events))
    /\ posts events = S (List.length earlier).
Proof.
  intros Hearlier Hlast.
  induction Hearlier as [|p earlier Hp _ IH]; intros bp tuples done.
  - cbn [List.length map app List.concat plus]. unfold response_of.
    rewrite page_loop_last by assumption.
    eexists _, [Post bp; UpdateRateLimit plain]. split; [|reflexivity].
    now rewrite <- app_assoc.
  - cbn [List.length map app List.concat plus]. unfold response_of at 1.
    rewrite page_loop_more by assumption.
    destruct (IH (assign bp "files" (Before (start_cursor p)))
                 (tuples ++ edges p)
                 ((done ++ [Post bp]) ++ [UpdateRateLimit plain]))
      as (bp' & events & Hrun & Hposts).
    cbn [plus] in Hrun. rewrite Hrun.
    exists bp', ([Post bp; UpdateRateLimit plain] ++ events).
    split.
    + rewrite <- !app_assoc. reflexivity.
    + rewrite posts_app, Hposts. reflexivity.
Qed.

(** X1 (pagination over any number of pages): when every page but the last
    reports a previous page, the paginator sends one request per page, leaves
    the rest of the script, and returns the edges of all pages in the order
    fetched. *)
Theorem every_page_is_fetched_once_in_order (earlier : list page)
  (last : page) (fuel : nat) (rest : list value) (done : list event) :
  Forall (fun p => truthy (previous p) = true) earlier ->
  truthy (previous last) = false ->
  exists events,
    graphql_paginate (2 + List.length earlier + fuel)
      (VDict [("files", VNone)]) None
      (mkWorld (map response_of earlier ++ response_of last :: rest) done)
    = Some (Return (VList (List.concat (map edges earlier) ++ edges last)),
            mkWorld rest (done ++ events))
    /\ posts events = S (List.length earlier).
Proof.
  intros Hearlier Hlast.
  destruct (page_loop_pages earlier last fuel rest Hearlier Hlast
              [("files", NoCursor)] [] done)
    as (bp' & events & Hrun & Hposts).
  exists events. split; [|assumption].
  change (2 + List.length earlier + fuel)%nat
    with (S (S (List.length earlier) + fuel)).
  cbn [graphql_paginate]. unfold bind at 1. cbn [all_items lift].
  unfold bind at 1. cbn [lift ret fold_left last_subject rev app fst assign].
  unfold bind at 1. rewrite Hrun. reflexivity.
Qed.

Lemma every_page_is_fetched_once_in_order_witness :
  let first := mkPage (VBool true) VNone VNone (VStr "c1") [VInt 1; VInt 2] in
  let last := mkPage (VBool false) VNone VNone (VStr "c2") [VInt 3] in
  exists events,
    graphql_paginate 3 (VDict [("files", VNone)]) None
      (mkWorld [response_of first; response_of last] [])
    = Some (Return (VList [VInt 1; VInt 2; VInt 3]), mkWorld [] events)
    /\ posts events = 2%nat.
Proof.
  apply (every_page_is_fetched_once_in_order
           [mkPage (VBool true) VNone VNone (VStr "c1") [VInt 1; VInt 2]]
           (mkPage (VBool false) VNone VNone (VStr "c2") [VInt 3])
           0 [] []).
  - repeat constructor.
  - reflexivity.
Defined.

(** X2 (rate-limit back-off within the budget): one or two rate-limited
    answers before a page are retried within the three attempts: the page is
    fetched, and the paginator returns what an unthrottled run returns. *)
Theorem one_or_two_rate_limits_are_retried (fuel : nat)
  (next end_cursor start_cursor : value) (edges rest : list value) :
  let answer :=
    files_response (page_info (VBool false) next end_cursor start_cursor)
                   edges in
  let unthrottled :=
    graphql_paginate (2 + fuel) (VDict [("files", VNone)]) None
      (mkWorld (answer :: rest) []) in
  let once :=
    graphql_paginate (2 + fuel) (VDict [("files", VNone)]) None
      (mkWorld (error_response "RATE_LIMITED" :: answer :: rest) []) in
  let twice :=
    graphql_paginate (2 + fuel) (VDict [("files", VNone)]) None
      (mkWorld (error_response "RATE_LIMITED" :: error_response "RATE_LIMITED"
                :: answer :: rest) []) in
  option_map fst unthrottled = Some (Return (VList edges))
  /\ option_map fst once = Some (Return (VList edges))
  /\ option_map fst twice = Some (Return (VList edges))
  /\ option_map (fun r => script (snd r)) once = Some rest
  /\ option_map (fun r => script (snd r)) twice = Some rest.
Proof. repeat split. Qed.

(** X3 (not found): a [NOT_FOUND] error ends the pagination at once: the
    paginator returns the edges gathered so far and sends no further
    request. *)
Theorem not_found_returns_what_was_gathered (fuel : nat)
  (next end_cursor start_cursor : value) (edges rest : list value) :
  graphql_paginate (3 + fuel) (VDict [("files", VNone)]) None
    (mkWorld
       (files_response (page_info (VBool true) next end_cursor start_cursor)
                       edges
        :: error_response "NOT_FOUND" :: rest) [])
  = Some (Return (VList edges),
          mkWorld rest
            [Post [("files", NoCursor)]; UpdateRateLimit plain;
             Post [("files", Before start_cursor)]; UpdateRateLimit plain]).
Proof.
  change (3 + fuel)%nat with (S (S (S fuel))).
  cbn [graphql_paginate]. unfold bind at 1. cbn [all_items lift].
  unfold bind at 1. cbn [lift ret fold_left last_subject rev app fst assign].
  unfold bind at 1.
  rewrite page_loop_more by reflexivity.
  reflexivity.
Qed.

(** *** Finding the subject in a response *)

Lemma lookup_has_key (d : list (string * value)) (key : string) (v : value) :
  lookup d key = Some v -> has_key d key = true.
Proof.
  unfold has_key. induction d as [|[k x] d IH]; simpl; [discriminate|].
  destruct (String.eqb k key); [reflexivity | exact IH].
Qed.

Lemma nest_along_is_dict (key : string) (path : list string) (leaf : value) :
  exists child, nest_along key path leaf = VDict [(key, child)].
Proof. destruct path; eexists; reflexivity. Qed.

(** One level down a path whose next key is not the subject. *)
Lemma find_root_of_subject_step (key key' : string) (path : list string)
  (leaf : value) (subject : string) :
  key' <> subject ->
  find_root_of_subject (nest_along key (key' :: path) leaf) subject
  = find_root_of_subject (nest_along key' path leaf) subject.
Proof.
  intro Hkey. cbn [nest_along].
  destruct (nest_along_is_dict key' path leaf) as [child ->].
  cbn [find_root_of_subject py_in has_key existsb fst].
  apply String.eqb_neq in Hkey. rewrite Hkey. reflexivity.
Qed.

(** X5 (the subject is found at the end of any path): in a response nested
    along keys [k1], ..., [kn] down to a dict that has the subject, where
    none of [k2], ..., [kn] is the subject itself, [find_root_of_subject]
    returns the value under the subject, however long the path. *)
Theorem find_root_of_subject_along_path (key : string) (path : list string)
  (subject : string) (fields : list (string * value)) (v : value) :
  Forall (fun k => k <> subject) path ->
  lookup fields subject = Some v ->
  find_root_of_subject (nest_along key path (VDict fields)) subject
  = Return v.
Proof.
  intros Hpath Hv. revert key.
  induction Hpath as [|key' path Hkey _ IH]; intro key.
  - cbn [nest_along find_root_of_subject py_in].
    rewrite (lookup_has_key fields subject v Hv). cbn [getitem].
    now rewrite Hv.
  - rewrite find_root_of_subject_step by assumption. apply IH.
Qed.

Lemma find_root_of_subject_along_path_witness :
  find_root_of_subject
    (nest_along "data" ["repository"; "pullRequest"]
       (VDict [("files", VDict [("edges", VList [])])]))
    "files"
  = Return (VDict [("edges", VList [])]).
Proof.
  apply (find_root_of_subject_along_path "data" ["repository"; "pullRequest"]
           "files" [("files", VDict [("edges", VList [])])]).
  - repeat constructor; discriminate.
  - reflexivity.
Defined.

(** X6 (a null on the way to the subject): when the response is nested along
    a path that ends in [null] before the subject is met (a pull request the
    API no longer returns), the search raises [TypeError], and so does the
    paginator, after the one request: nothing catches it. *)
Theorem null_before_the_subject_raises_type_error (path : list string)
  (fuel : nat) (rest : list value) (done : list event) :
  Forall (fun k => k <> "files") path ->
  find_root_of_subject (nest_along "data" path VNone) "files"
  = Raise TypeError
  /\ graphql_paginate (2 + fuel) (VDict [("files", VNone)]) None
       (mkWorld (nest_along "data" path VNone :: rest) done)
     = Some (Raise TypeError,
             mkWorld rest
               ((done ++ [Post [("files", NoCursor)]])
                ++ [UpdateRateLimit plain])).
Proof.
  intro Hpath.
  assert (Hfind : forall key,
             find_root_of_subject (nest_along key path VNone) "files"
             = Raise TypeError).
  { induction Hpath as [|key' path Hkey _ IH]; intro key; [reflexivity|].
    rewrite find_root_of_subject_step by assumption. apply IH. }
  split; [apply Hfind|].
  change (2 + fuel)%nat with (S (S fuel)).
  cbn [graphql_paginate]. unfold bind at 1. cbn [all_items lift].
  unfold bind at 1. cbn [lift ret fold_left last_subject rev app fst assign].
  unfold bind at 1. cbn [page_loop]. unfold bind at 1.
  cbn [attempt_loop]. unfold bind at 1. unfold post. cbn [script trace].
  destruct (nest_along_is_dict "data" path VNone) as [child Hdict].
  unfold bind at 1. unfold update_gh_rate_limit, log. cbn [script trace].
  unfold bind at 1. rewrite Hdict at 1. cbn [lift py_in has_key existsb fst].
  cbn [String.eqb Ascii.eqb Bool.eqb orb].
  unfold bind at 1. rewrite Hdict at 1. cbn [lift py_in has_key existsb fst].
  cbn [String.eqb Ascii.eqb Bool.eqb orb].
  unfold bind at 1. cbn [lift]. rewrite (Hfind "data"). reflexivity.
Qed.

Lemma null_before_the_subject_raises_type_error_witness :
  find_root_of_subject
    (nest_along "data" ["repository"; "pullRequest"] VNone) "files"
  = Raise TypeError
  /\ graphql_paginate 2 (VDict [("files", VNone)]) None
       (mkWorld [nest_along "data" ["repository"; "pullRequest"] VNone] [])
     = Some (Raise TypeError,
             mkWorld [] [Post [("files", NoCursor)]; UpdateRateLimit plain]).
Proof.
  apply (null_before_the_subject_raises_type_error
           ["repository"; "pullRequest"] 0 [] []).
  repeat constructor; discriminate.
Defined.

(** *** The budget of a page *)

Ltac attempt_ends data before_parameters :=
  let H := fresh in
  intro H; injection H as <- <-;
  exists [data], [Post before_parameters; UpdateRateLimit plain];
  cbn [script trace app List.length]; rewrite <- ?app_assoc;
  repeat split; (reflexivity || lia).

Ltac attempt_goes_on IH data :=
  let H := fresh in
  let answers := fresh "answers" in
  let events := fresh "events" in
  intro H; apply IH in H;
  destruct H as (answers & events & Hs & Ht & Hp & Hle & _);
  cbn [script trace] in Hs, Ht;
  exists (data :: answers); eexists;
  cbn [script trace app List.length];
  split; [now rewrite Hs|];
  split; [rewrite Ht, <- !app_assoc; cbn [app]; reflexivity|];
  split; [unfold posts in *; cbn [filter List.length]; now rewrite Hp|];
  split; lia.

(** What one run of the attempt loop uses up: it consumes some answers of
    the script, as many as it sends requests, and no more than the passes
    it has. *)
Lemma attempt_loop_consumes (remaining : nat) (num_attempts : Z)
  (data_subject : string) (before_parameters : parameters) (w w' : world)
  (r : result (option (value * value))) :
  attempt_loop remaining num_attempts data_subject before_parameters w
  = Some (r, w') ->
  exists answers events,
    script w = answers ++ script w'
    /\ trace w' = trace w ++ events
    /\ posts events = List.length answers
    /\ List.length answers <= remaining
    /\ (0 < remaining -> 1 <= List.length answers).
Proof.
  revert num_attempts w.
  induction remaining as [|remaining IH]; intros num_attempts w.
  - intro H. injection H as <- <-. exists [], []. cbn.
    rewrite app_nil_r. repeat split; lia.
  - cbn [attempt_loop]. unfold bind, post.
    destruct (script w) as [|data rest] eqn:Hscript; [discriminate|].
    unfold update_gh_rate_limit, log, lift, ret. cbn [script trace].
    destruct (py_in "errors" data) as [[|]|e];
      [| |attempt_ends data before_parameters].
    + destruct (getitem data "errors") as [errors|e];
        [|attempt_ends data before_parameters].
      destruct (getitem0 errors) as [first|e];
        [|attempt_ends data before_parameters].
      destruct (getitem first "type") as [type|e];
        [|attempt_ends data before_parameters].
      destruct (str_eq type "NOT_FOUND");
        [attempt_ends data before_parameters|].
      destruct (str_eq type "RATE_LIMITED"); attempt_goes_on IH data.
    + destruct (py_in "data" data) as [[|]|e];
        [| |attempt_ends data before_parameters].
      * destruct (find_root_of_subject data data_subject) as [root|e];
          [|attempt_ends data before_parameters].
        destruct (getitem root "pageInfo") as [info|e];
          [|attempt_ends data before_parameters].
        destruct (getitem root "edges") as [edges0|e];
          attempt_ends data before_parameters.
      * destruct (getitem data "message") as [message|e];
          [|attempt_ends data before_parameters].
        destruct (str_eq message "Not Found");
          [attempt_ends data before_parameters|].
        destruct (str_eq message abuse_message);
          [attempt_goes_on IH data|].
        destruct (str_eq message "Bad credentials"); attempt_goes_on IH data.
Qed.

(** X7 (the budget of a page): for one page, whatever the endpoint answers,
    the attempt loop of the source (three passes) sends at least one request
    and at most three, and every request uses up exactly one answer; all it
    adds to what the worker has done are these requests and looks at the rate
    limit. *)
Theorem a_page_costs_one_to_three_requests (data_subject : string)
  (before_parameters : parameters) (w w' : world)
  (r : result (option (value * value))) :
  attempt_loop 3 3 data_subject before_parameters w = Some (r, w') ->
  exists answers events,
    script w = answers ++ script w'
    /\ trace w' = trace w ++ events
    /\ posts events = List.length answers
    /\ 1 <= List.length answers <= 3.
Proof.
  intro H. apply attempt_loop_consumes in H.
  destruct H as (answers & events & Hs & Ht & Hp & Hle & Hge).
  exists answers, events. repeat split; try assumption. apply Hge. lia.
Qed.

Lemma a_page_costs_one_to_three_requests_witness :
  let w := mkWorld [message_response "Bad credentials";
                    error_response "RATE_LIMITED";
                    files_response
                      (page_info (VBool false) VNone VNone VNone) [VInt 1];
                    error_response "NOT_FOUND"] [] in
  exists answers events,
    script w
    = answers ++ [error_response "NOT_FOUND"]
    /\ [Post [("files", NoCursor)]; UpdateRateLimit plain;
        UpdateRateLimit bad_credentials;
        Post [("files", NoCursor)]; UpdateRateLimit plain;
        UpdateRateLimit plain;
        Post [("files", NoCursor)]; UpdateRateLimit plain]
       = trace w ++ events
    /\ posts events = List.length answers
    /\ 1 <= List.length answers <= 3.
Proof.
  exact (a_page_costs_one_to_three_requests "files" [("files", NoCursor)]
           (mkWorld [message_response "Bad credentials";
                     error_response "RATE_LIMITED";
                     files_response
                       (page_info (VBool false) VNone VNone VNone) [VInt 1];
                     error_response "NOT_FOUND"] [])
           _ _ eq_refl).
Defined.

(** *** Cursors and partial results *)

(** The page loop over pages that all report a previous page: it takes their
    edges, moves the cursor page after page, and goes on with what
    follows. *)
Lemma page_loop_earlier (earlier : list page) (fuel : nat)
  (rest : list value) :
  Forall (fun p => truthy (previous p) = true) earlier ->
  forall before_parameters tuples done,
    page_loop (List.length earlier + fuel) "files" before_parameters tuples
      (mkWorld (map response_of earlier ++ rest) done)
    = page_loop fuel "files" (cursors_after before_parameters earlier)
        (tuples ++ List.concat (map edges earlier))
        (mkWorld rest (done ++ requests_for before_parameters earlier)).
Proof.
  induction 1 as [|p earlier Hp _ IH]; intros bp tuples done.
  - cbn. now rewrite !app_nil_r.
  - cbn [List.length map app List.concat plus cursors_after fold_left
         requests_for].
    unfold response_of at 1. rewrite page_loop_more by assumption.
    rewrite IH. unfold cursors_after. rewrite <- !app_assoc. reflexivity.
Qed.

Lemma requests_for_app (before_parameters : parameters)
  (pages pages' : list page) :
  requests_for before_parameters (pages ++ pages')
  = requests_for before_parameters pages
    ++ requests_for (cursors_after before_parameters pages) pages'.
Proof.
  revert before_parameters.
  induction pages as [|p pages IH]; intro bp; [reflexivity|].
  cbn [app requests_for cursors_after fold_left]. now rewrite IH.
Qed.

(** The queries sent for the files: no cursor at first, then the start
    cursor of each page but the last. *)
Lemma queries_for_files (b : before) (pages : list page) (last : page) :
  queries (requests_for [("files", b)] (pages ++ [last]))
  = [("files", b)]
    :: map (fun p => [("files", Before (start_cursor p))]) pages.
Proof.
  revert b. induction pages as [|p pages IH]; intro b; [reflexivity|].
  cbn [app requests_for queries flat_map map].
  change (flat_map _ (requests_for ?q ?l)) with (queries (requests_for q l)).
  cbn [assign String.eqb Ascii.eqb Bool.eqb]. now rewrite IH.
Qed.

(** X8 (the cursor follows the pages): over any number of pages of files,
    the first request carries no cursor and every later one asks for what
    comes before the start cursor of the page just read; the result is the
    edges of the pages in the order fetched. *)
Theorem each_request_asks_before_the_last_start_cursor
  (earlier : list page) (last : page) (fuel : nat) (rest : list value)
  (done : list event) :
  Forall (fun p => truthy (previous p) = true) earlier ->
  truthy (previous last) = false ->
  exists events,
    graphql_paginate (2 + List.length earlier + fuel)
      (VDict [("files", VNone)]) None
      (mkWorld (map response_of (earlier ++ [last]) ++ rest) done)
    = Some (Return (VList (List.concat (map edges (earlier ++ [last])))),
            mkWorld rest (done ++ events))
    /\ queries events
       = [("files", NoCursor)]
         :: map (fun p => [("files", Before (start_cursor p))]) earlier.
Proof.
  intros Hearlier Hlast.
  exists (requests_for [("files", NoCursor)] (earlier ++ [last])).
  split; [|apply queries_for_files].
  change (2 + List.length earlier + fuel)%nat
    with (S (S (List.length earlier) + fuel)).
  cbn [graphql_paginate]. unfold bind at 1. cbn [all_items lift].
  unfold bind at 1. cbn [lift ret fold_left last_subject rev app fst assign].
  unfold bind at 1.
  rewrite map_app, <- app_assoc.
  replace (S (List.length earlier) + fuel)%nat
    with (List.length earlier + S fuel)%nat by lia.
  rewrite (page_loop_earlier earlier (S fuel) _ Hearlier).
  cbn [map app]. unfold response_of.
  rewrite page_loop_last by assumption.
  cbn [truthy negb ret]. rewrite map_app, concat_app, requests_for_app.
  cbn [map List.concat requests_for app]. rewrite app_nil_r, <- !app_assoc.
  reflexivity.
Qed.

Lemma each_request_asks_before_the_last_start_cursor_witness :
  let first := mkPage (VBool true) VNone VNone (VStr "c1") [VInt 1; VInt 2] in
  let second := mkPage (VInt 1) VNone VNone (VStr "c2") [] in
  let last := mkPage VNone VNone VNone (VStr "c3") [VInt 3] in
  exists events,
    graphql_paginate 4 (VDict [("files", VNone)]) None
      (mkWorld (map response_of ([first; second] ++ [last]) ++ []) [])
    = Some (Return (VList (List.concat
                             (map edges ([first; second] ++ [last])))),
            mkWorld [] ([] ++ events))
    /\ queries events
       = [("files", NoCursor)]
         :: map (fun p => [("files", Before (start_cursor p))])
                [first; second].
Proof.
  apply (each_request_asks_before_the_last_start_cursor
           [mkPage (VBool true) VNone VNone (VStr "c1") [VInt 1; VInt 2];
            mkPage (VInt 1) VNone VNone (VStr "c2") []]
           (mkPage VNone VNone VNone (VStr "c3") [VInt 3]) 0 [] []).
  - repeat constructor.
  - reflexivity.
Defined.

Ltac retried_pass :=
  cbn [attempt_loop]; unfold bind, post, update_gh_rate_limit, log, lift;
  cbn [script trace error_response message_response py_in has_key existsb
       fst getitem lookup getitem0 str_eq String.eqb Ascii.eqb Bool.eqb orb].

Ltac same_world :=
  cbn [script trace]; rewrite <- ?app_assoc; cbn [app];
  first [ reflexivity | apply num_attempts_is_never_read ].

(** An answer that is retried uses up one pass, with one request. *)
Lemma attempt_loop_retried (answer : value) :
  retried answer ->
  forall before_parameters, exists events,
    posts events = 1
    /\ forall remaining num_attempts data_subject rest done,
         attempt_loop (S remaining) num_attempts data_subject
           before_parameters (mkWorld (answer :: rest) done)
         = attempt_loop remaining num_attempts data_subject before_parameters
             (mkWorld rest (done ++ events)).
Proof.
  intros [type Htype | message Hmessage] bp.
  - apply String.eqb_neq in Htype.
    destruct (String.eqb type "RATE_LIMITED") eqn:Hrate.
    + exists [Post bp; UpdateRateLimit plain; UpdateRateLimit plain].
      split; [reflexivity|]. intros remaining na s rest done.
      retried_pass. rewrite Htype, Hrate. same_world.
    + exists [Post bp; UpdateRateLimit plain].
      split; [reflexivity|]. intros remaining na s rest done.
      retried_pass. rewrite Htype, Hrate. same_world.
  - apply String.eqb_neq in Hmessage.
    destruct (String.eqb message abuse_message) eqn:Habuse;
      [|destruct (String.eqb message "Bad credentials") eqn:Hbad].
    + exists [Post bp; UpdateRateLimit plain;
              UpdateRateLimit temporarily_disable].
      split; [reflexivity|]. intros remaining na s rest done.
      retried_pass. rewrite Hmessage, Habuse. same_world.
    + exists [Post bp; UpdateRateLimit plain; UpdateRateLimit bad_credentials].
      split; [reflexivity|]. intros remaining na s rest done.
      retried_pass. rewrite Hmessage, Habuse, Hbad. same_world.
    + exists [Post bp; UpdateRateLimit plain].
      split; [reflexivity|]. intros remaining na s rest done.
      retried_pass. rewrite Hmessage, Habuse, Hbad. same_world.
Qed.

(** X9 (partial results): when, after any number of pages that report a
    previous page, three answers in a row are failures that are retried
    (errors other than [NOT_FOUND], messages other than [Not Found]), the
    page is given up: the paginator returns the edges of the pages read so
    far, having sent three requests for the page it gave up, and asks
    nothing more. *)
Theorem three_failures_return_what_was_read (earlier : list page)
  (first second third : value) (fuel : nat) (rest : list value)
  (done : list event) :
  Forall (fun p => truthy (previous p) = true) earlier ->
  retried first -> retried second -> retried third ->
  exists events,
    graphql_paginate (2 + List.length earlier + fuel)
      (VDict [("files", VNone)]) None
      (mkWorld (map response_of earlier ++ first :: second :: third :: rest)
               done)
    = Some (Return (VList (List.concat (map edges earlier))),
            mkWorld rest (done ++ events))
    /\ posts events = (List.length earlier + 3)%nat.
Proof.
  intros Hearlier H1 H2 H3.
  set (bp := cursors_after [("files", NoCursor)] earlier).
  destruct (attempt_loop_retried first H1 bp) as (e1 & Hp1 & Hrun1).
  destruct (attempt_loop_retried second H2 bp) as (e2 & Hp2 & Hrun2).
  destruct (attempt_loop_retried third H3 bp) as (e3 & Hp3 & Hrun3).
  exists (requests_for [("files", NoCursor)] earlier ++ e1 ++ e2 ++ e3).
  split.
  - change (2 + List.length earlier + fuel)%nat
      with (S (S (List.length earlier) + fuel)).
    cbn [graphql_paginate]. unfold bind at 1. cbn [all_items lift].
    unfold bind at 1.
    cbn [lift ret fold_left last_subject rev app fst assign].
    unfold bind at 1.
    replace (S (List.length earlier) + fuel)%nat
      with (List.length earlier + S fuel)%nat by lia.
    rewrite (page_loop_earlier earlier (S fuel) _ Hearlier).
    fold bp. cbn [page_loop]. unfold bind at 1.
    rewrite Hrun1, Hrun2, Hrun3. cbn [attempt_loop ret app].
    cbn [truthy negb ret]. rewrite <- !app_assoc. reflexivity.
  - rewrite !posts_app, Hp1, Hp2, Hp3.
    assert (Hposts : forall q pages,
               posts (requests_for q pages) = List.length pages).
    { intros q pages. revert q.
      induction pages as [|p pages IH]; intro q; [reflexivity|].
      cbn [requests_for List.length]. unfold posts in *.
      cbn [filter List.length]. now rewrite IH. }
    rewrite Hposts. lia.
Qed.

Lemma three_failures_return_what_was_read_witness :
  let first := mkPage (VBool true) VNone VNone (VStr "c1") [VInt 1; VInt 2] in
  exists events,
    graphql_paginate 3 (VDict [("files", VNone)]) None
      (mkWorld (map response_of [first]
                ++ error_response "RATE_LIMITED"
                   :: message_response "Bad credentials"
                   :: error_response "INTERNAL"
                   :: [response_of first]) [])
    = Some (Return (VList (List.concat (map edges [first]))),
            mkWorld [response_of first] ([] ++ events))
    /\ posts events = (List.length [first] + 3)%nat.
Proof.
  apply (three_failures_return_what_was_read
           [mkPage (VBool true) VNone VNone (VStr "c1") [VInt 1; VInt 2]]
           (error_response "RATE_LIMITED")
           (message_response "Bad credentials")
           (error_response "INTERNAL") 0
           [response_of
              (mkPage (VBool true) VNone VNone (VStr "c1")
                      [VInt 1; VInt 2])] []).
  - repeat constructor.
  - constructor. discriminate.
  - constructor. discriminate.
  - constructor. discriminate.
Defined.

End GraphQL.

(** ** The insert rows of the pull-request, comment and event models *)

Module InsertRows.
Import Py.
#[local] Open Scope string_scope.
#[local] Open Scope list_scope.

Definition bind {A B} (r : result A) (k : A -> result B) : result B :=
  match r with
  | Return a => k a
  | Raise e => Raise e
  end.

Notation "x <- r ;; k" := (bind r (fun x => k))
  (at level 61, r at next level, right associativity).

(** *** Names a method body can see *)

(** What the module binds at its top level: its imports and the class. *)
Definition module_globals : list string :=
  ["ast"; "json"; "logging"; "os"; "sys"; "time"; "traceback";
   "WorkerGitInterfaceable"; "source"; "requests"; "copy"; "datetime";
   "Process"; "Queue"; "pd"; "s"; "bindparam"; "Worker";
   "GitHubPullRequestWorker"].

(** What the body of the class binds: attributes of the class, reached
    through [self] and not by their bare names. *)
Definition class_namespace : list string :=
  ["__init__"; "is_nan"; "graphql_paginate"; "pull_request_files_model";
   "pull_request_commits_model"; "_get_pk_source_prs"; "pull_requests_model";
   "pull_request_comments_model"; "pull_request_events_model";
   "pull_request_reviews_model"; "pull_request_nested_data_model";
   "query_pr_repo"].

(** The builtins the module uses. *)
Definition builtins : list string :=
  ["str"; "int"; "float"; "len"; "set"; "type"; "isinstance"; "enumerate";
   "range"; "list"; "dict"; "Exception"; "KeyError"].

(** Look-up of a bare name inside a function: the locals of the function and
    of the functions around it, then the module, then the builtins.  The
    class body is no scope of its methods. *)
Definition visible (locals : list string) (name : string) : bool :=
  existsb (String.eqb name) locals
  || existsb (String.eqb name) module_globals
  || existsb (String.eqb name) builtins.

(** [def is_nan(value): return type(value) == float and math.isnan(value)],
    a function of the class body. *)
Definition is_nan (value : value) : result Py.value :=
  match value with
  | VNaN => if visible ["value"] "math" then Return (VBool true)
            else Raise NameError
  | _ => Return (VBool false)
  end.

(** The call [is_nan(argument)] written with the bare name. *)
Definition call_is_nan (locals : list string) (argument : result value)
  : result value :=
  if visible locals "is_nan" then (v <- argument ;; is_nan v)
  else Raise NameError.

(** [record['cntrb_id'] if record['cntrb_id'] else is_nan(record['cntrb_id'])] *)
Definition cntrb_id_or_is_nan (locals : list string) (record : value)
  : result value :=
  c <- getitem record "cntrb_id" ;;
  if truthy c then getitem record "cntrb_id"
  else call_is_nan locals (getitem record "cntrb_id").

(** [record[key] if record[key] else default] *)
Definition or_default (record : value) (key : string) (default : value)
  : result value :=
  c <- getitem record key ;;
  if truthy c then getitem record key else Return default.

(** [None if not record[key] else record[key]['label']] *)
Definition label_of (record : value) (key : string) : result value :=
  c <- getitem record key ;;
  if negb (truthy c) then Return VNone
  else (side <- getitem record key ;; getitem side "label").

(** The locals of the three functions that build rows with [is_nan], with
    those of the functions around them. *)
Definition pk_source_increment_insert_locals : list string :=
  ["inc_source_prs"; "action_map"; "is_valid_pr_block"; "prs_insert"; "pr";
   "source_data"; "gh_merge_fields"; "augur_merge_fields";
   "self"; "pr_url"; "pr_action_map"; "pk_source_increment_insert";
   "source_prs"; "pk_source_prs"].

Definition pr_comments_insert_locals : list string :=
  ["inc_pr_comments"; "comment_action_map"; "comment_ref_action_map";
   "pr_comments_insert"; "comment"; "e"; "stacker"; "c_pk_source_comments";
   "both_pk_source_comments"; "pr_message_ref_insert";
   "self"; "pk_source_prs"; "comments_url"; "pr_comments"].

Definition pull_request_events_model_locals : list string :=
  ["self"; "pk_source_prs"; "events_url"; "event_action_map"; "pr_events";
   "pk_pr_events"; "index"; "issue"; "pr_events_insert"; "event"].

(** *** Records to run the rows on *)

Definition text_of (v : value) : string :=
  match v with VStr s => s | _ => "" end.

Definition no_number (s : string) : option Z := None.

(** A pull request as the API gives it, with the contributor id the
    enrichment left. *)
Definition example_pr_fields (cntrb_id : value) : list (string * value) :=
  [("url", VStr "https://api.github.com/repos/o/r/pulls/1");
   ("id", VInt 1001); ("node_id", VStr "PR_1");
   ("html_url", VStr "h"); ("diff_url", VStr "d"); ("patch_url", VStr "p");
   ("issue_url", VStr "i"); ("number", VInt 1); ("state", VStr "open");
   ("locked", VBool false); ("title", VStr "Fix"); ("body", VNone);
   ("created_at", VStr "2021-12-06T00:00:00Z");
   ("updated_at", VStr "2021-12-06T00:00:00Z");
   ("closed_at", VNone); ("merged_at", VNone); ("merge_commit_sha", VNone);
   ("commits_url", VStr "c"); ("review_comments_url", VStr "rc");
   ("review_comment_url", VStr "r"); ("comments_url", VStr "cm");
   ("statuses_url", VStr "s");
   ("head", VDict [("label", VStr "o:fix")]);
   ("base", VDict [("label", VStr "o:main")]);
   ("author_association", VStr "MEMBER");
   ("cntrb_id", cntrb_id)].

Definition example_comment_fields (cntrb_id : value)
  : list (string * value) :=
  [("id", VInt 2002); ("node_id", VStr "C_2"); ("body", VStr "Thanks");
   ("created_at", VStr "2021-12-06T00:00:00Z"); ("cntrb_id", cntrb_id)].

(** An event of [pk_pr_events] after the enrichment. *)
Definition example_event (id : Z) (actor cntrb_id : value) : value :=
  VDict [("id", VInt id); ("pull_request_id", VInt 11);
         ("node_id", VStr "E"); ("url", VStr "u"); ("actor", actor);
         ("created_at", VStr "2021-12-06T00:00:00Z");
         ("event", VStr "closed"); ("commit_id", VNone);
         ("cntrb_id", cntrb_id)].

(** A review and a head or base of a pull request after the enrichment,
    with the user the API gave. *)
Definition example_review_fields (user : value) : list (string * value) :=
  [("pull_request_id", VInt 11); ("cntrb_id", VInt 5);
   ("author_association", VStr "MEMBER"); ("state", VStr "APPROVED");
   ("body", VStr "Fine"); ("submitted_at", VStr "2021-12-06T00:00:00Z");
   ("id", VInt 3003); ("node_id", VStr "R_3"); ("html_url", VStr "h");
   ("pull_request_url", VStr "p"); ("commit_id", VStr "abc");
   ("user", user)].

Definition example_meta_fields (user : value) : list (string * value) :=
  [("pull_request_id", VInt 11); ("pr_head_or_base", VStr "head");
   ("label", VStr "o:fix"); ("ref", VStr "fix"); ("sha", VStr "abc");
   ("cntrb_id", VInt 5); ("user", user)].

Definition octocat : value := VDict [("login", VStr "octocat")].

Definition no_float (s : string) : option Z := None.
Definition exact_int (z : Z) : result value := Return (VInt z).

Definition fields_of (v : value) : list (string * value) :=
  match v with VDict d => d | _ => [] end.

(** *** The enrichment with contributor ids

    [enrich_cntrb_id] and the identity resolver are methods of the worker
    base, which is not under [src/]. *)

(** Modelled from the spec: a contributor the identity resolver knows, made
    from the profile fields of an actor (login, node id). *)
Record contributor : Type := mkContributor {
  cntrb_login : string;
  gh_node_id : value;
  cntrb_id : Z
}.

(** Modelled from the spec: the look-up of a contributor by login. *)
Fixpoint find_login (known : list contributor) (login : string) : option Z :=
  match known with
  | [] => None
  | c :: known' =>
      if String.eqb (cntrb_login c) login then Some (cntrb_id c)
      else find_login known' login
  end.

(** Modelled from the spec: an id no known contributor has. *)
Definition new_cntrb_id (known : list contributor) : Z :=
  (1 + fold_right Z.max 0 (map cntrb_id known))%Z.

(** Modelled from the spec: [resolve_or_create(login, node_id)], which (a)
    looks the login up and (b) if absent, creates a new contributor from the
    login and the node id and returns the new id. *)
Definition resolve_or_create (known : list contributor) (login : string)
  (node_id : value) : Z * list contributor :=
  match find_login known login with
  | Some id => (id, known)
  | None =>
      let id := new_cntrb_id known in
      (id, known ++ [mkContributor login node_id id])
  end.

(** Modelled from the spec: the actor reference (login name, node id) of a
    record at the field [key]; none when the actor is null or malformed. *)
Definition actor_reference (key : string) (record : list (string * value))
  : option (string * value) :=
  match lookup record key with
  | Some (VDict actor) =>
      match lookup actor "login" with
      | Some (VStr login) =>
          Some (login, match lookup actor "node_id" with
                       | Some node_id => node_id
                       | None => VNone
                       end)
      | _ => None
      end
  | _ => None
  end.

(** Modelled from the spec: [enrich_cntrb_id], the identity enrichment of a
    sequence of records: each actor is resolved to a contributor id; a record
    whose actor is null or malformed is annotated with a null contributor id
    and passed through. *)
Fixpoint enrich_cntrb_id (key : string)
  (records : list (list (string * value))) (known : list contributor)
  : list (list (string * value)) * list contributor :=
  match records with
  | [] => ([], known)
  | record :: records' =>
      match actor_reference key record with
      | Some (login, node_id) =>
          let (id, known') := resolve_or_create known login node_id in
          let (enriched, known'') := enrich_cntrb_id key records' known' in
          (set_key record "cntrb_id" (VInt id) :: enriched, known'')
      | None =>
          let (enriched, known') := enrich_cntrb_id key records' known in
          (set_key record "cntrb_id" VNone :: enriched, known')
      end
  end.

Section Rows.

(** [str(v).encode(encoding='UTF-8', errors='backslashreplace')
          .decode(encoding='UTF-8', errors='ignore')] *)
Variable clean_text : value -> string.
(** [int(text)] for a text, [None] when Python raises [ValueError]. *)
Variable int_of_text : string -> option Z.
(** [self.repo_id] *)
Variable repo_id : Z.

Definition tool_source : string := "GitHub Pull Request Worker".
Definition tool_version : string := "1.0.0".
Definition data_source : string := "GitHub API".
Definition platform_id : Z := 25150.

(** [int(v)] *)
Definition py_int (v : value) : result value :=
  match v with
  | VInt z => Return (VInt z)
  | VBool b => Return (VInt (if b then 1 else 0))
  | VNaN => Raise ValueError
  | VStr s => match int_of_text s with
              | Some z => Return (VInt z)
              | None => Raise ValueError
              end
  | _ => Raise TypeError
  end.

(** [clean(record[key]) if record[key] else default] *)
Definition clean_or (record : value) (key : string) (default : value)
  : result value :=
  c <- getitem record key ;;
  if truthy c then (t <- getitem record key ;; Return (VStr (clean_text t)))
  else Return default.

(** A dict display: the values are computed in the order written, and the
    first that raises ends the display. *)
Fixpoint build (fields : list (string * result value))
  : result (list (string * value)) :=
  match fields with
  | [] => Return []
  | (key, r) :: fields' =>
      v <- r ;;
      row <- build fields' ;;
      Return ((key, v) :: row)
  end.

(** A list comprehension [[row(x) for x in records]]. *)
Fixpoint comprehension {A} (row : value -> result A) (records : list value)
  : result (list A) :=
  match records with
  | [] => Return []
  | x :: records' =>
      r <- row x ;;
      rows <- comprehension row records' ;;
      Return (r :: rows)
  end.

(** One row of [prs_insert] in [pk_source_increment_insert]. *)
Definition pr_insert_row (pr : value) : result (list (string * value)) :=
  build
    [("repo_id", Return (VInt repo_id));
     ("pr_url", getitem pr "url");
     ("pr_src_id", getitem pr "id");
     ("pr_src_node_id", getitem pr "node_id");
     ("pr_html_url", getitem pr "html_url");
     ("pr_diff_url", getitem pr "diff_url");
     ("pr_patch_url", getitem pr "patch_url");
     ("pr_issue_url", getitem pr "issue_url");
     ("pr_augur_issue_id", Return VNone);
     ("pr_src_number", getitem pr "number");
     ("pr_src_state", getitem pr "state");
     ("pr_src_locked", getitem pr "locked");
     ("pr_src_title", clean_or pr "title" (VStr " "));
     ("pr_augur_contributor_id",
      cntrb_id_or_is_nan pk_source_increment_insert_locals pr);
     ("pr_body", clean_or pr "body" VNone);
     ("pr_created_at", getitem pr "created_at");
     ("pr_updated_at", getitem pr "updated_at");
     ("pr_closed_at", or_default pr "closed_at" VNone);
     ("pr_merged_at", or_default pr "merged_at" VNone);
     ("pr_merge_commit_sha", getitem pr "merge_commit_sha");
     ("pr_teams", Return VNone);
     ("pr_milestone", Return VNone);
     ("pr_commits_url", getitem pr "commits_url");
     ("pr_review_comments_url", getitem pr "review_comments_url");
     ("pr_review_comment_url", getitem pr "review_comment_url");
     ("pr_comments_url", getitem pr "comments_url");
     ("pr_statuses_url", getitem pr "statuses_url");
     ("pr_meta_head_id", label_of pr "head");
     ("pr_meta_base_id", label_of pr "base");
     ("pr_src_issue_url", getitem pr "issue_url");
     ("pr_src_comments_url", getitem pr "comments_url");
     ("pr_src_review_comments_url", getitem pr "review_comments_url");
     ("pr_src_commits_url", getitem pr "commits_url");
     ("pr_src_statuses_url", getitem pr "statuses_url");
     ("pr_src_author_association", getitem pr "author_association");
     ("tool_source", Return (VStr (tool_source ++ "_reviews")%string));
     ("tool_version", Return (VStr tool_version));
     ("data_source", Return (VStr "Pull Request Reviews Github API"))].

(** [prs_insert]: a row per record of [inc_source_prs['insert']]. *)
Definition prs_insert (insert : list value)
  : result (list (list (string * value))) :=
  comprehension pr_insert_row insert.

(** One row of [pr_comments_insert] (the list) in [pr_comments_insert]
    (the function). *)
Definition comment_insert_row (comment : value)
  : result (list (string * value)) :=
  build
    [("pltfrm_id", Return (VInt platform_id));
     ("msg_text", clean_or comment "body" (VStr " "));
     ("msg_timestamp", getitem comment "created_at");
     ("cntrb_id", cntrb_id_or_is_nan pr_comments_insert_locals comment);
     ("tool_source", Return (VStr tool_source));
     ("tool_version", Return (VStr tool_version));
     ("data_source", Return (VStr data_source));
     ("repo_id", Return (VInt repo_id));
     ("platform_msg_id", id <- getitem comment "id" ;; py_int id);
     ("platform_node_id", getitem comment "node_id")].

Definition pr_comments_insert (insert : list value)
  : result (list (list (string * value))) :=
  comprehension comment_insert_row insert.

(** One row of [pr_events_insert]. *)
Definition event_insert_row (event : value) : result (list (string * value)) :=
  build
    [("pull_request_id", id <- getitem event "pull_request_id" ;; py_int id);
     ("cntrb_id", cntrb_id_or_is_nan pull_request_events_model_locals event);
     ("action", getitem event "event");
     ("action_commit_hash", getitem event "commit_id");
     ("created_at", or_default event "created_at" VNone);
     ("issue_event_src_id", id <- getitem event "id" ;; py_int id);
     ("node_id", getitem event "node_id");
     ("node_url", getitem event "url");
     ("tool_source", Return (VStr tool_source));
     ("tool_version", Return (VStr tool_version));
     ("data_source", Return (VStr data_source));
     ("pr_platform_event_id", id <- getitem event "id" ;; py_int id);
     ("platform_id", Return (VInt platform_id));
     ("repo_id", Return (VInt repo_id))].

Definition is_none (v : value) : bool :=
  match v with VNone => true | _ => false end.

(** [pr_events_insert]: a row per record of the enriched [pk_pr_events],
    [if event['actor'] is not None]; this list is what the model hands to
    [bulk_insert]. *)
Fixpoint pr_events_insert (pk_pr_events : list value)
  : result (list (list (string * value))) :=
  match pk_pr_events with
  | [] => Return []
  | event :: events' =>
      actor <- getitem event "actor" ;;
      if is_none actor then pr_events_insert events'
      else
        row <- event_insert_row event ;;
        rows <- pr_events_insert events' ;;
        Return (row :: rows)
  end.

(** One row of [pr_message_ref_insert]. *)
Definition pr_message_ref_insert_row (comment : value)
  : result (list (string * value)) :=
  build
    [("pull_request_id", getitem comment "pull_request_id");
     ("msg_id", getitem comment "msg_id");
     ("pr_message_ref_src_comment_id",
      id <- getitem comment "id" ;; py_int id);
     ("pr_message_ref_src_node_id", getitem comment "node_id");
     ("tool_source", Return (VStr tool_source));
     ("tool_version", Return (VStr tool_version));
     ("data_source", Return (VStr data_source));
     ("repo_id", Return (VInt repo_id))].

Definition pr_message_ref_insert (both_pk_source_comments : list value)
  : result (list (list (string * value))) :=
  comprehension pr_message_ref_insert_row both_pk_source_comments.

(** [int(float(text))] for a text, [None] when Python raises
    [ValueError]; and [int(float(z))] for an integer too large for a double
    to hold exactly. *)
Variable int_of_float_text : string -> option Z.
Variable int_of_rounded : Z -> result value.

(** [int(float(v))] *)
Definition py_int_float (v : value) : result value :=
  match v with
  | VInt z => if (Z.abs z <=? 2 ^ 53)%Z then Return (VInt z)
              else int_of_rounded z
  | VBool b => Return (VInt (if b then 1 else 0))
  | VNaN => Raise ValueError
  | VStr s => match int_of_float_text s with
              | Some z => Return (VInt z)
              | None => Raise ValueError
              end
  | _ => Raise TypeError
  end.

(** A list comprehension [[row(x) for x in records if keep(x)]]: the
    condition is evaluated first, the row for the records it keeps. *)
Fixpoint comprehension_if {A} (keep : value -> result bool)
  (row : value -> result A) (records : list value) : result (list A) :=
  match records with
  | [] => Return []
  | x :: records' =>
      kept <- keep x ;;
      if kept then
        r <- row x ;;
        rows <- comprehension_if keep row records' ;;
        Return (r :: rows)
      else comprehension_if keep row records'
  end.

(** One row of [reviews_insert]. *)
Definition review_insert_row (review : value)
  : result (list (string * value)) :=
  build
    [("pull_request_id", getitem review "pull_request_id");
     ("cntrb_id", getitem review "cntrb_id");
     ("pr_review_author_association", getitem review "author_association");
     ("pr_review_state", getitem review "state");
     ("pr_review_body", clean_or review "body" VNone);
     ("pr_review_submitted_at",
      submitted <- py_in "submitted_at" review ;;
      if submitted : bool then getitem review "submitted_at"
      else Return VNone);
     ("pr_review_src_id", id <- getitem review "id" ;; py_int_float id);
     ("pr_review_node_id", getitem review "node_id");
     ("pr_review_html_url", getitem review "html_url");
     ("pr_review_pull_request_url", getitem review "pull_request_url");
     ("pr_review_commit_id", getitem review "commit_id");
     ("tool_source", Return (VStr "pull_request_reviews model"));
     ("tool_version", Return (VStr (tool_version ++ "_reviews")%string));
     ("data_source", Return (VStr data_source));
     ("repo_id", Return (VInt repo_id));
     ("platform_id", Return (VInt platform_id))].

(** [record['user'] and 'login' in record['user']], as a condition. *)
Definition user_and_login (record : value) : result bool :=
  user <- getitem record "user" ;;
  if truthy user then (user' <- getitem record "user" ;; py_in "login" user')
  else Return false.

(** [reviews_insert] of [pull_request_reviews_model]. *)
Definition reviews_insert (source_reviews_insert : list value)
  : result (list (list (string * value))) :=
  comprehension_if user_and_login review_insert_row source_reviews_insert.

(** One row of [meta_insert] in the fourth step of the nested-data model. *)
Definition meta_insert_row (meta : value) : result (list (string * value)) :=
  build
    [("pull_request_id", getitem meta "pull_request_id");
     ("pr_head_or_base", getitem meta "pr_head_or_base");
     ("pr_src_meta_label", getitem meta "label");
     ("pr_src_meta_ref", getitem meta "ref");
     ("pr_sha", getitem meta "sha");
     ("cntrb_id", getitem meta "cntrb_id");
     ("tool_source", Return (VStr tool_source));
     ("tool_version", Return (VStr tool_version));
     ("data_source", Return (VStr data_source));
     ("repo_id", Return (VInt repo_id))].

(** ['login' in meta['user']] *)
Definition login_in_user (meta : value) : result bool :=
  user <- getitem meta "user" ;; py_in "login" user.

(** [meta_insert] *)
Definition meta_insert (source_meta_insert : list value)
  : result (list (list (string * value))) :=
  comprehension_if login_in_user meta_insert_row source_meta_insert.

(** The values [in] can search. *)
Definition iterable (v : value) : bool :=
  match v with
  | VStr _ | VList _ | VDict _ => true
  | _ => false
  end.

(** The record has every key of the list. *)
Definition present (d : list (string * value)) (keys : list string) : bool :=
  forallb (has_key d) keys.

(** Whether the comprehension of [pr_events_insert] keeps a record. *)
Definition has_actor (event : value) : bool :=
  match getitem event "actor" with
  | Return actor => negb (is_none actor)
  | Raise _ => false
  end.

(** *** Facts about displays *)

Lemma has_key_lookup (d : list (string * value)) (key : string) :
  has_key d key = true -> exists v, lookup d key = Some v.
Proof.
  unfold has_key. induction d as [|[k v] d IH]; simpl; [discriminate|].
  destruct (String.eqb k key); [now exists v | exact IH].
Qed.

Lemma getitem_present (d : list (string * value)) (key : string) :
  has_key d key = true -> exists v, getitem (VDict d) key = Return v.
Proof.
  intro H. destruct (has_key_lookup d key H) as [v Hv]. exists v.
  simpl. now rewrite Hv.
Qed.

Lemma clean_or_present (d : list (string * value)) (key : string)
  (default : value) :
  has_key d key = true -> exists v, clean_or (VDict d) key default = Return v.
Proof.
  intro H. destruct (getitem_present d key H) as [v Hv].
  unfold clean_or. rewrite Hv. cbn [bind].
  destruct (truthy v); eexists; reflexivity.
Qed.

(** [is_nan] is a name of the class body, and of no scope the three
    functions look names up in. *)
Lemma is_nan_is_out_of_scope :
  In "is_nan" class_namespace
  /\ visible pk_source_increment_insert_locals "is_nan" = false
  /\ visible pr_comments_insert_locals "is_nan" = false
  /\ visible pull_request_events_model_locals "is_nan" = false.
Proof. repeat split. simpl. tauto. Qed.

(** With a falsy contributor id the conditional goes for the bare name
    [is_nan], which no scope of the three functions binds. *)
Lemma falsy_cntrb_id_is_a_name_error (locals : list string)
  (d : list (string * value)) (c : value) :
  visible locals "is_nan" = false ->
  lookup d "cntrb_id" = Some c -> truthy c = false ->
  cntrb_id_or_is_nan locals (VDict d) = Raise NameError.
Proof.
  intros Hname Hc Hfalsy. unfold cntrb_id_or_is_nan, call_is_nan. simpl.
  rewrite Hc. simpl. now rewrite Hfalsy, Hname.
Qed.

(** A truthy contributor id is copied. *)
Lemma truthy_cntrb_id_is_copied (locals : list string)
  (d : list (string * value)) (c : value) :
  lookup d "cntrb_id" = Some c -> truthy c = true ->
  cntrb_id_or_is_nan locals (VDict d) = Return c.
Proof.
  intros Hc Htruthy. unfold cntrb_id_or_is_nan. simpl.
  rewrite Hc. simpl. now rewrite Htruthy.
Qed.

Lemma build_skip (key : string) (r : result value)
  (later : list (string * result value)) (e : exn) :
  (exists v, r = Return v) -> build later = Raise e ->
  build ((key, r) :: later) = Raise e.
Proof. intros [v ->] H. simpl. now rewrite H. Qed.

Lemma build_here (key : string) (e : exn)
  (later : list (string * result value)) :
  build ((key, Raise e) :: later) = Raise e.
Proof. reflexivity. Qed.

Ltac split_present H :=
  unfold present in H; cbn [forallb] in H;
  repeat (let H1 := fresh "Hkey" in apply andb_prop in H as [H1 H]).

Ltac computed_field :=
  first [ now eexists
        | now apply getitem_present
        | now apply clean_or_present ].

Ltac raises_at_cntrb_id :=
  repeat (apply build_skip; [computed_field|]); apply build_here.

(** *** The claims about the insert rows *)

(** C10 as amended: when the contributor id of a pull-request or comment
    record is falsy ([None], zero, an empty text), building its insert row
    evaluates the bare name [is_nan], which is bound in the class body only,
    and raises [NameError] (the fields written before it being there to
    read).  A [NaN] contributor id is truthy: the conditional copies it and
    [is_nan] is not evaluated. *)
Theorem falsy_contributor_id_raises_name_error
  (d : list (string * value)) (c : value) :
  lookup d "cntrb_id" = Some c ->
  (truthy c = false ->
   (present d ["url"; "id"; "node_id"; "html_url"; "diff_url"; "patch_url";
               "issue_url"; "number"; "state"; "locked"; "title"] = true ->
    pr_insert_row (VDict d) = Raise NameError)
   /\ (present d ["body"; "created_at"] = true ->
       comment_insert_row (VDict d) = Raise NameError))
  /\ (c = VNaN ->
      cntrb_id_or_is_nan pk_source_increment_insert_locals (VDict d)
      = Return VNaN
      /\ cntrb_id_or_is_nan pr_comments_insert_locals (VDict d)
         = Return VNaN).
Proof.
  intro Hc. split.
  - intro Hfalsy. split; intro Hkeys; split_present Hkeys.
    + unfold pr_insert_row.
      rewrite (falsy_cntrb_id_is_a_name_error
                 pk_source_increment_insert_locals d c eq_refl Hc Hfalsy).
      raises_at_cntrb_id.
    + unfold comment_insert_row.
      rewrite (falsy_cntrb_id_is_a_name_error
                 pr_comments_insert_locals d c eq_refl Hc Hfalsy).
      raises_at_cntrb_id.
  - intros ->. split; now apply truthy_cntrb_id_is_copied.
Qed.

Lemma lookup_after_set_key (d : list (string * value)) (key : string)
  (v : value) :
  lookup (set_key d key v) key = Some v.
Proof.
  induction d as [|[k x] d IH]; cbn [set_key lookup].
  - now rewrite String.eqb_refl.
  - destruct (String.eqb k key) eqn:E; cbn [lookup]; now rewrite E.
Qed.

Lemma lookup_beside_set_key (d : list (string * value)) (key k : string)
  (v : value) :
  k <> key -> lookup (set_key d key v) k = lookup d k.
Proof.
  intro Hk. induction d as [|[k' x] d IH]; cbn [set_key lookup].
  - destruct (String.eqb key k) eqn:E; [|reflexivity].
    apply String.eqb_eq in E. congruence.
  - destruct (String.eqb k' key) eqn:E; cbn [lookup].
    + apply String.eqb_eq in E. subst k'.
      destruct (String.eqb key k) eqn:E'; [|reflexivity].
      apply String.eqb_eq in E'. congruence.
    + destruct (String.eqb k' k); [reflexivity | exact IH].
Qed.

(** What the enrichment makes of one record: every field but [cntrb_id] as
    it was, and a [cntrb_id], which is null when the actor is null or
    malformed and the id of a contributor otherwise. *)
Definition passed_through (key : string) (record out : list (string * value))
  : Prop :=
  (forall k, k <> "cntrb_id" -> lookup out k = lookup record k)
  /\ has_key out "cntrb_id" = true
  /\ (actor_reference key record = None -> lookup out "cntrb_id" = Some VNone)
  /\ (actor_reference key record <> None ->
      exists id, lookup out "cntrb_id" = Some (VInt id)).

Lemma annotated_is_passed_through (key : string)
  (record : list (string * value)) (v : value) :
  (actor_reference key record = None -> v = VNone) ->
  (actor_reference key record <> None -> exists id, v = VInt id) ->
  passed_through key record (set_key record "cntrb_id" v).
Proof.
  intros Hnone Hsome. repeat split.
  - intros k Hk. now apply lookup_beside_set_key.
  - unfold has_key. apply existsb_exists.
    assert (H := lookup_after_set_key record "cntrb_id" v).
    revert H. generalize (set_key record "cntrb_id" v) as d.
    induction d as [|[k x] d IH]; cbn [lookup]; [discriminate|].
    destruct (String.eqb k "cntrb_id") eqn:E.
    + intros _. exists (k, x). split; [now left | exact E].
    + intro H. destruct (IH H) as (kv & Hin & Hkv).
      exists kv. split; [now right | exact Hkv].
  - intro H. rewrite lookup_after_set_key. now rewrite (Hnone H).
  - intro H. destruct (Hsome H) as [id ->]. exists id.
    apply lookup_after_set_key.
Qed.

(** C8 (a null actor does not fail the batch): for every batch of records
    and whatever contributors are known, the identity enrichment returns an
    output that holds every input record, in order: each with its fields as
    they were and a [cntrb_id] (the key line 855 of the events model looks
    for), which is null for a record whose actor is null or malformed. *)
Theorem null_actors_pass_through_the_enrichment (key : string)
  (records : list (list (string * value))) (known : list contributor) :
  let enriched := fst (enrich_cntrb_id key records known) in
  List.length enriched = List.length records
  /\ Forall2 (passed_through key) records enriched.
Proof.
  cbv zeta. revert known.
  induction records as [|record records IH]; intro known;
    cbn [enrich_cntrb_id].
  - split; [reflexivity | constructor].
  - destruct (actor_reference key record) as [[login node_id]|] eqn:Hactor.
    + destruct (resolve_or_create known login node_id) as [id known'].
      specialize (IH known').
      destruct (enrich_cntrb_id key records known') as [enriched known''].
      cbn [fst List.length] in *. destruct IH as [Hlen Hall].
      split; [now rewrite Hlen|]. constructor; [|assumption].
      apply annotated_is_passed_through.
      * intro H. rewrite Hactor in H. discriminate.
      * intros _. now exists id.
    + specialize (IH known).
      destruct (enrich_cntrb_id key records known) as [enriched known'].
      cbn [fst List.length] in *. destruct IH as [Hlen Hall].
      split; [now rewrite Hlen|]. constructor; [|assumption].
      apply annotated_is_passed_through.
      * reflexivity.
      * intro H. now destruct H.
Qed.

(** X26 (what the events model does with a null actor): a record whose actor
    is [None] does not fail the batch of the events model, and it is not
    handed on either.  When every enriched record has an [actor] field and
    those with an actor build their row, the insert batch is the rows of the
    records with an actor, in order: one row per such record, none for a
    record without actor. *)
Theorem events_without_actor_are_dropped (pk_pr_events : list value) :
  Forall (fun event =>
            exists actor,
              getitem event "actor" = Return actor
              /\ (actor <> VNone ->
                  exists row, event_insert_row event = Return row))
         pk_pr_events ->
  exists rows,
    pr_events_insert pk_pr_events = Return rows
    /\ comprehension event_insert_row (filter has_actor pk_pr_events)
       = Return rows
    /\ List.length rows = List.length (filter has_actor pk_pr_events).
Proof.
  induction 1 as [|event events (actor & Hactor & Hrow) _ (rows & Hrun & Hrows & Hlen)].
  - exists []. repeat split.
  - assert (Hkeep : has_actor event = negb (is_none actor))
      by (unfold has_actor; now rewrite Hactor).
    cbn [pr_events_insert filter]. rewrite Hkeep, Hactor.
    cbn [bind]. destruct (is_none actor) eqn:Hnone.
    + exists rows. cbn [negb]. now repeat split.
    + destruct Hrow as [row Hrow]; [now destruct actor|].
      exists (row :: rows). cbn [negb comprehension List.length].
      rewrite Hrow. cbn [bind]. rewrite Hrun, Hrows, Hlen. now repeat split.
Qed.

(** *** Batches *)

Lemma comprehension_raises {A} (row : value -> result A)
  (before : list value) (x : value) (after : list value) (e : exn) :
  Forall (fun y => exists r, row y = Return r) before ->
  row x = Raise e ->
  comprehension row (before ++ x :: after) = Raise e.
Proof.
  intros Hbefore Hx.
  induction Hbefore as [|y before [r Hr] _ IH]; cbn [app comprehension].
  - now rewrite Hx.
  - now rewrite Hr, IH.
Qed.

Lemma comprehension_if_raises {A} (keep : value -> result bool)
  (row : value -> result A) (before : list value) (x : value)
  (after : list value) (e : exn) :
  (exists rows, comprehension_if keep row before = Return rows) ->
  keep x = Raise e ->
  comprehension_if keep row (before ++ x :: after) = Raise e.
Proof.
  intros Hbefore Hx. induction before as [|y before IH];
    cbn [app comprehension_if].
  - now rewrite Hx.
  - destruct Hbefore as [rows Hrows]. cbn [comprehension_if] in Hrows.
    destruct (keep y) as [[|]|e']; cbn [bind] in *; try discriminate.
    + destruct (row y) as [r|e']; cbn [bind] in *; [|discriminate].
      destruct (comprehension_if keep row before) as [rows'|e'];
        cbn [bind] in *; [|discriminate].
      now rewrite IH by now exists rows'.
    + apply IH. now exists rows.
Qed.

Lemma comprehension_if_drops {A} (keep : value -> result bool)
  (row : value -> result A) (before : list value) (x : value)
  (after : list value) :
  keep x = Return false ->
  comprehension_if keep row (before ++ x :: after)
  = comprehension_if keep row (before ++ after).
Proof.
  intro Hx. induction before as [|y before IH]; cbn [app comprehension_if].
  - now rewrite Hx.
  - now rewrite IH.
Qed.

Lemma pr_insert_row_falsy (d : list (string * value)) (c : value) :
  lookup d "cntrb_id" = Some c -> truthy c = false ->
  present d ["url"; "id"; "node_id"; "html_url"; "diff_url"; "patch_url";
             "issue_url"; "number"; "state"; "locked"; "title"] = true ->
  pr_insert_row (VDict d) = Raise NameError.
Proof.
  intros Hc Hfalsy Hkeys. split_present Hkeys. unfold pr_insert_row.
  rewrite (falsy_cntrb_id_is_a_name_error
             pk_source_increment_insert_locals d c eq_refl Hc Hfalsy).
  raises_at_cntrb_id.
Qed.

Lemma comment_insert_row_falsy (d : list (string * value)) (c : value) :
  lookup d "cntrb_id" = Some c -> truthy c = false ->
  present d ["body"; "created_at"] = true ->
  comment_insert_row (VDict d) = Raise NameError.
Proof.
  intros Hc Hfalsy Hkeys. split_present Hkeys. unfold comment_insert_row.
  rewrite (falsy_cntrb_id_is_a_name_error
             pr_comments_insert_locals d c eq_refl Hc Hfalsy).
  raises_at_cntrb_id.
Qed.

Lemma pr_events_insert_raises (before : list value) (event : value)
  (after : list value) (actor : value) (e : exn) :
  (exists rows, pr_events_insert before = Return rows) ->
  getitem event "actor" = Return actor -> is_none actor = false ->
  event_insert_row event = Raise e ->
  pr_events_insert (before ++ event :: after) = Raise e.
Proof.
  intros Hbefore Hactor Hsome Hrow.
  induction before as [|y before IH]; cbn [app pr_events_insert].
  - rewrite Hactor. cbn [bind]. now rewrite Hsome, Hrow.
  - destruct Hbefore as [rows Hrows]. cbn [pr_events_insert] in Hrows.
    destruct (getitem y "actor") as [a|e']; cbn [bind] in *; [|discriminate].
    destruct (is_none a).
    + apply IH. now exists rows.
    + destruct (event_insert_row y) as [r|e']; cbn [bind] in *;
        [|discriminate].
      destruct (pr_events_insert before) as [rows'|e']; cbn [bind] in *;
        [|discriminate].
      now rewrite IH by now exists rows'.
Qed.

(** X15 (one falsy contributor id fails the batch): when the record of one
    pull request, of one comment, or of one event with an actor has a falsy
    contributor id, and the rows of the records before it are built, the whole
    list of rows is not built: the comprehension raises [NameError], so that
    no row of the batch, of the records before it or after it, reaches the
    insert. *)
Theorem one_falsy_contributor_id_fails_the_batch
  (before after : list value) (d : list (string * value)) (c : value) :
  lookup d "cntrb_id" = Some c -> truthy c = false ->
  (Forall (fun pr => exists row, pr_insert_row pr = Return row) before ->
   present d ["url"; "id"; "node_id"; "html_url"; "diff_url"; "patch_url";
              "issue_url"; "number"; "state"; "locked"; "title"] = true ->
   prs_insert (before ++ VDict d :: after) = Raise NameError)
  /\ (Forall (fun comment => exists row, comment_insert_row comment = Return row)
             before ->
      present d ["body"; "created_at"] = true ->
      pr_comments_insert (before ++ VDict d :: after) = Raise NameError)
  /\ (forall actor z,
        (exists rows, pr_events_insert before = Return rows) ->
        lookup d "actor" = Some actor -> actor <> VNone ->
        lookup d "pull_request_id" = Some (VInt z) ->
        pr_events_insert (before ++ VDict d :: after) = Raise NameError).
Proof.
  intros Hc Hfalsy. repeat split.
  - intros Hbefore Hkeys. apply comprehension_raises; [assumption|].
    now apply (pr_insert_row_falsy d c).
  - intros Hbefore Hkeys. apply comprehension_raises; [assumption|].
    now apply (comment_insert_row_falsy d c).
  - intros actor z Hbefore Hactor Hsome Hid.
    apply (pr_events_insert_raises before (VDict d) after actor);
      [assumption | cbn; now rewrite Hactor | now destruct actor |].
    unfold event_insert_row.
    rewrite (falsy_cntrb_id_is_a_name_error
               pull_request_events_model_locals d c eq_refl Hc Hfalsy).
    cbn. now rewrite Hid.
Qed.

(** X16 (a record without user): a record whose [user] is falsy is dropped
    from [reviews_insert] without a trace, the batch being that of the other
    records; in [meta_insert], whose condition looks for the login without
    asking first whether there is a user, a record whose [user] is [None] (or
    any value [in] cannot search) raises [TypeError], and no row of the batch
    is built; so does a [NaN] user in [reviews_insert]. *)
Theorem record_without_user (before after : list value)
  (d : list (string * value)) (user : value) :
  lookup d "user" = Some user ->
  (truthy user = false ->
   reviews_insert (before ++ VDict d :: after)
   = reviews_insert (before ++ after))
  /\ (iterable user = false ->
      (exists rows, meta_insert before = Return rows) ->
      meta_insert (before ++ VDict d :: after) = Raise TypeError)
  /\ (iterable user = false -> truthy user = true ->
      (exists rows, reviews_insert before = Return rows) ->
      reviews_insert (before ++ VDict d :: after) = Raise TypeError).
Proof.
  intro Huser. repeat split.
  - intro Hfalsy. apply comprehension_if_drops.
    unfold user_and_login. cbn. rewrite Huser. cbn. now rewrite Hfalsy.
  - intros Hiter Hbefore. apply comprehension_if_raises; [assumption|].
    unfold login_in_user. cbn. rewrite Huser. cbn.
    now destruct user.
  - intros Hiter Htruthy Hbefore.
    apply comprehension_if_raises; [assumption|].
    unfold user_and_login. cbn. rewrite Huser. cbn. rewrite Htruthy.
    now destruct user.
Qed.

End Rows.

Lemma falsy_contributor_id_raises_name_error_witness :
  pr_insert_row text_of 1 (VDict (example_pr_fields VNone)) = Raise NameError
  /\ comment_insert_row text_of no_number 1
       (VDict (example_comment_fields (VInt 0)))
     = Raise NameError.
Proof.
  split.
  - apply (proj1 (proj1 (falsy_contributor_id_raises_name_error
                           text_of no_number 1 (example_pr_fields VNone)
                           VNone eq_refl) eq_refl)).
    reflexivity.
  - apply (proj2 (proj1 (falsy_contributor_id_raises_name_error
                           text_of no_number 1
                           (example_comment_fields (VInt 0))
                           (VInt 0) eq_refl) eq_refl)).
    reflexivity.
Defined.

(** C10, as stated, fails for [NaN]: the row of a pull request whose
    contributor id is [NaN] is built, with [NaN] as its contributor id, and
    so is the row of such a comment; no [NameError] is raised. *)
Lemma nan_contributor_id_builds_the_row :
  (exists row,
     pr_insert_row text_of 1 (VDict (example_pr_fields VNaN)) = Return row
     /\ lookup row "pr_augur_contributor_id" = Some VNaN)
  /\ (exists row,
       comment_insert_row text_of no_number 1
         (VDict (example_comment_fields VNaN)) = Return row
       /\ lookup row "cntrb_id" = Some VNaN).
Proof. split; eexists; split; reflexivity. Qed.

Lemma events_without_actor_are_dropped_witness :
  let events := [example_event 1 VNone VNone;
                 example_event 2 (VDict [("login", VStr "octocat")]) (VInt 5);
                 example_event 3 VNone (VInt 0)] in
  exists rows,
    pr_events_insert no_number 1 events = Return rows
    /\ comprehension (event_insert_row no_number 1) (filter has_actor events)
       = Return rows
    /\ List.length rows = List.length (filter has_actor events).
Proof.
  apply (events_without_actor_are_dropped no_number 1
           [example_event 1 VNone VNone;
            example_event 2 (VDict [("login", VStr "octocat")]) (VInt 5);
            example_event 3 VNone (VInt 0)]).
  repeat constructor.
  - exists VNone. split; [reflexivity | intro H; now destruct H].
  - eexists. split; [reflexivity | intros _; eexists; reflexivity].
  - exists VNone. split; [reflexivity | intro H; now destruct H].
Defined.

Lemma one_falsy_contributor_id_fails_the_batch_witness :
  prs_insert text_of 1
    [VDict (example_pr_fields (VInt 5)); VDict (example_pr_fields VNone);
     VDict (example_pr_fields (VInt 6))] = Raise NameError
  /\ pr_comments_insert text_of no_number 1
       [VDict (example_comment_fields (VInt 5));
        VDict (example_comment_fields (VInt 0))] = Raise NameError
  /\ pr_events_insert no_number 1
       [example_event 1 VNone VNone; example_event 2 octocat VNone;
        example_event 3 octocat (VInt 5)] = Raise NameError.
Proof.
  split; [|split].
  - apply (proj1 (one_falsy_contributor_id_fails_the_batch text_of no_number 1
                    [VDict (example_pr_fields (VInt 5))]
                    [VDict (example_pr_fields (VInt 6))]
                    (example_pr_fields VNone) VNone eq_refl eq_refl));
      [repeat constructor; eexists; reflexivity | reflexivity].
  - apply (proj1 (proj2 (one_falsy_contributor_id_fails_the_batch
                           text_of no_number 1
                           [VDict (example_comment_fields (VInt 5))] []
                           (example_comment_fields (VInt 0)) (VInt 0)
                           eq_refl eq_refl)));
      [repeat constructor; eexists; reflexivity | reflexivity].
  - apply (proj2 (proj2 (one_falsy_contributor_id_fails_the_batch
                           text_of no_number 1
                           [example_event 1 VNone VNone]
                           [example_event 3 octocat (VInt 5)]
                           (fields_of (example_event 2 octocat VNone)) VNone
                           eq_refl eq_refl)) octocat 11%Z);
      [eexists; reflexivity | reflexivity | discriminate | reflexivity].
Defined.

Lemma record_without_user_witness :
  reviews_insert text_of 1 no_float exact_int
    [VDict (example_review_fields octocat);
     VDict (example_review_fields VNone)]
  = reviews_insert text_of 1 no_float exact_int
      [VDict (example_review_fields octocat)]
  /\ meta_insert 1
       [VDict (example_meta_fields octocat);
        VDict (example_meta_fields VNone)] = Raise TypeError
  /\ reviews_insert text_of 1 no_float exact_int
       [VDict (example_review_fields octocat);
        VDict (example_review_fields VNaN)] = Raise TypeError.
Proof.
  split; [|split].
  - apply (proj1 (record_without_user text_of 1 no_float exact_int
                    [VDict (example_review_fields octocat)] []
                    (example_review_fields VNone) VNone eq_refl)).
    reflexivity.
  - apply (proj1 (proj2 (record_without_user text_of 1 no_float exact_int
                           [VDict (example_meta_fields octocat)] []
                           (example_meta_fields VNone) VNone eq_refl)));
      [reflexivity | eexists; reflexivity].
  - apply (proj2 (proj2 (record_without_user text_of 1 no_float exact_int
                           [VDict (example_review_fields octocat)] []
                           (example_review_fields VNaN) VNaN eq_refl)));
      [reflexivity | reflexivity | eexists; reflexivity].
Defined.

End InsertRows.

(** ** [pull_requests_model] and the steps of [pull_request_nested_data_model] *)

Module Orchestrator.

(** What a call raises: an instance of [Exception], which
    [except Exception] catches, or one of the few that are not
    ([KeyboardInterrupt], [SystemExit]). *)
Inductive raised : Type := ordinary | base_only.

Inductive outcome : Type :=
| Returns
| Raises (r : raised).

(** *** A run with failures

    The world counts the writes done.  The batch is the pull requests 1 and
    2; the reviews model raises, and so do the labels and assignees steps. *)

Definition writes (_ : list nat) (w : nat) : outcome * nat := (Returns, S w).
Definition fails (_ : list nat) (w : nat) : outcome * nat :=
  (Raises ordinary, w).
Definition two_prs (w : nat) : (list nat + raised) * nat := (inl [1; 2], w).
Definition gathers (_ : nat) (w : nat) : outcome * nat := (Returns, w).
Definition registers (w : nat) : outcome * nat := (Returns, w).
(** Pull request 2 cannot be gathered (its head is null, say). *)
Definition gathers_but_two (pr : nat) (w : nat) : outcome * nat :=
  if (pr =? 2)%nat then (Raises ordinary, w) else (Returns, w).

Section Models.

(** The world the models act on (the database, the network) and the pull
    requests with their primary keys. *)
Variables W PR : Type.

(** [_get_pk_source_prs]: the batch, or what it raises. *)
Variable get_pk_source_prs : W -> (list PR + raised) * W.
(** The sub-models, given the batch. *)
Variables comments_model events_model reviews_model
  : list PR -> W -> outcome * W.
(** In [pull_request_nested_data_model]: what is done for one pull request
    before the step loop (its frames of labels, reviewers and assignees, its
    head and base), and the four steps, each given the pull requests gathered
    so far. *)
Variable gather : PR -> W -> outcome * W.
Variables labels_step reviewers_step assignees_step meta_step
  : list PR -> W -> outcome * W.
(** [register_task_completion] *)
Variable register_task_completion : W -> outcome * W.

(** The calls made, in order. *)
Inductive call : Type :=
| get_source_prs
| comments (batch : list PR)
| events (batch : list PR)
| reviews (batch : list PR)
| nested_data (batch : list PR)
| gathered (pr : PR)
| labels (seen : list PR)
| reviewers (seen : list PR)
| assignees (seen : list PR)
| meta (seen : list PR)
| task_completion.

Record state : Type := mkState {
  world : W;
  calls : list call
}.

(** A statement: what it does to the state and how it ends; [None] when a
    loop runs out of fuel. *)
Definition stmt : Type := state -> option (outcome * state).

Definition perform (c : call) (behaviour : W -> outcome * W) : stmt :=
  fun st =>
    let (o, w) := behaviour (world st) in
    Some (o, mkState w (calls st ++ [c])).

Definition skip : stmt := fun st => Some (Returns, st).

(** [a; b] *)
Definition seq (a b : stmt) : stmt :=
  fun st =>
    match a st with
    | Some (Returns, st') => b st'
    | other => other
    end.

(** [try: body / except Exception: pass] *)
Definition try_pass (body : stmt) : stmt :=
  fun st =>
    match body st with
    | Some (Raises ordinary, st') => Some (Returns, st')
    | other => other
    end.

(** [try: body / except Exception: pass / finally: final].  [final] runs
    however [body] ends; what [body] raised and was not caught is raised
    again after it, unless [final] raises itself. *)
Definition try_pass_finally (body final : stmt) : stmt :=
  fun st =>
    match try_pass body st with
    | Some (o, st') =>
        match final st' with
        | Some (Returns, st'') => Some (o, st'')
        | other => other
        end
    | None => None
    end.

(** The body of [while (pr_nested_loop < 5)]: the branch of the counter,
    which first adds one to it.  It gives back the counter with the
    outcome. *)
Definition step_body (pr_nested_loop : nat) (seen : list PR)
  : state -> option (outcome * state) * nat :=
  fun st =>
    match pr_nested_loop with
    | 1 => (perform (labels seen) (labels_step seen) st, 2)
    | 2 => (perform (reviewers seen) (reviewers_step seen) st, 3)
    | 3 => (perform (assignees seen) (assignees_step seen) st, 4)
    | 4 => (perform (meta seen) (meta_step seen) st, 5)
    | n => (skip st, n)
    end.

(** [while (pr_nested_loop < 5): try: ... except Exception: ... continue] *)
Fixpoint step_loop (fuel : nat) (pr_nested_loop : nat) (seen : list PR)
  : stmt :=
  fun st =>
    match fuel with
    | O => None
    | S fuel' =>
        if pr_nested_loop <? 5 then
          let (ran, pr_nested_loop') := step_body pr_nested_loop seen st in
          match ran with
          | Some (Returns, st') | Some (Raises ordinary, st') =>
              step_loop fuel' pr_nested_loop' seen st'
          | other => other
          end
        else Some (Returns, st)
    end.

(** [for index, pr in enumerate(pk_source_prs)]: gather, then the step
    loop, which starts with the counter at 1. *)
Fixpoint each_pr (fuel : nat) (seen todo : list PR) : stmt :=
  match todo with
  | [] => skip
  | pr :: todo' =>
      seq (perform (gathered pr) (gather pr))
          (seq (step_loop fuel 1 (seen ++ [pr]))
               (each_pr fuel (seen ++ [pr]) todo'))
  end.

(** [pull_request_nested_data_model(pk_source_prs)] *)
Definition pull_request_nested_data_model (fuel : nat) (pk_source_prs : list PR)
  : stmt :=
  fun st =>
    let st0 := mkState (world st) (calls st ++ [nested_data pk_source_prs]) in
    match pk_source_prs with
    | [] =>
        let (got, w) := get_pk_source_prs (world st0) in
        let st1 := mkState w (calls st0 ++ [get_source_prs]) in
        match got with
        | inl batch => each_pr fuel [] batch st1
        | inr ordinary => each_pr fuel [] [] st1
        | inr base_only => Some (Raises base_only, st1)
        end
    | _ => each_pr fuel [] pk_source_prs st0
    end.

(** [pull_requests_model] *)
Definition pull_requests_model (fuel : nat) : stmt :=
  fun st =>
    let (got, w) := get_pk_source_prs (world st) in
    let st1 := mkState w (calls st ++ [get_source_prs]) in
    match got with
    | inr base_only => Some (Raises base_only, st1)
    | _ =>
        let pk_source_prs :=
          match got with inl batch => batch | inr _ => [] end in
        seq
          (match pk_source_prs with
           | [] => skip
           | _ =>
               try_pass_finally
                 (perform (comments pk_source_prs)
                          (comments_model pk_source_prs))
                 (try_pass_finally
                    (perform (events pk_source_prs)
                             (events_model pk_source_prs))
                    (try_pass_finally
                       (perform (reviews pk_source_prs)
                                (reviews_model pk_source_prs))
                       (try_pass_finally
                          (pull_request_nested_data_model fuel pk_source_prs)
                          skip)))
           end)
          (perform task_completion register_task_completion)
          st1
    end.

(** The calls of a sub-model by [pull_requests_model]. *)
Definition is_sub_model (c : call) : bool :=
  match c with
  | comments _ | events _ | reviews _ | nested_data _ => true
  | _ => false
  end.

Definition sub_models (cs : list call) : list call := filter is_sub_model cs.

(** A statement that ends, and calls no sub-model. *)
Definition ends_within (s : stmt) : Prop :=
  forall st, exists o st',
    s st = Some (o, st') /\ sub_models (calls st') = sub_models (calls st).

(** A statement that ends, whatever it meets, and calls the sub-models
    [added], in that order. *)
Definition runs_adding (s : stmt) (added : list call) : Prop :=
  forall st, exists o st',
    s st = Some (o, st')
    /\ sub_models (calls st') = sub_models (calls st) ++ added.

(** An outcome [except Exception] does not catch. *)
Definition is_base_only (o : outcome) : bool :=
  match o with
  | Raises base_only => true
  | _ => false
  end.

(** The calls of the step loop of one pull request, the pull requests
    gathered so far being [seen]. *)
Definition step_calls (seen : list PR) : list call :=
  [labels seen; reviewers seen; assignees seen; meta seen].

(** Each pull request still to do, with the pull requests gathered once it
    is: those seen before, and the pull requests to do up to itself. *)
Definition prefixes (seen todo : list PR) : list (PR * list PR) :=
  combine todo
    (map (fun i => seen ++ firstn (S i) todo)
       (List.seq 0 (List.length todo))).

Definition nested_calls (seen todo : list PR) : list call :=
  flat_map (fun p => gathered (fst p) :: step_calls (snd p))
           (prefixes seen todo).

(** A statement that ends without an exception outside [Exception], and
    does not register the completion of the task. *)
Definition quiet (s : stmt) : Prop :=
  forall st, exists o st' cs,
    s st = Some (o, st')
    /\ o <> Raises base_only
    /\ calls st' = calls st ++ cs
    /\ ~ In task_completion cs.

Definition quiet_returns (s : stmt) : Prop :=
  forall st, exists st' cs,
    s st = Some (Returns, st')
    /\ calls st' = calls st ++ cs
    /\ ~ In task_completion cs.

(** *** The step loop *)

Lemma sub_models_app (cs cs' : list call) :
  sub_models (cs ++ cs') = sub_models cs ++ sub_models cs'.
Proof. apply filter_app. Qed.

Lemma perform_ends_within (c : call) (behaviour : W -> outcome * W) :
  is_sub_model c = false -> ends_within (perform c behaviour).
Proof.
  intros Hc st. unfold perform. destruct (behaviour (world st)) as [o w].
  exists o, (mkState w (calls st ++ [c])). split; [reflexivity|].
  cbn [calls]. rewrite sub_models_app. cbn. rewrite Hc. apply app_nil_r.
Qed.

Lemma skip_ends_within : ends_within skip.
Proof. intro st. now exists Returns, st. Qed.

Lemma seq_ends_within (a b : stmt) :
  ends_within a -> ends_within b -> ends_within (seq a b).
Proof.
  intros Ha Hb st. unfold seq. destruct (Ha st) as (o & st1 & -> & H1).
  destruct o as [|r].
  - destruct (Hb st1) as (o2 & st2 & -> & H2). exists o2, st2.
    split; [reflexivity | congruence].
  - now exists (Raises r), st1.
Qed.

(** With [5 - pr_nested_loop] passes to go and fuel for one more test, the
    step loop ends. *)
Lemma step_loop_ends_within (togo fuel pr_nested_loop : nat) (seen : list PR) :
  1 <= pr_nested_loop -> pr_nested_loop + togo = 5 -> togo < fuel ->
  ends_within (step_loop fuel pr_nested_loop seen).
Proof.
  revert fuel pr_nested_loop.
  induction togo as [|togo IH]; intros fuel k Hk Hsum Hfuel st;
    (destruct fuel as [|fuel]; [lia|]); cbn [step_loop].
  - replace k with 5 by lia. now exists Returns, st.
  - assert (Hlt : (k <? 5) = true) by (apply Nat.ltb_lt; lia). rewrite Hlt.
    assert (Hstep : exists c behaviour,
               is_sub_model c = false
               /\ step_body k seen st = (perform c behaviour st, S k)).
    { destruct k as [|[|[|[|[|k]]]]]; try lia; cbn [step_body];
        eexists _, _; (split; [|reflexivity]); reflexivity. }
    destruct Hstep as (c & behaviour & Hc & ->).
    destruct (perform_ends_within c behaviour Hc st) as (o & st1 & -> & H1).
    assert (Hnext := IH fuel (S k) ltac:(lia) ltac:(lia) ltac:(lia) st1).
    destruct Hnext as (o2 & st2 & Hrun & H2).
    destruct o as [|[|]].
    + exists o2, st2. split; [assumption | congruence].
    + exists o2, st2. split; [assumption | congruence].
    + now exists (Raises base_only), st1.
Qed.

Lemma each_pr_ends_within (fuel : nat) (seen todo : list PR) :
  5 <= fuel -> ends_within (each_pr fuel seen todo).
Proof.
  intro Hfuel. revert seen.
  induction todo as [|pr todo IH]; intro seen; cbn [each_pr].
  - apply skip_ends_within.
  - apply seq_ends_within; [now apply perform_ends_within|].
    apply seq_ends_within; [|apply IH].
    apply (step_loop_ends_within 4); lia.
Qed.

(** Called with a batch, the nested-data model ends, and the one sub-model
    call it adds is its own. *)
Lemma nested_data_model_ends (fuel : nat) (pr : PR) (batch : list PR)
  (st : state) :
  5 <= fuel ->
  exists o st',
    pull_request_nested_data_model fuel (pr :: batch) st = Some (o, st')
    /\ sub_models (calls st')
       = sub_models (calls st) ++ [nested_data (pr :: batch)].
Proof.
  intro Hfuel. unfold pull_request_nested_data_model.
  destruct (each_pr_ends_within fuel [] (pr :: batch) Hfuel
              (mkState (world st) (calls st ++ [nested_data (pr :: batch)])))
    as (o & st' & Hrun & Hcalls).
  exists o, st'. split; [assumption|].
  rewrite Hcalls. cbn [calls]. now rewrite sub_models_app.
Qed.

(** One pass of the step loop whose step raises at most an instance of
    [Exception]: the loop goes on with the next value of the counter. *)
Lemma step_loop_pass (fuel pr_nested_loop : nat) (seen : list PR) (st : state)
  (c : call) (behaviour : W -> outcome * W) :
  pr_nested_loop < 5 ->
  step_body pr_nested_loop seen st
  = (perform c behaviour st, S pr_nested_loop) ->
  fst (behaviour (world st)) <> Raises base_only ->
  step_loop (S fuel) pr_nested_loop seen st
  = step_loop fuel (S pr_nested_loop) seen
      (mkState (snd (behaviour (world st))) (calls st ++ [c])).
Proof.
  intros Hlt Hbody Hraise. cbn [step_loop].
  apply Nat.ltb_lt in Hlt. rewrite Hlt, Hbody. unfold perform.
  destruct (behaviour (world st)) as [o w]. cbn [fst snd] in *.
  destruct o as [|[|]]; [reflexivity | reflexivity | contradiction].
Qed.

(** When the steps raise nothing but instances of [Exception], the step loop
    runs the four steps once each, in order, whichever of them fail. *)
Lemma step_loop_runs_each_step_once (fuel : nat) (seen : list PR) (st : state) :
  5 <= fuel ->
  (forall w, fst (labels_step seen w) <> Raises base_only) ->
  (forall w, fst (reviewers_step seen w) <> Raises base_only) ->
  (forall w, fst (assignees_step seen w) <> Raises base_only) ->
  (forall w, fst (meta_step seen w) <> Raises base_only) ->
  exists st',
    step_loop fuel 1 seen st = Some (Returns, st')
    /\ calls st' = calls st ++ [labels seen; reviewers seen; assignees seen;
                                meta seen].
Proof.
  intros Hfuel Hl Hr Ha Hm.
  do 5 (destruct fuel as [|fuel]; [lia|]).
  rewrite (step_loop_pass _ 1 seen st (labels seen) (labels_step seen))
    by (try lia; try reflexivity; apply Hl).
  rewrite (step_loop_pass _ 2 seen _ (reviewers seen) (reviewers_step seen))
    by (try lia; try reflexivity; apply Hr).
  rewrite (step_loop_pass _ 3 seen _ (assignees seen) (assignees_step seen))
    by (try lia; try reflexivity; apply Ha).
  rewrite (step_loop_pass _ 4 seen _ (meta seen) (meta_step seen))
    by (try lia; try reflexivity; apply Hm).
  eexists. split; [reflexivity|]. cbn [calls world].
  rewrite <- !app_assoc. reflexivity.
Qed.

(** *** The four sub-models *)

Lemma ends_within_adds_nothing (s : stmt) :
  ends_within s -> runs_adding s [].
Proof.
  intros H st. destruct (H st) as (o & st' & Hrun & Hcalls).
  exists o, st'. now rewrite app_nil_r.
Qed.

Lemma perform_sub_model (c : call) (behaviour : W -> outcome * W) :
  is_sub_model c = true -> runs_adding (perform c behaviour) [c].
Proof.
  intros Hc st. unfold perform. destruct (behaviour (world st)) as [o w].
  exists o, (mkState w (calls st ++ [c])). split; [reflexivity|].
  cbn [calls]. rewrite sub_models_app. cbn. now rewrite Hc.
Qed.

(** The [finally] block runs however the [try] block ends. *)
Lemma try_pass_finally_adds (body final : stmt) (first second : list call) :
  runs_adding body first -> runs_adding final second ->
  runs_adding (try_pass_finally body final) (first ++ second).
Proof.
  intros Hbody Hfinal st. unfold try_pass_finally, try_pass.
  destruct (Hbody st) as (o1 & st1 & -> & H1).
  destruct (Hfinal st1) as (o2 & st2 & Hrun & H2).
  rewrite app_assoc, <- H1, <- H2.
  destruct o1 as [|[|]]; rewrite Hrun; destruct o2;
    eexists _, st2; split; reflexivity.
Qed.

Lemma seq_adds_first (a b : stmt) (added : list call) :
  runs_adding a added -> ends_within b -> runs_adding (seq a b) added.
Proof.
  intros Ha Hb st. unfold seq. destruct (Ha st) as (o & st1 & -> & H1).
  destruct o as [|r].
  - destruct (Hb st1) as (o2 & st2 & -> & H2). exists o2, st2.
    split; [reflexivity | congruence].
  - now exists (Raises r), st1.
Qed.

(** With a batch from [_get_pk_source_prs], [pull_requests_model] ends and
    has called the four sub-models once each, in order, with the batch,
    whichever of them raise. *)
Lemma pull_requests_model_runs_all (fuel : nat) (st : state)
  (batch : list PR) (w : W) :
  5 <= fuel ->
  get_pk_source_prs (world st) = (inl batch, w) ->
  batch <> [] ->
  exists o st',
    pull_requests_model fuel st = Some (o, st')
    /\ sub_models (calls st')
       = sub_models (calls st)
         ++ [comments batch; events batch; reviews batch; nested_data batch].
Proof.
  intros Hfuel Hget Hbatch. unfold pull_requests_model. rewrite Hget.
  destruct batch as [|pr batch]; [contradiction|].
  set (model := seq _ _).
  assert (H : runs_adding model
                ([comments (pr :: batch)]
                 ++ [events (pr :: batch)]
                 ++ [reviews (pr :: batch)]
                 ++ [nested_data (pr :: batch)] ++ [])).
  { subst model. apply seq_adds_first;
      [|now apply perform_ends_within].
    repeat (apply try_pass_finally_adds; [now apply perform_sub_model|]).
    apply try_pass_finally_adds.
    - intro st0. now apply nested_data_model_ends.
    - apply ends_within_adds_nothing, skip_ends_within. }
  destruct (H (mkState w (calls st ++ [get_source_prs])))
    as (o & st' & Hrun & Hcalls).
  exists o, st'. split; [assumption|].
  rewrite Hcalls. cbn [calls]. rewrite sub_models_app. cbn.
  now rewrite app_nil_r.
Qed.

(** *** The claim about the orchestration *)

(** The world the four steps leave, each run on what the one before left. *)
Lemma step_loop_runs_the_steps (fuel : nat) (seen : list PR) (st : state) :
  5 <= fuel ->
  (forall w, fst (labels_step seen w) <> Raises base_only) ->
  (forall w, fst (reviewers_step seen w) <> Raises base_only) ->
  (forall w, fst (assignees_step seen w) <> Raises base_only) ->
  (forall w, fst (meta_step seen w) <> Raises base_only) ->
  step_loop fuel 1 seen st
  = Some (Returns,
          mkState
            (snd (meta_step seen
                    (snd (assignees_step seen
                            (snd (reviewers_step seen
                                    (snd (labels_step seen (world st)))))))))
            (calls st ++ [labels seen; reviewers seen; assignees seen;
                          meta seen])).
Proof.
  intros Hfuel Hl Hr Ha Hm.
  do 5 (destruct fuel as [|fuel]; [lia|]).
  rewrite (step_loop_pass _ 1 seen st (labels seen) (labels_step seen))
    by (try lia; try reflexivity; apply Hl).
  rewrite (step_loop_pass _ 2 seen _ (reviewers seen) (reviewers_step seen))
    by (try lia; try reflexivity; apply Hr).
  rewrite (step_loop_pass _ 3 seen _ (assignees seen) (assignees_step seen))
    by (try lia; try reflexivity; apply Ha).
  rewrite (step_loop_pass _ 4 seen _ (meta seen) (meta_step seen))
    by (try lia; try reflexivity; apply Hm).
  cbn [step_loop Nat.ltb Nat.leb calls world].
  now rewrite <- !app_assoc.
Qed.

Lemma try_pass_finally_perform (c : call) (behaviour : W -> outcome * W)
  (final : stmt) (st : state) :
  try_pass_finally (perform c behaviour) final st
  = match final (mkState (snd (behaviour (world st))) (calls st ++ [c])) with
    | Some (Returns, st') =>
        Some (if is_base_only (fst (behaviour (world st)))
              then Raises base_only else Returns, st')
    | other => other
    end.
Proof.
  unfold try_pass_finally, try_pass, perform.
  destruct (behaviour (world st)) as [[|[|]] w]; reflexivity.
Qed.

Lemma try_pass_finally_skip (body : stmt) (st : state) :
  try_pass_finally body skip st
  = match body st with
    | Some (o, st') =>
        Some (if is_base_only o then Raises base_only else Returns, st')
    | None => None
    end.
Proof.
  unfold try_pass_finally, try_pass, skip.
  destruct (body st) as [[[|[|]] st']|]; reflexivity.
Qed.

(** With a batch, [pull_requests_model] runs the comments model on the world
    the fetch left, the events model on the world the comments model left,
    the reviews model on the world the events model left and the nested-data
    model on the world the reviews model left, whatever each of them raises;
    it then registers the completion of the task, unless one of the four
    raised what [except Exception] does not catch. *)
Lemma pull_requests_model_runs_each_on_the_last (fuel : nat) (st : state)
  (batch : list PR) (w : W) :
  5 <= fuel ->
  get_pk_source_prs (world st) = (inl batch, w) ->
  batch <> [] ->
  exists o4 st4,
    pull_request_nested_data_model fuel batch
      (mkState
         (snd (reviews_model batch
                 (snd (events_model batch (snd (comments_model batch w))))))
         (calls st ++ [get_source_prs; comments batch; events batch;
                       reviews batch]))
    = Some (o4, st4)
    /\ pull_requests_model fuel st
       = (if existsb is_base_only
               [fst (comments_model batch w);
                fst (events_model batch (snd (comments_model batch w)));
                fst (reviews_model batch
                       (snd (events_model batch
                               (snd (comments_model batch w)))));
                o4]
          then Some (Raises base_only, st4)
          else perform task_completion register_task_completion st4).
Proof.
  intros Hfuel Hget Hbatch. destruct batch as [|pr batch]; [contradiction|].
  destruct (nested_data_model_ends fuel pr batch
              (mkState
                 (snd (reviews_model (pr :: batch)
                         (snd (events_model (pr :: batch)
                                 (snd (comments_model (pr :: batch) w))))))
                 (calls st ++ [get_source_prs; comments (pr :: batch);
                               events (pr :: batch); reviews (pr :: batch)]))
              Hfuel) as (o4 & st4 & Hrun & _).
  exists o4, st4. split; [exact Hrun|].
  unfold pull_requests_model. rewrite Hget. unfold seq.
  rewrite !try_pass_finally_perform, try_pass_finally_skip.
  cbn [world calls]. rewrite <- !app_assoc. cbn [app]. rewrite Hrun.
  generalize (fst (comments_model (pr :: batch) w)) as o1.
  generalize (fst (events_model (pr :: batch)
                     (snd (comments_model (pr :: batch) w)))) as o2.
  generalize (fst (reviews_model (pr :: batch)
                     (snd (events_model (pr :: batch)
                             (snd (comments_model (pr :: batch) w)))))) as o3.
  intros o3 o2 o1.
  destruct o1 as [|[|]], o2 as [|[|]], o3 as [|[|]], o4 as [|[|]];
    reflexivity.
Qed.

(** C9 (partial-failure isolation): with a batch of pull requests,
    [pull_requests_model] runs the comments, events, reviews and nested-data
    sub-models once each, in that order and with that batch, each on the
    world the one before left, whichever of them raise (so the comments and
    events models have run before a failing reviews model, and the
    nested-data model runs after it, on what the reviews model left); and in
    the nested-data model, the step loop of a pull request runs the labels,
    reviewers, assignees and meta steps once each, in order, each on the
    world the one before left, whichever of them fail with an exception. *)
Theorem failures_do_not_stop_the_siblings (fuel : nat) :
  5 <= fuel ->
  (forall (st : state) (batch : list PR) (w : W),
      get_pk_source_prs (world st) = (inl batch, w) ->
      batch <> [] ->
      (exists o st',
          pull_requests_model fuel st = Some (o, st')
          /\ sub_models (calls st')
             = sub_models (calls st)
               ++ [comments batch; events batch; reviews batch;
                   nested_data batch])
      /\ exists o4 st4,
           pull_request_nested_data_model fuel batch
             (mkState
                (snd (reviews_model batch
                        (snd (events_model batch
                                (snd (comments_model batch w))))))
                (calls st ++ [get_source_prs; comments batch; events batch;
                              reviews batch]))
           = Some (o4, st4)
           /\ pull_requests_model fuel st
              = (if existsb is_base_only
                      [fst (comments_model batch w);
                       fst (events_model batch
                              (snd (comments_model batch w)));
                       fst (reviews_model batch
                              (snd (events_model batch
                                      (snd (comments_model batch w)))));
                       o4]
                 then Some (Raises base_only, st4)
                 else perform task_completion register_task_completion st4))
  /\ (forall (seen : list PR) (st : state),
         (forall w, fst (labels_step seen w) <> Raises base_only) ->
         (forall w, fst (reviewers_step seen w) <> Raises base_only) ->
         (forall w, fst (assignees_step seen w) <> Raises base_only) ->
         (forall w, fst (meta_step seen w) <> Raises base_only) ->
         exists st',
           step_loop fuel 1 seen st = Some (Returns, st')
           /\ calls st'
              = calls st ++ [labels seen; reviewers seen; assignees seen;
                             meta seen]
           /\ world st'
              = snd (meta_step seen
                       (snd (assignees_step seen
                               (snd (reviewers_step seen
                                       (snd (labels_step seen
                                               (world st))))))))).
Proof.
  intro Hfuel. split.
  - intros st batch w Hget Hbatch. split.
    + now apply pull_requests_model_runs_all with (w := w).
    + now apply pull_requests_model_runs_each_on_the_last.
  - intros seen st Hl Hr Ha Hm. eexists. split; [|split].
    + now apply step_loop_runs_the_steps.
    + reflexivity.
    + reflexivity.
Qed.

(** *** The pull requests of a batch, one after the other *)

Lemma prefixes_cons (seen : list PR) (pr : PR) (todo : list PR) :
  prefixes seen (pr :: todo)
  = (pr, seen ++ [pr]) :: prefixes (seen ++ [pr]) todo.
Proof.
  unfold prefixes. cbn [List.length List.seq map combine firstn].
  f_equal. f_equal. rewrite <- seq_shift, map_map. apply map_ext.
  intro i. now rewrite <- app_assoc.
Qed.

Lemma nested_calls_cons (seen : list PR) (pr : PR) (todo : list PR) :
  nested_calls seen (pr :: todo)
  = gathered pr :: step_calls (seen ++ [pr])
    ++ nested_calls (seen ++ [pr]) todo.
Proof. unfold nested_calls. now rewrite prefixes_cons. Qed.

Lemma nested_calls_length (seen todo : list PR) :
  List.length (nested_calls seen todo) = 5 * List.length todo.
Proof.
  revert seen. induction todo as [|pr todo IH]; intro seen; [reflexivity|].
  rewrite nested_calls_cons. cbn [List.length step_calls app].
  rewrite IH. lia.
Qed.

Section OnlyExceptions.

(** What the calls raise is an instance of [Exception]. *)
Hypothesis source_prs_exception :
  forall w, fst (get_pk_source_prs w) <> inr base_only.
Hypothesis comments_exception :
  forall batch w, fst (comments_model batch w) <> Raises base_only.
Hypothesis events_exception :
  forall batch w, fst (events_model batch w) <> Raises base_only.
Hypothesis reviews_exception :
  forall batch w, fst (reviews_model batch w) <> Raises base_only.
Hypothesis gather_exception :
  forall pr w, fst (gather pr w) <> Raises base_only.
Hypothesis labels_exception :
  forall seen w, fst (labels_step seen w) <> Raises base_only.
Hypothesis reviewers_exception :
  forall seen w, fst (reviewers_step seen w) <> Raises base_only.
Hypothesis assignees_exception :
  forall seen w, fst (assignees_step seen w) <> Raises base_only.
Hypothesis meta_exception :
  forall seen w, fst (meta_step seen w) <> Raises base_only.

Lemma step_loop_steps (fuel : nat) (seen : list PR) (st : state) :
  5 <= fuel ->
  exists st',
    step_loop fuel 1 seen st = Some (Returns, st')
    /\ calls st' = calls st ++ step_calls seen.
Proof.
  intro Hfuel.
  apply step_loop_runs_each_step_once;
    auto using labels_exception, reviewers_exception, assignees_exception,
               meta_exception.
Qed.

(** While [gather] returns, every pull request has its four steps run over
    the pull requests gathered so far. *)
Lemma each_pr_calls (fuel : nat) (todo seen : list PR) (st : state) :
  5 <= fuel ->
  (forall pr w, In pr todo -> fst (gather pr w) = Returns) ->
  exists st',
    each_pr fuel seen todo st = Some (Returns, st')
    /\ calls st' = calls st ++ nested_calls seen todo.
Proof.
  intro Hfuel. revert seen st.
  induction todo as [|pr todo IH]; intros seen st Hgather.
  - exists st. split; [reflexivity|]. cbn. now rewrite app_nil_r.
  - cbn [each_pr]. unfold seq, perform.
    assert (Hg := Hgather pr (world st) (or_introl eq_refl)).
    destruct (gather pr (world st)) as [o w]. cbn [fst] in Hg. subst o.
    destruct (step_loop_steps fuel (seen ++ [pr])
                (mkState w (calls st ++ [gathered pr])) Hfuel)
      as (st2 & -> & Hcalls2).
    destruct (IH (seen ++ [pr]) st2) as (st3 & Hrun3 & Hcalls3).
    { intros p w' Hp. apply Hgather. now right. }
    exists st3. split; [exact Hrun3|].
    rewrite Hcalls3, Hcalls2, nested_calls_cons. cbn [calls].
    rewrite <- !app_assoc. reflexivity.
Qed.

(** The first pull request whose [gather] raises ends the loop over the pull
    requests. *)
Lemma each_pr_stops_at_gather (fuel : nat) (before : list PR) (pr : PR)
  (after seen : list PR) (r : raised) (st : state) :
  5 <= fuel ->
  (forall p w, In p before -> fst (gather p w) = Returns) ->
  (forall w, fst (gather pr w) = Raises r) ->
  exists st',
    each_pr fuel seen (before ++ pr :: after) st = Some (Raises r, st')
    /\ calls st' = calls st ++ nested_calls seen before ++ [gathered pr].
Proof.
  intros Hfuel Hbefore Hpr. revert seen st.
  induction before as [|p before IH]; intros seen st.
  - cbn [app each_pr]. unfold seq, perform.
    assert (Hg := Hpr (world st)).
    destruct (gather pr (world st)) as [o w]. cbn [fst] in Hg. subst o.
    eexists. split; reflexivity.
  - cbn [app each_pr]. unfold seq, perform.
    assert (Hg := Hbefore p (world st) (or_introl eq_refl)).
    destruct (gather p (world st)) as [o w]. cbn [fst] in Hg. subst o.
    destruct (step_loop_steps fuel (seen ++ [p])
                (mkState w (calls st ++ [gathered p])) Hfuel)
      as (st2 & -> & Hcalls2).
    destruct (IH ltac:(intros q w' Hq; apply Hbefore; now right)
                (seen ++ [p]) st2) as (st3 & Hrun3 & Hcalls3).
    exists st3. split; [exact Hrun3|].
    rewrite Hcalls3, Hcalls2, nested_calls_cons. cbn [calls].
    rewrite <- !app_assoc. reflexivity.
Qed.

(** X12 (the steps run over all pull requests gathered so far): called with
    a batch whose pull requests are all gathered, the nested-data model
    returns after gathering each pull request in turn and running, after each,
    the labels, reviewers, assignees and meta steps once, over the pull
    requests of the batch up to that one: the steps of the i-th pull request
    are given the first i pull requests again, five calls a pull request. *)
Theorem steps_run_over_the_pull_requests_so_far (fuel : nat)
  (pr : PR) (batch : list PR) (st : state) :
  5 <= fuel ->
  (forall p w, fst (gather p w) = Returns) ->
  exists st',
    pull_request_nested_data_model fuel (pr :: batch) st
    = Some (Returns, st')
    /\ calls st'
       = calls st ++ nested_data (pr :: batch)
                     :: nested_calls [] (pr :: batch)
    /\ List.length (nested_calls [] (pr :: batch))
       = 5 * List.length (pr :: batch).
Proof.
  intros Hfuel Hgather. unfold pull_request_nested_data_model.
  destruct (each_pr_calls fuel (pr :: batch) []
              (mkState (world st) (calls st ++ [nested_data (pr :: batch)]))
              Hfuel ltac:(intros p w _; apply Hgather))
    as (st' & Hrun & Hcalls).
  exists st'. split; [exact Hrun|]. split; [|apply nested_calls_length].
  rewrite Hcalls. cbn [calls]. now rewrite <- app_assoc.
Qed.

(** X13 (a pull request that cannot be gathered): when gathering a pull
    request raises, the nested-data model raises the same: the steps have run
    for the pull requests before it, and neither for it nor for any after
    it. *)
Theorem gather_failure_ends_the_nested_model (fuel : nat)
  (before : list PR) (pr : PR) (after : list PR) (r : raised) (st : state) :
  5 <= fuel ->
  (forall p w, In p before -> fst (gather p w) = Returns) ->
  (forall w, fst (gather pr w) = Raises r) ->
  exists st',
    pull_request_nested_data_model fuel (before ++ pr :: after) st
    = Some (Raises r, st')
    /\ calls st'
       = calls st ++ nested_data (before ++ pr :: after)
                     :: nested_calls [] before ++ [gathered pr].
Proof.
  intros Hfuel Hbefore Hpr. unfold pull_request_nested_data_model.
  destruct (each_pr_stops_at_gather fuel before pr after [] r
              (mkState (world st)
                 (calls st ++ [nested_data (before ++ pr :: after)]))
              Hfuel Hbefore Hpr)
    as (st' & Hrun & Hcalls).
  exists st'. split.
  - destruct before; exact Hrun.
  - rewrite Hcalls. cbn [calls]. now rewrite <- app_assoc.
Qed.

(** *** The completion of the task *)

Lemma perform_quiet (c : call) (behaviour : W -> outcome * W) :
  c <> task_completion ->
  (forall w, fst (behaviour w) <> Raises base_only) ->
  quiet (perform c behaviour).
Proof.
  intros Hc Hb st. unfold perform. specialize (Hb (world st)).
  destruct (behaviour (world st)) as [o w]. cbn [fst] in Hb.
  exists o, (mkState w (calls st ++ [c])), [c].
  split; [reflexivity|]. split; [assumption|]. split; [reflexivity|].
  intros [H|[]]. now apply Hc.
Qed.

Lemma skip_quiet_returns : quiet_returns skip.
Proof.
  intro st. exists st, []. split; [reflexivity|].
  split; [now rewrite app_nil_r | intros []].
Qed.

Lemma quiet_returns_quiet (s : stmt) : quiet_returns s -> quiet s.
Proof.
  intros H st. destruct (H st) as (st' & cs & Hrun & Hcalls & Hno).
  exists Returns, st', cs. repeat split; try assumption. discriminate.
Qed.

Lemma seq_quiet (a b : stmt) : quiet a -> quiet b -> quiet (seq a b).
Proof.
  intros Ha Hb st. unfold seq.
  destruct (Ha st) as (o & st1 & cs1 & -> & Ho & Hc1 & Hn1).
  destruct o as [|r].
  - destruct (Hb st1) as (o2 & st2 & cs2 & -> & Ho2 & Hc2 & Hn2).
    exists o2, st2, (cs1 ++ cs2).
    split; [reflexivity|]. split; [assumption|].
    split; [now rewrite Hc2, Hc1, app_assoc|].
    rewrite in_app_iff. tauto.
  - exists (Raises r), st1, cs1. now repeat split.
Qed.

Lemma try_pass_finally_quiet (body final : stmt) :
  quiet body -> quiet_returns final ->
  quiet_returns (try_pass_finally body final).
Proof.
  intros Hbody Hfinal st. unfold try_pass_finally, try_pass.
  destruct (Hbody st) as (o & st1 & cs1 & -> & Ho & Hc1 & Hn1).
  destruct (Hfinal st1) as (st2 & cs2 & Hrun & Hc2 & Hn2).
  exists st2, (cs1 ++ cs2).
  split; [destruct o as [|[|]]; [| |contradiction]; now rewrite Hrun|].
  split; [now rewrite Hc2, Hc1, app_assoc|].
  rewrite in_app_iff. tauto.
Qed.

Lemma step_loop_quiet (fuel : nat) (seen : list PR) :
  5 <= fuel -> quiet (step_loop fuel 1 seen).
Proof.
  intros Hfuel st.
  destruct (step_loop_steps fuel seen st Hfuel) as (st' & Hrun & Hcalls).
  exists Returns, st', (step_calls seen).
  split; [assumption|]. split; [discriminate|]. split; [assumption|].
  cbn. intuition discriminate.
Qed.

Lemma each_pr_quiet (fuel : nat) (seen todo : list PR) :
  5 <= fuel -> quiet (each_pr fuel seen todo).
Proof.
  intro Hfuel. revert seen.
  induction todo as [|pr todo IH]; intro seen; cbn [each_pr].
  - apply quiet_returns_quiet, skip_quiet_returns.
  - apply seq_quiet; [apply perform_quiet; [discriminate|]
                     | apply seq_quiet; [now apply step_loop_quiet | apply IH]].
    apply gather_exception.
Qed.

Lemma nested_data_model_quiet (fuel : nat) (pr : PR) (batch : list PR) :
  5 <= fuel -> quiet (pull_request_nested_data_model fuel (pr :: batch)).
Proof.
  intros Hfuel st. unfold pull_request_nested_data_model.
  destruct (each_pr_quiet fuel [] (pr :: batch) Hfuel
              (mkState (world st) (calls st ++ [nested_data (pr :: batch)])))
    as (o & st' & cs & Hrun & Ho & Hcalls & Hno).
  exists o, st', (nested_data (pr :: batch) :: cs).
  split; [assumption|]. split; [assumption|].
  split; [rewrite Hcalls; cbn [calls]; now rewrite <- app_assoc|].
  intros [H|H]; [discriminate | contradiction].
Qed.

(** X14 (the last statement is always reached): whatever instances of
    [Exception] the fetch of the batch, the four sub-models, the gathering
    and the steps raise, and whether there is a batch or not,
    [pull_requests_model], from the fetch of the batch on, ends by running
    its last statement, the call of [register_task_completion] of line 627,
    in the state the fetch and the sub-models left: what the model returns or
    raises is what that call returns or raises.  (What the fetch itself
    registers, at line 417, is inside [get_pk_source_prs] here.) *)
Theorem the_last_statement_is_always_reached (fuel : nat) (st : state) :
  5 <= fuel ->
  exists st1 cs,
    pull_requests_model fuel st
    = perform task_completion register_task_completion st1
    /\ calls st1 = calls st ++ get_source_prs :: cs
    /\ (fst (get_pk_source_prs (world st)) = inl []
        \/ fst (get_pk_source_prs (world st)) = inr ordinary ->
        st1 = mkState (snd (get_pk_source_prs (world st)))
                (calls st ++ [get_source_prs])).
Proof.
  intro Hfuel. unfold pull_requests_model.
  assert (Hget := source_prs_exception (world st)).
  destruct (get_pk_source_prs (world st)) as [got w]. cbn [fst snd] in *.
  set (st0 := mkState w (calls st ++ [get_source_prs])).
  assert (Hbody : forall batch : list PR,
             quiet_returns
               (match batch with
                | [] => skip
                | _ =>
                    try_pass_finally
                      (perform (comments batch) (comments_model batch))
                      (try_pass_finally
                         (perform (events batch) (events_model batch))
                         (try_pass_finally
                            (perform (reviews batch) (reviews_model batch))
                            (try_pass_finally
                               (pull_request_nested_data_model fuel batch)
                               skip)))
                end)).
  { intros [|pr batch]; [apply skip_quiet_returns|].
    repeat (apply try_pass_finally_quiet;
            [apply perform_quiet; [discriminate|]|]);
      auto using comments_exception, events_exception, reviews_exception.
    apply try_pass_finally_quiet;
      [now apply nested_data_model_quiet | apply skip_quiet_returns]. }
  destruct got as [[|pr batch]|[|]].
  - exists st0, []. unfold seq, skip. split; [reflexivity|].
    split; [reflexivity | intros _; reflexivity].
  - unfold seq.
    destruct (Hbody (pr :: batch) st0) as (st2 & cs & -> & Hcalls & _).
    exists st2, cs. split; [reflexivity|]. split.
    + rewrite Hcalls. subst st0. cbn [calls]. now rewrite <- app_assoc.
    + intros [H|H]; discriminate.
  - exists st0, []. unfold seq, skip. split; [reflexivity|].
    split; [reflexivity | intros _; reflexivity].
  - contradiction.
Qed.

End OnlyExceptions.

End Models.

Arguments mkState {W PR} world calls.
Arguments calls {W PR} s.
Arguments world {W PR} s.
Arguments get_source_prs {PR}.
Arguments task_completion {PR}.
Arguments comments {PR} batch.
Arguments events {PR} batch.
Arguments reviews {PR} batch.
Arguments nested_data {PR} batch.
Arguments gathered {PR} pr.
Arguments labels {PR} seen.
Arguments reviewers {PR} seen.
Arguments assignees {PR} seen.
Arguments meta {PR} seen.
Arguments sub_models {PR} cs.
Arguments step_calls {PR} seen.
Arguments prefixes {PR} seen todo.
Arguments nested_calls {PR} seen todo.

Lemma failures_do_not_stop_the_siblings_witness :
  (exists st',
      pull_requests_model nat nat two_prs writes writes fails gathers
        fails writes fails writes registers 5 (mkState 0 [])
      = Some (Returns, st')
      /\ world st' = 6
      /\ sub_models (calls st')
         = [comments [1; 2]; events [1; 2]; reviews [1; 2];
            nested_data [1; 2]])
  /\ (exists st',
         step_loop nat nat fails writes fails writes 5 1 [1] (mkState 0 [])
         = Some (Returns, st')
         /\ calls st' = [labels [1]; reviewers [1]; assignees [1]; meta [1]]
         /\ world st' = 2).
Proof.
  destruct (failures_do_not_stop_the_siblings nat nat two_prs writes writes
              fails gathers fails writes fails writes registers 5 (le_n 5))
    as [Hmodels Hsteps].
  split.
  - destruct (Hmodels (mkState 0 []) [1; 2] 0 eq_refl
                ltac:(discriminate))
      as [(o & st' & Hrun & Hcalls) (o4 & st4 & Hnested & Hmodel)].
    cbv in Hnested. injection Hnested as <- <-.
    rewrite Hmodel in Hrun. cbv in Hrun. injection Hrun as <- <-.
    eexists. split; [exact Hmodel|]. split; reflexivity.
  - apply (Hsteps [1] (mkState 0 [])); intro w; discriminate.
Defined.

Lemma steps_run_over_the_pull_requests_so_far_witness :
  exists st',
    pull_request_nested_data_model nat nat two_prs gathers
      fails writes fails writes 5 [1; 2; 3] (mkState 0 [])
    = Some (Returns, st')
    /\ calls st'
       = [nested_data [1; 2; 3];
          gathered 1; labels [1]; reviewers [1]; assignees [1]; meta [1];
          gathered 2; labels [1; 2]; reviewers [1; 2]; assignees [1; 2];
          meta [1; 2];
          gathered 3; labels [1; 2; 3]; reviewers [1; 2; 3];
          assignees [1; 2; 3]; meta [1; 2; 3]]
    /\ List.length (nested_calls [] [1; 2; 3]) = 15.
Proof.
  exact (steps_run_over_the_pull_requests_so_far nat nat two_prs gathers
           fails writes fails writes
           ltac:(intros; discriminate) ltac:(intros; discriminate)
           ltac:(intros; discriminate) ltac:(intros; discriminate)
           5 1 [2; 3] (mkState 0 []) (le_n 5) (fun _ _ => eq_refl)).
Defined.

Lemma gather_failure_ends_the_nested_model_witness :
  exists st',
    pull_request_nested_data_model nat nat two_prs gathers_but_two
      writes writes writes writes 5 [1; 2; 3] (mkState 0 [])
    = Some (Raises ordinary, st')
    /\ calls st'
       = [nested_data [1; 2; 3];
          gathered 1; labels [1]; reviewers [1]; assignees [1]; meta [1];
          gathered 2].
Proof.
  apply (gather_failure_ends_the_nested_model nat nat two_prs gathers_but_two
           writes writes writes writes
           ltac:(intros; discriminate) ltac:(intros; discriminate)
           ltac:(intros; discriminate) ltac:(intros; discriminate)
           5 [1] 2 [3] ordinary (mkState 0 []) (le_n 5)).
  - intros p w [<-|[]]. reflexivity.
  - reflexivity.
Defined.

Lemma the_last_statement_is_always_reached_witness :
  exists st1 cs,
    pull_requests_model nat nat two_prs writes writes fails gathers_but_two
      fails writes fails writes registers 5 (mkState 0 [])
    = perform nat nat task_completion registers st1
    /\ calls st1 = [] ++ get_source_prs :: cs
    /\ (fst (two_prs 0) = inl [] \/ fst (two_prs 0) = inr ordinary ->
        st1 = mkState (snd (two_prs 0)) ([] ++ [get_source_prs])).
Proof.
  apply (the_last_statement_is_always_reached nat nat two_prs writes writes
           fails gathers_but_two fails writes fails writes registers);
    try (intros; discriminate).
  - intros pr w. unfold gathers_but_two. destruct (pr =? 2)%nat; discriminate.
  - apply le_n.
Defined.

End Orchestrator.

(** ** [_get_pk_source_prs] and [pull_request_comments_model] *)

Module Worker.
Import Py.
#[local] Open Scope string_scope.
#[local] Open Scope list_scope.

(** The methods of the worker base the two functions call, with the
    arguments that tell the calls apart. *)
Inductive call : Type :=
| write_debug_data (data : value) (name : string)
| register_task_completion (model : string)
| text_clean (data : value) (field : string)
| enrich_cntrb_id (data : value) (key : string)
| bulk_insert (table : string) (insert : list (list (string * value)))
    (update : option value) (unique_columns : value)
| enrich_data_primary_keys (source_data : value) (table : string)
    (gh_merge_fields augur_merge_fields : value)
| message_ids (pk_source_prs : list value)
| insert_pull_request_commit (pr_commit_row : list (string * value)).

(** [pr_action_map] *)
Definition pr_action_map : value :=
  VDict [("insert", VDict [("source", VList [VStr "id"]);
                           ("augur", VList [VStr "pr_src_id"])]);
         ("update", VDict [("source", VList [VStr "state"]);
                           ("augur", VList [VStr "pr_src_state"])])].

(** [comment_action_map], [comment_ref_action_map] *)
Definition comment_action_map : value :=
  VDict [("insert", VDict [("source", VList [VStr "id"]);
                           ("augur", VList [VStr "platform_msg_id"])])].

Definition comment_ref_action_map : value :=
  VDict [("insert",
          VDict [("source", VList [VStr "id"]);
                 ("augur", VList [VStr "pr_message_ref_src_comment_id"])])].

Definition is_bulk_insert (c : call) : bool :=
  match c with bulk_insert _ _ _ _ => true | _ => false end.

Definition is_register (c : call) : bool :=
  match c with register_task_completion _ => true | _ => false end.

(** The tables the bulk inserts of a log were made into. *)
Definition inserted_tables (calls : list call) : list string :=
  flat_map (fun c => match c with
                     | bulk_insert table _ _ _ => [table]
                     | _ => []
                     end) calls.

(** *** A base to run the models on

    The world counts the calls.  The enrichments return the records they are
    given, but for the enrichment with the primary keys of one table, which
    raises. *)
Definition answers (failing_table : string) (c : call) (n : nat)
  : result value * nat :=
  match c with
  | text_clean data _ | enrich_cntrb_id data _ => (Return data, S n)
  | enrich_data_primary_keys data table _ _ =>
      if String.eqb table failing_table then (Raise KeyError, S n)
      else (Return data, S n)
  | message_ids _ => (Return (VList []), S n)
  | _ => (Return VNone, S n)
  end.

(** A pagination that returns [increment] and does nothing else. *)
Definition serves {S : Type} (increment : value) (url : string) (s : S)
  : result value * S :=
  (Return increment, s).

(** A sub-model or a step that returns. *)
Definition idle {A S : Type} (_ : A) (s : S) : Orchestrator.outcome * S :=
  (Orchestrator.Returns, s).

Definition increment_fields (insert : list value) : list (string * value) :=
  [("insert", VList insert); ("update", VList []); ("all", VList insert)].

Definition example_prs : list value :=
  [VDict (InsertRows.example_pr_fields (VInt 5));
   VDict (InsertRows.example_pr_fields VNone);
   VDict (InsertRows.example_pr_fields (VInt 6))].

Definition example_comments : list value :=
  [VDict (InsertRows.example_comment_fields (VInt 5));
   VDict (InsertRows.example_comment_fields (VInt 0))].

Definition good_comment : value :=
  VDict (InsertRows.example_comment_fields (VInt 5)).

Definition good_comment_rows : list (list (string * value)) :=
  match InsertRows.pr_comments_insert InsertRows.text_of InsertRows.no_number
          1 [good_comment] with
  | Return rows => rows
  | Raise _ => []
  end.

Section Base.

(** The database and whatever else the worker base acts on, and what a call
    of the base returns or raises. *)
Variable DB : Type.
Variable respond : call -> DB -> result value * DB.

(** The worker: the world of its base, [self.pk_source_prs], and the calls
    made so far. *)
Record worker : Type := mkWorker {
  db : DB;
  pk_source_prs : list value;
  log : list call
}.

Definition M (A : Type) : Type := worker -> result A * worker.

(** [self.paginate_endpoint(url, ..., stagger=True, insertion_method=...)]:
    it calls the insertion method as it goes, so that it may change the whole
    worker. *)
Variable paginate_endpoint : string -> M value.
(** [self.deep_collection], set to [True] when the worker is made. *)
Variable deep_collection : bool.
Variable clean_text : value -> string.
Variable int_of_text : string -> option Z.
Variable repo_id : Z.

Definition ret {A} (a : A) : M A := fun s => (Return a, s).
Definition raise {A} (e : exn) : M A := fun s => (Raise e, s).

Definition bind {A B} (m : M A) (k : A -> M B) : M B :=
  fun s =>
    match m s with
    | (Return a, s') => k a s'
    | (Raise e, s') => (Raise e, s')
    end.

Notation "x <- m ;; k" := (bind m (fun x => k))
  (at level 61, m at next level, right associativity).

Definition lift {A} (r : result A) : M A := fun s => (r, s).

(** A call of the base. *)
Definition invoke (c : call) : M value :=
  fun s =>
    let (r, db') := respond c (db s) in
    (r, mkWorker db' (pk_source_prs s) (log s ++ [c])).

(** [try: body / except Exception as e: handler] *)
Definition try_except {A} (body : M A) (handler : M A) : M A :=
  fun s =>
    match body s with
    | (Raise _, s') => handler s'
    | returned => returned
    end.

(** [self.pk_source_prs += items] *)
Definition extend_pk_source_prs (items : list value) : M unit :=
  fun s => (Return tt, mkWorker (db s) (pk_source_prs s ++ items) (log s)).

(** The end of [pk_source_increment_insert], from [if self.deep_collection]
    on; [source_data] is bound when the rows were written. *)
Definition keep_primary_keys (inc_source_prs : value)
  (source_data : option value) : M value :=
  source_data <-
    (if deep_collection then lift (getitem inc_source_prs "all")
     else match source_data with
          | Some data => ret data
          | None => raise UnboundLocalError
          end) ;;
  enriched <- invoke (enrich_data_primary_keys source_data "pull_requests"
                        (VList [VStr "id"]) (VList [VStr "pr_src_id"])) ;;
  items <- lift (iterate enriched) ;;
  _ <- extend_pk_source_prs items ;;
  ret VNone.

(** [pk_source_increment_insert(inc_source_prs, action_map)] of
    [_get_pk_source_prs]. *)
Definition pk_source_increment_insert (inc_source_prs action_map : value)
  : M value :=
  _ <- invoke (write_debug_data inc_source_prs "source_prs") ;;
  all <- lift (getitem inc_source_prs "all") ;;
  n_all <- lift (py_len all) ;;
  if (n_all =? 0)%nat then
    _ <- invoke (register_task_completion "pull_requests") ;;
    ret (VBool false)
  else
    insert <- lift (getitem inc_source_prs "insert") ;;
    n_insert <- lift (py_len insert) ;;
    inc_source_prs <-
      (if (0 <? n_insert)%nat then
         insert <- lift (getitem inc_source_prs "insert") ;;
         enriched <- invoke (enrich_cntrb_id insert "user.login") ;;
         lift (setitem inc_source_prs "insert" enriched)
       else ret inc_source_prs) ;;
    insert <- lift (getitem inc_source_prs "insert") ;;
    records <- lift (iterate insert) ;;
    prs_insert <- lift (InsertRows.prs_insert clean_text repo_id records) ;;
    insert <- lift (getitem inc_source_prs "insert") ;;
    n_insert <- lift (py_len insert) ;;
    to_write <-
      (if (0 <? n_insert)%nat then ret true
       else
         update <- lift (getitem inc_source_prs "update") ;;
         n_update <- lift (py_len update) ;;
         ret (0 <? n_update)%nat) ;;
    if to_write : bool then
      update <- lift (getitem inc_source_prs "update") ;;
      by_insert <- lift (getitem action_map "insert") ;;
      unique_columns <- lift (getitem by_insert "augur") ;;
      _ <- invoke (bulk_insert "pull_requests" prs_insert (Some update)
                     unique_columns) ;;
      insert <- lift (getitem inc_source_prs "insert") ;;
      update <- lift (getitem inc_source_prs "update") ;;
      source_data <- lift (py_add insert update) ;;
      keep_primary_keys inc_source_prs (Some source_data)
    else if negb deep_collection then ret VNone
    else keep_primary_keys inc_source_prs None.

(** [_get_pk_source_prs] *)
Definition _get_pk_source_prs : M (list value) :=
  source_prs <- paginate_endpoint "pulls" ;;
  _ <- pk_source_increment_insert source_prs pr_action_map ;;
  fun s => (Return (pk_source_prs s), mkWorker (db s) [] (log s)).

(** [pr_comments_insert(inc_pr_comments, comment_action_map,
    comment_ref_action_map)] of [pull_request_comments_model].  The handler
    of the first key enrichment reads [c_pk_source_comments], which the
    failed assignment has left unbound; the list of the second enrichment is
    read after its [try] statement, bound or not.  The length logged inside
    that [try] changes nothing and is left out. *)
Definition pr_comments_insert
  (inc_pr_comments comment_action_map comment_ref_action_map : value)
  : M value :=
  insert <- lift (getitem inc_pr_comments "insert") ;;
  cleaned <- invoke (text_clean insert "body") ;;
  inc_pr_comments <- lift (setitem inc_pr_comments "insert" cleaned) ;;
  insert <- lift (getitem inc_pr_comments "insert") ;;
  n_insert <- lift (py_len insert) ;;
  inc_pr_comments <-
    (if (0 <? n_insert)%nat then
       insert <- lift (getitem inc_pr_comments "insert") ;;
       enriched <- invoke (enrich_cntrb_id insert "user.login") ;;
       lift (setitem inc_pr_comments "insert" enriched)
     else ret inc_pr_comments) ;;
  insert <- lift (getitem inc_pr_comments "insert") ;;
  records <- lift (iterate insert) ;;
  rows <- lift (InsertRows.pr_comments_insert clean_text int_of_text repo_id
                  records) ;;
  _ <- try_except
         (by_insert <- lift (getitem comment_action_map "insert") ;;
          unique_columns <- lift (getitem by_insert "augur") ;;
          invoke (bulk_insert "message" rows None unique_columns))
         (ret VNone) ;;
  c_pk_source_comments <-
    try_except
      (insert <- lift (getitem inc_pr_comments "insert") ;;
       by_insert <- lift (getitem comment_action_map "insert") ;;
       source <- lift (getitem by_insert "source") ;;
       by_insert <- lift (getitem comment_action_map "insert") ;;
       augur <- lift (getitem by_insert "augur") ;;
       invoke (enrich_data_primary_keys insert "message" source augur))
      (raise UnboundLocalError) ;;
  _ <- lift (py_len c_pk_source_comments) ;;
  both_pk_source_comments <-
    try_except
      (both <- invoke (enrich_data_primary_keys c_pk_source_comments
                         "pull_requests" (VList [VStr "pull_request_url"])
                         (VList [VStr "pr_url"])) ;;
       ret (Some both))
      (ret None) ;;
  match both_pk_source_comments with
  | None => raise UnboundLocalError
  | Some both_pk_source_comments =>
      _ <- lift (py_len both_pk_source_comments) ;;
      records <- lift (iterate both_pk_source_comments) ;;
      ref_rows <- lift (InsertRows.pr_message_ref_insert int_of_text repo_id
                          records) ;;
      _ <- try_except
             (by_insert <- lift (getitem comment_ref_action_map "insert") ;;
              unique_columns <- lift (getitem by_insert "augur") ;;
              invoke (bulk_insert "pull_request_message_ref" ref_rows None
                        unique_columns))
             (ret VNone) ;;
      ret VNone
  end.

(** [pull_request_comments_model(pk_source_prs)]: the whole of it is inside
    [try: ... except Exception: pass].  [message_ids] is the query of the
    message ids of the batch, made for the where clause. *)
Definition pull_request_comments_model (pk_source_prs : list value)
  : M value :=
  try_except
    (_ <- invoke (message_ids pk_source_prs) ;;
     pr_comments <- paginate_endpoint "pulls/comments" ;;
     _ <- pr_comments_insert pr_comments comment_action_map
            comment_ref_action_map ;;
     ret VNone)
    (ret VNone).

(** *** [pull_requests_model] over these two *)

Definition outcome_of {A} (run : result A * worker)
  : Orchestrator.outcome * worker :=
  (match fst run with
   | Return _ => Orchestrator.Returns
   | Raise _ => Orchestrator.Raises Orchestrator.ordinary
   end, snd run).

Definition source_prs_or_raised (s : worker)
  : (list value + Orchestrator.raised) * worker :=
  match _get_pk_source_prs s with
  | (Return prs, s') => (inl prs, s')
  | (Raise _, s') => (inr Orchestrator.ordinary, s')
  end.

(** The sub-models and steps that are not modelled here. *)
Variables events_model reviews_model
  : list value -> worker -> Orchestrator.outcome * worker.
Variable gather : value -> worker -> Orchestrator.outcome * worker.
Variables labels_step reviewers_step assignees_step meta_step
  : list value -> worker -> Orchestrator.outcome * worker.

Definition pull_requests_model (fuel : nat)
  : Orchestrator.stmt worker value :=
  Orchestrator.pull_requests_model worker value
    source_prs_or_raised
    (fun batch s => outcome_of (pull_request_comments_model batch s))
    events_model reviews_model gather
    labels_step reviewers_step assignees_step meta_step
    (fun s => outcome_of (invoke (register_task_completion "pull_requests") s))
    fuel.

(** *** The commits of a pull request *)

(** [pr_commit_row] of [pull_request_commits_model]. *)
Definition pr_commit_row (pull_request_id pr_commit : value)
  : result (list (string * value)) :=
  InsertRows.build
    [("pull_request_id", Return pull_request_id);
     ("pr_cmt_sha", getitem pr_commit "sha");
     ("pr_cmt_node_id", getitem pr_commit "node_id");
     ("pr_cmt_message",
      InsertRows.bind (getitem pr_commit "commit")
        (fun commit => getitem commit "message"));
     ("tool_source", Return (VStr InsertRows.tool_source));
     ("tool_version", Return (VStr InsertRows.tool_version));
     ("data_source", Return (VStr "GitHub API"));
     ("repo_id", Return (VInt repo_id))].

(** The body of [for pr_commit in pr_commits], a [try] statement whose
    handler goes on with the next commit. *)
Definition insert_pr_commit (pull_request_id pr_commit : value) : M unit :=
  try_except
    (flag <- lift (getitem pr_commit "flag") ;;
     if str_eq flag "need_insertion" then
       row <- lift (pr_commit_row pull_request_id pr_commit) ;;
       _ <- invoke (insert_pull_request_commit row) ;;
       ret tt
     else ret tt)
    (ret tt).

Fixpoint each_pr_commit (pull_request_id : value) (pr_commits : list value)
  : M unit :=
  match pr_commits with
  | [] => ret tt
  | pr_commit :: pr_commits' =>
      _ <- insert_pr_commit pull_request_id pr_commit ;;
      each_pr_commit pull_request_id pr_commits'
  end.

(** The rows of the commits that are flagged for insertion and have the
    fields of a row. *)
Definition commit_rows (pull_request_id : value) (pr_commits : list value)
  : list (list (string * value)) :=
  flat_map
    (fun pr_commit =>
       match getitem pr_commit "flag" with
       | Return flag =>
           if str_eq flag "need_insertion" then
             match pr_commit_row pull_request_id pr_commit with
             | Return row => [row]
             | Raise _ => []
             end
           else []
       | Raise _ => []
       end)
    pr_commits.

(** *** What the calls leave of [self.pk_source_prs] *)

(** A computation that leaves [self.pk_source_prs] as it is; one that adds
    to it when it returns and leaves it as it is when it raises. *)
Definition keeps {A} (m : M A) : Prop :=
  forall s, pk_source_prs (snd (m s)) = pk_source_prs s.

Definition grows {A} (m : M A) : Prop :=
  forall s,
    match m s with
    | (Return _, s') => exists new, pk_source_prs s' = pk_source_prs s ++ new
    | (Raise _, s') => pk_source_prs s' = pk_source_prs s
    end.

Lemma keeps_ret {A} (a : A) : keeps (ret a).
Proof. intro s. reflexivity. Qed.

Lemma keeps_raise {A} (e : exn) : keeps (@raise A e).
Proof. intro s. reflexivity. Qed.

Lemma keeps_lift {A} (r : result A) : keeps (lift r).
Proof. intro s. reflexivity. Qed.

Lemma keeps_invoke (c : call) : keeps (invoke c).
Proof. intro s. unfold invoke. now destruct (respond c (db s)). Qed.

Lemma keeps_bind {A B} (m : M A) (k : A -> M B) :
  keeps m -> (forall a, keeps (k a)) -> keeps (bind m k).
Proof.
  intros Hm Hk s. unfold bind. specialize (Hm s).
  destruct (m s) as [[a|e] s1]; cbn [snd] in *; [|assumption].
  now rewrite Hk.
Qed.

Lemma grows_bind {A B} (m : M A) (k : A -> M B) :
  keeps m -> (forall a, grows (k a)) -> grows (bind m k).
Proof.
  intros Hm Hk s. unfold bind. specialize (Hm s).
  destruct (m s) as [[a|e] s1]; cbn [snd] in *; [|assumption].
  specialize (Hk a s1). destruct (k a s1) as [[b|e] s2]; now rewrite <- Hm.
Qed.

Lemma keeps_grows {A} (m : M A) : keeps m -> grows m.
Proof.
  intros Hm s. specialize (Hm s). destruct (m s) as [[a|e] s1];
    cbn [snd] in *; [|assumption].
  exists []. now rewrite app_nil_r.
Qed.

Ltac keeps_all :=
  repeat first
    [ apply keeps_ret | apply keeps_raise | apply keeps_lift
    | apply keeps_invoke
    | apply keeps_bind; [|intro]
    | match goal with
      | |- keeps (if ?b then _ else _) => destruct b
      | |- keeps (match ?x with _ => _ end) => destruct x
      end ].

Lemma keep_primary_keys_grows (inc_source_prs : value)
  (source_data : option value) :
  grows (keep_primary_keys inc_source_prs source_data).
Proof.
  unfold keep_primary_keys.
  apply grows_bind; [keeps_all | intro data].
  apply grows_bind; [keeps_all | intro enriched].
  apply grows_bind; [keeps_all | intro items].
  intro s. cbn. now exists items.
Qed.

Lemma pk_source_increment_insert_grows (inc_source_prs action_map : value) :
  grows (pk_source_increment_insert inc_source_prs action_map).
Proof.
  unfold pk_source_increment_insert.
  apply grows_bind; [keeps_all | intros _].
  apply grows_bind; [keeps_all | intro all].
  apply grows_bind; [keeps_all | intro n_all].
  destruct (n_all =? 0)%nat; [apply keeps_grows; keeps_all|].
  apply grows_bind; [keeps_all | intro insert].
  apply grows_bind; [keeps_all | intro n_insert].
  apply grows_bind; [keeps_all | intro inc].
  apply grows_bind; [keeps_all | intro insert'].
  apply grows_bind; [keeps_all | intro records].
  apply grows_bind; [keeps_all | intro rows].
  apply grows_bind; [keeps_all | intro insert''].
  apply grows_bind; [keeps_all | intro n_insert'].
  apply grows_bind; [keeps_all | intro to_write].
  destruct to_write.
  - apply grows_bind; [keeps_all | intro update].
    apply grows_bind; [keeps_all | intro by_insert].
    apply grows_bind; [keeps_all | intro unique_columns].
    apply grows_bind; [keeps_all | intros _].
    apply grows_bind; [keeps_all | intro insert3].
    apply grows_bind; [keeps_all | intro update3].
    apply grows_bind; [keeps_all | intro source_data].
    apply keep_primary_keys_grows.
  - destruct (negb deep_collection); [apply keeps_grows; keeps_all|].
    apply keep_primary_keys_grows.
Qed.

(** X17 (what [self.pk_source_prs] holds after the call): once
    [paginate_endpoint] has returned, [_get_pk_source_prs] either returns,
    and then it returns what the attribute held after the pagination with
    what the last increment added, and leaves the attribute empty; or it
    raises, and then the attribute still holds what it held after the
    pagination: a failed call does not empty it. *)
Theorem pk_source_prs_after_the_call (s s1 : worker) (source_prs : value) :
  paginate_endpoint "pulls" s = (Return source_prs, s1) ->
  match _get_pk_source_prs s with
  | (Return prs, s') =>
      pk_source_prs s' = []
      /\ exists new, prs = pk_source_prs s1 ++ new
  | (Raise _, s') => pk_source_prs s' = pk_source_prs s1
  end.
Proof.
  intro Hpaginate. unfold _get_pk_source_prs, bind. rewrite Hpaginate.
  assert (H := pk_source_increment_insert_grows source_prs pr_action_map s1).
  destruct (pk_source_increment_insert source_prs pr_action_map s1)
    as [[v|e] s2]; [|assumption].
  split; [reflexivity | exact H].
Qed.

(** *** A repository without pull requests *)

Lemma no_pull_requests_increment (inc_source_prs action_map all v : value)
  (db1 : DB) (s1 : worker) :
  getitem inc_source_prs "all" = Return all -> py_len all = Return 0%nat ->
  respond (write_debug_data inc_source_prs "source_prs") (db s1)
  = (Return v, db1) ->
  exists r s2,
    pk_source_increment_insert inc_source_prs action_map s1 = (r, s2)
    /\ pk_source_prs s2 = pk_source_prs s1
    /\ log s2 = log s1 ++ [write_debug_data inc_source_prs "source_prs";
                           register_task_completion "pull_requests"].
Proof.
  intros Hall Hlen Hdebug.
  unfold pk_source_increment_insert, bind, invoke, lift.
  rewrite Hdebug, Hall, Hlen. cbn [Nat.eqb db pk_source_prs log].
  destruct (respond (register_task_completion "pull_requests") db1)
    as [[v'|e] db2]; eexists _, _; (split; [reflexivity|]);
    cbn [pk_source_prs log]; now rewrite <- app_assoc.
Qed.

(** X18 (a repository without pull requests): when the pagination returns
    no pull request at all, the last increment registers the completion of
    the task and returns, [_get_pk_source_prs] returns an empty batch, and
    [pull_requests_model], which runs no sub-model on an empty batch,
    registers the completion of the task again: two registrations for the one
    task, whether the first of them raises or not. *)
Theorem no_pull_requests_registers_twice (s s1 : worker)
  (source_prs all v : value) (db1 : DB)
  (cs : list (Orchestrator.call value)) (fuel : nat) :
  paginate_endpoint "pulls" s = (Return source_prs, s1) ->
  pk_source_prs s1 = [] ->
  getitem source_prs "all" = Return all -> py_len all = Return 0%nat ->
  respond (write_debug_data source_prs "source_prs") (db s1)
  = (Return v, db1) ->
  exists o st',
    pull_requests_model fuel (Orchestrator.mkState s cs) = Some (o, st')
    /\ Orchestrator.calls st'
       = cs ++ [Orchestrator.get_source_prs; Orchestrator.task_completion]
    /\ log (Orchestrator.world st')
       = log s1 ++ [write_debug_data source_prs "source_prs";
                    register_task_completion "pull_requests";
                    register_task_completion "pull_requests"].
Proof.
  intros Hpaginate Hpk Hall Hlen Hdebug.
  destruct (no_pull_requests_increment source_prs pr_action_map all v db1 s1
              Hall Hlen Hdebug) as (r & s2 & Hrun & Hpk2 & Hlog2).
  unfold pull_requests_model, Orchestrator.pull_requests_model,
    source_prs_or_raised, _get_pk_source_prs, bind.
  cbn [Orchestrator.world]. rewrite Hpaginate, Hrun.
  assert (Hregister : forall s3 : worker,
             log s3 = log s2 ->
             exists o st',
               Orchestrator.seq worker value (Orchestrator.skip worker value)
                 (Orchestrator.perform worker value
                    Orchestrator.task_completion
                    (fun s => outcome_of
                       (invoke (register_task_completion "pull_requests") s)))
                 (Orchestrator.mkState s3
                    (cs ++ [Orchestrator.get_source_prs]))
               = Some (o, st')
               /\ Orchestrator.calls st'
                  = cs ++ [Orchestrator.get_source_prs;
                           Orchestrator.task_completion]
               /\ log (Orchestrator.world st')
                  = log s1 ++ [write_debug_data source_prs "source_prs";
                               register_task_completion "pull_requests";
                               register_task_completion "pull_requests"]).
  { intros s3 Hlog3.
    unfold Orchestrator.seq, Orchestrator.skip, Orchestrator.perform,
      outcome_of, invoke.
    cbn [Orchestrator.world Orchestrator.calls].
    destruct (respond (register_task_completion "pull_requests") (db s3))
      as [r' db3].
    eexists _, _. split; [reflexivity|].
    cbn [Orchestrator.world Orchestrator.calls snd log].
    rewrite Hlog3, Hlog2, <- !app_assoc. now split. }
  destruct r as [v'|e]; cbn [Orchestrator.calls].
  - rewrite Hpk2, Hpk. now apply Hregister.
  - now apply Hregister.
Qed.

(** *** A pull request with a falsy contributor id *)

Lemma lookup_set_key (d : list (string * value)) (key : string) (v : value) :
  lookup (set_key d key v) key = Some v.
Proof.
  induction d as [|[k x] d IH]; cbn [set_key lookup].
  - now rewrite String.eqb_refl.
  - destruct (String.eqb k key) eqn:E; cbn [lookup]; now rewrite E.
Qed.

Lemma getitem_set_key (d : list (string * value)) (key : string) (v : value) :
  getitem (VDict (set_key d key v)) key = Return v.
Proof. cbn [getitem]. now rewrite lookup_set_key. Qed.

Lemma falsy_increment (fields : list (string * value))
  (action_map all insert v : value) (n m : nat) (db1 db2 : DB)
  (before after : list value) (d : list (string * value)) (c : value)
  (s1 : worker) :
  getitem (VDict fields) "all" = Return all -> py_len all = Return (S n) ->
  getitem (VDict fields) "insert" = Return insert ->
  py_len insert = Return (S m) ->
  respond (write_debug_data (VDict fields) "source_prs") (db s1)
  = (Return v, db1) ->
  respond (enrich_cntrb_id insert "user.login") db1
  = (Return (VList (before ++ VDict d :: after)), db2) ->
  Forall (fun pr => exists row,
            InsertRows.pr_insert_row clean_text repo_id pr = Return row)
         before ->
  lookup d "cntrb_id" = Some c -> truthy c = false ->
  InsertRows.present d
    ["url"; "id"; "node_id"; "html_url"; "diff_url"; "patch_url";
     "issue_url"; "number"; "state"; "locked"; "title"] = true ->
  pk_source_increment_insert (VDict fields) action_map s1
  = (Raise NameError,
     mkWorker db2 (pk_source_prs s1)
       (log s1 ++ [write_debug_data (VDict fields) "source_prs";
                   enrich_cntrb_id insert "user.login"])).
Proof.
  intros Hall Hnall Hinsert Hninsert Hdebug Henrich Hbefore Hc Hfalsy Hkeys.
  assert (Hrows : InsertRows.prs_insert clean_text repo_id
                    (before ++ VDict d :: after) = Raise NameError).
  { apply InsertRows.comprehension_raises; [assumption|].
    now apply (InsertRows.pr_insert_row_falsy clean_text repo_id d c). }
  unfold pk_source_increment_insert, bind, invoke, lift, ret.
  rewrite Hdebug, Hall, Hnall. cbn [Nat.eqb db pk_source_prs log].
  rewrite Hinsert, Hninsert. cbn [Nat.ltb Nat.leb db].
  rewrite Henrich. cbn [setitem]. rewrite getitem_set_key.
  cbn [iterate]. rewrite Hrows. cbn [db pk_source_prs log].
  now rewrite <- app_assoc.
Qed.

(** X19 (a falsy contributor id stops the collection): when the enrichment
    of the pull requests to insert leaves one of them with a falsy
    contributor id, the increment raises [NameError] while building
    [prs_insert], before the bulk insert: no pull request of the increment is
    written, [_get_pk_source_prs] raises, and [pull_requests_model], left
    without a batch, runs none of its sub-models and registers the completion
    of the task. *)
Theorem falsy_contributor_id_stops_the_collection (s s1 : worker)
  (fields : list (string * value)) (all insert v : value) (n m : nat)
  (db1 db2 : DB) (before after : list value) (d : list (string * value))
  (c : value) (cs : list (Orchestrator.call value)) (fuel : nat) :
  paginate_endpoint "pulls" s = (Return (VDict fields), s1) ->
  getitem (VDict fields) "all" = Return all -> py_len all = Return (S n) ->
  getitem (VDict fields) "insert" = Return insert ->
  py_len insert = Return (S m) ->
  respond (write_debug_data (VDict fields) "source_prs") (db s1)
  = (Return v, db1) ->
  respond (enrich_cntrb_id insert "user.login") db1
  = (Return (VList (before ++ VDict d :: after)), db2) ->
  Forall (fun pr => exists row,
            InsertRows.pr_insert_row clean_text repo_id pr = Return row)
         before ->
  lookup d "cntrb_id" = Some c -> truthy c = false ->
  InsertRows.present d
    ["url"; "id"; "node_id"; "html_url"; "diff_url"; "patch_url";
     "issue_url"; "number"; "state"; "locked"; "title"] = true ->
  _get_pk_source_prs s
  = (Raise NameError,
     mkWorker db2 (pk_source_prs s1)
       (log s1 ++ [write_debug_data (VDict fields) "source_prs";
                   enrich_cntrb_id insert "user.login"]))
  /\ exists o st',
       pull_requests_model fuel (Orchestrator.mkState s cs) = Some (o, st')
       /\ Orchestrator.calls st'
          = cs ++ [Orchestrator.get_source_prs; Orchestrator.task_completion]
       /\ log (Orchestrator.world st')
          = log s1 ++ [write_debug_data (VDict fields) "source_prs";
                       enrich_cntrb_id insert "user.login";
                       register_task_completion "pull_requests"]
       /\ existsb is_bulk_insert (log (Orchestrator.world st'))
          = existsb is_bulk_insert (log s1).
Proof.
  intros Hpaginate Hall Hnall Hinsert Hninsert Hdebug Henrich Hbefore Hc
    Hfalsy Hkeys.
  assert (Hget : _get_pk_source_prs s
                 = (Raise NameError,
                    mkWorker db2 (pk_source_prs s1)
                      (log s1 ++ [write_debug_data (VDict fields) "source_prs";
                                  enrich_cntrb_id insert "user.login"]))).
  { unfold _get_pk_source_prs, bind. rewrite Hpaginate.
    now rewrite (falsy_increment fields pr_action_map all insert v n m db1 db2
                   before after d c s1). }
  split; [exact Hget|].
  unfold pull_requests_model, Orchestrator.pull_requests_model,
    source_prs_or_raised.
  cbn [Orchestrator.world]. rewrite Hget.
  unfold Orchestrator.seq, Orchestrator.skip, Orchestrator.perform,
    outcome_of, invoke.
  cbn [Orchestrator.world Orchestrator.calls db].
  destruct (respond (register_task_completion "pull_requests") db2)
    as [r' db3].
  eexists _, _. split; [reflexivity|].
  cbn [Orchestrator.world Orchestrator.calls snd log pk_source_prs].
  rewrite <- !app_assoc. split; [reflexivity|]. split; [reflexivity|].
  rewrite existsb_app. cbn. apply orb_false_r.
Qed.

(** *** The comments model *)

(** X20 (a comment with a falsy contributor id): when the enrichment of the
    comments to insert leaves one of them with a falsy contributor id, the
    [NameError] of its row ends [pr_comments_insert] before any bulk insert,
    and the [try] statement around the whole of
    [pull_request_comments_model] swallows it: the model returns, and neither
    a message nor a message reference of the increment has been written. *)
Theorem falsy_contributor_id_loses_the_comments (s s1 : worker)
  (pk_prs : list value) (ids insert cleaned : value)
  (fields : list (string * value)) (m : nat) (db0 db1 db2 : DB)
  (before after : list value) (d : list (string * value)) (c : value) :
  respond (message_ids pk_prs) (db s) = (Return ids, db0) ->
  paginate_endpoint "pulls/comments"
    (mkWorker db0 (pk_source_prs s) (log s ++ [message_ids pk_prs]))
  = (Return (VDict fields), s1) ->
  getitem (VDict fields) "insert" = Return insert ->
  respond (text_clean insert "body") (db s1) = (Return cleaned, db1) ->
  py_len cleaned = Return (S m) ->
  respond (enrich_cntrb_id cleaned "user.login") db1
  = (Return (VList (before ++ VDict d :: after)), db2) ->
  Forall (fun comment => exists row,
            InsertRows.comment_insert_row clean_text int_of_text repo_id
              comment = Return row)
         before ->
  lookup d "cntrb_id" = Some c -> truthy c = false ->
  InsertRows.present d ["body"; "created_at"] = true ->
  pull_request_comments_model pk_prs s
  = (Return VNone,
     mkWorker db2 (pk_source_prs s1)
       (log s1 ++ [text_clean insert "body";
                   enrich_cntrb_id cleaned "user.login"])).
Proof.
  intros Hids Hpaginate Hinsert Hclean Hlen Henrich Hbefore Hc Hfalsy Hkeys.
  assert (Hrows : InsertRows.pr_comments_insert clean_text int_of_text repo_id
                    (before ++ VDict d :: after) = Raise NameError).
  { apply InsertRows.comprehension_raises; [assumption|].
    now apply (InsertRows.comment_insert_row_falsy
                 clean_text int_of_text repo_id d c). }
  unfold pull_request_comments_model, try_except, bind at 1, invoke at 1.
  rewrite Hids. unfold bind at 1. rewrite Hpaginate.
  unfold pr_comments_insert, bind, invoke, lift, ret.
  rewrite Hinsert, Hclean. cbn [setitem]. rewrite !getitem_set_key, Hlen.
  cbn [Nat.ltb Nat.leb db pk_source_prs log]. rewrite Henrich.
  rewrite !getitem_set_key. cbn [iterate]. rewrite Hrows.
  cbn [db pk_source_prs log]. now rewrite <- app_assoc.
Qed.

(** X21 (a key enrichment that fails): when the rows of the comments are
    built and either enrichment with primary keys raises, whatever it raises
    and whether the bulk insert of the messages had succeeded or not,
    [pr_comments_insert] raises [UnboundLocalError] (the handler of the first
    reads the list that was never bound, the statement after the second
    reads it too): the messages have been handed to the bulk insert, the
    message references never are. *)
Theorem failed_key_enrichment_loses_the_references (s1 : worker)
  (insert cleaned : value) (fields : list (string * value)) (m : nat)
  (db1 db2 db3 db4 : DB) (records : list value)
  (rows : list (list (string * value))) (messages written : result value)
  (e : exn) :
  getitem (VDict fields) "insert" = Return insert ->
  respond (text_clean insert "body") (db s1) = (Return cleaned, db1) ->
  py_len cleaned = Return (S m) ->
  respond (enrich_cntrb_id cleaned "user.login") db1
  = (Return (VList records), db2) ->
  InsertRows.pr_comments_insert clean_text int_of_text repo_id records
  = Return rows ->
  respond (bulk_insert "message" rows None (VList [VStr "platform_msg_id"]))
    db2 = (written, db3) ->
  respond (enrich_data_primary_keys (VList records) "message"
             (VList [VStr "id"]) (VList [VStr "platform_msg_id"])) db3
  = (messages, db4) ->
  let first_calls :=
    [text_clean insert "body"; enrich_cntrb_id cleaned "user.login";
     bulk_insert "message" rows None (VList [VStr "platform_msg_id"]);
     enrich_data_primary_keys (VList records) "message"
       (VList [VStr "id"]) (VList [VStr "platform_msg_id"])] in
  (messages = Raise e ->
   pr_comments_insert (VDict fields) comment_action_map
     comment_ref_action_map s1
   = (Raise UnboundLocalError,
      mkWorker db4 (pk_source_prs s1) (log s1 ++ first_calls)))
  /\ (forall c_pk k db5,
        messages = Return c_pk -> py_len c_pk = Return k ->
        respond (enrich_data_primary_keys c_pk "pull_requests"
                   (VList [VStr "pull_request_url"]) (VList [VStr "pr_url"]))
          db4 = (Raise e, db5) ->
        pr_comments_insert (VDict fields) comment_action_map
          comment_ref_action_map s1
        = (Raise UnboundLocalError,
           mkWorker db5 (pk_source_prs s1)
             (log s1 ++ first_calls
              ++ [enrich_data_primary_keys c_pk "pull_requests"
                    (VList [VStr "pull_request_url"])
                    (VList [VStr "pr_url"])]))).
Proof.
  intros Hinsert Hclean Hlen Henrich Hrows Hwrite Hkeys first_calls.
  split.
  - intros ->.
    unfold pr_comments_insert, try_except, bind, invoke, lift, ret, raise.
    rewrite Hinsert, Hclean. cbn [setitem]. rewrite !getitem_set_key, Hlen.
    cbn [Nat.ltb Nat.leb db pk_source_prs log]. rewrite Henrich.
    rewrite !getitem_set_key. cbn [iterate]. rewrite Hrows.
    cbn [comment_action_map getitem lookup String.eqb Ascii.eqb Bool.eqb
           db pk_source_prs log].
    rewrite Hwrite.
    destruct written as [w|e']; cbn [db pk_source_prs log]; rewrite Hkeys;
      cbn [db pk_source_prs log]; subst first_calls;
      now rewrite <- !app_assoc.
  - intros c_pk k db5 -> Hk Hsecond.
    unfold pr_comments_insert, try_except, bind, invoke, lift, ret, raise.
    rewrite Hinsert, Hclean. cbn [setitem]. rewrite !getitem_set_key, Hlen.
    cbn [Nat.ltb Nat.leb db pk_source_prs log]. rewrite Henrich.
    rewrite !getitem_set_key. cbn [iterate]. rewrite Hrows.
    cbn [comment_action_map getitem lookup String.eqb Ascii.eqb Bool.eqb
           db pk_source_prs log].
    rewrite Hwrite.
    destruct written as [w|e']; cbn [db pk_source_prs log]; rewrite Hkeys;
      cbn [db pk_source_prs log]; rewrite Hk; cbn [db pk_source_prs log];
      rewrite Hsecond; cbn [db pk_source_prs log]; subst first_calls;
      now rewrite <- !app_assoc.
Qed.

(** *** The commits model *)

(** X24 (one commit at a time): the loop over the commits of a pull request
    never raises, whatever the records are and whatever the inserts raise; it
    submits, in order, one insert for each commit that is flagged
    [need_insertion] and has a [sha], a [node_id] and a commit message, and
    none for any other: a record without flag, a malformed commit or a failed
    insert costs that commit alone. *)
Theorem each_commit_is_inserted_on_its_own (pull_request_id : value)
  (pr_commits : list value) (s : worker) :
  exists db',
    each_pr_commit pull_request_id pr_commits s
    = (Return tt,
       mkWorker db' (pk_source_prs s)
         (log s ++ map insert_pull_request_commit
                     (commit_rows pull_request_id pr_commits))).
Proof.
  revert s. induction pr_commits as [|pr_commit pr_commits IH]; intro s.
  - exists (db s). cbn. rewrite app_nil_r. now destruct s.
  - cbn [each_pr_commit commit_rows flat_map].
    unfold bind at 1, insert_pr_commit, try_except, bind, lift, ret, invoke.
    destruct (getitem pr_commit "flag") as [flag|e].
    + destruct (str_eq flag "need_insertion").
      * destruct (pr_commit_row pull_request_id pr_commit) as [row|e].
        -- destruct (respond (insert_pull_request_commit row) (db s))
             as [[v|e] db1];
             destruct (IH (mkWorker db1 (pk_source_prs s)
                             (log s ++ [insert_pull_request_commit row])))
               as [db' Hrun];
             exists db'; rewrite Hrun; cbn [pk_source_prs log map app];
             now rewrite <- app_assoc.
        -- destruct (IH s) as [db' Hrun]. exists db'. now rewrite Hrun.
      * destruct (IH s) as [db' Hrun]. exists db'. now rewrite Hrun.
    + destruct (IH s) as [db' Hrun]. exists db'. now rewrite Hrun.
Qed.

End Base.

Arguments mkWorker {DB} db pk_source_prs log.
Arguments db {DB} w.
Arguments pk_source_prs {DB} w.
Arguments log {DB} w.

Lemma pk_source_prs_after_the_call_witness :
  match _get_pk_source_prs nat (answers "")
          (serves (VDict (increment_fields [good_comment]))) true
          InsertRows.text_of 1 (mkWorker 0 [VInt 9] []) with
  | (Return prs, s') =>
      pk_source_prs s' = [] /\ exists new, prs = [VInt 9] ++ new
  | (Raise _, s') => pk_source_prs s' = [VInt 9]
  end.
Proof.
  exact (pk_source_prs_after_the_call nat (answers "")
           (serves (VDict (increment_fields [good_comment]))) true
           InsertRows.text_of 1 (mkWorker 0 [VInt 9] [])
           (mkWorker 0 [VInt 9] [])
           (VDict (increment_fields [good_comment])) eq_refl).
Defined.

Lemma no_pull_requests_registers_twice_witness :
  exists o st',
    pull_requests_model nat (answers "") (serves (VDict (increment_fields [])))
      true InsertRows.text_of InsertRows.no_number 1
      idle idle idle idle idle idle idle 5
      (Orchestrator.mkState (mkWorker 0 [] []) [])
    = Some (o, st')
    /\ Orchestrator.calls st'
       = [] ++ [Orchestrator.get_source_prs; Orchestrator.task_completion]
    /\ log (Orchestrator.world st')
       = [] ++ [write_debug_data (VDict (increment_fields [])) "source_prs";
                register_task_completion "pull_requests";
                register_task_completion "pull_requests"].
Proof.
  apply (no_pull_requests_registers_twice nat (answers "")
           (serves (VDict (increment_fields []))) true
           InsertRows.text_of InsertRows.no_number 1
           idle idle idle idle idle idle idle
           (mkWorker 0 [] []) (mkWorker 0 [] [])
           (VDict (increment_fields [])) (VList []) VNone 1 [] 5);
    reflexivity.
Defined.

Lemma falsy_contributor_id_stops_the_collection_witness :
  fst (_get_pk_source_prs nat (answers "")
         (serves (VDict (increment_fields example_prs))) true
         InsertRows.text_of 1 (mkWorker 0 [] []))
  = Raise NameError
  /\ exists o st',
       pull_requests_model nat (answers "")
         (serves (VDict (increment_fields example_prs)))
         true InsertRows.text_of InsertRows.no_number 1
         idle idle idle idle idle idle idle 5
         (Orchestrator.mkState (mkWorker 0 [] []) [])
       = Some (o, st')
       /\ Orchestrator.calls st'
          = [Orchestrator.get_source_prs; Orchestrator.task_completion]
       /\ inserted_tables (log (Orchestrator.world st')) = [].
Proof.
  destruct (falsy_contributor_id_stops_the_collection nat (answers "")
              (serves (VDict (increment_fields example_prs))) true
              InsertRows.text_of InsertRows.no_number 1
              idle idle idle idle idle idle idle
              (mkWorker 0 [] []) (mkWorker 0 [] [])
              (increment_fields example_prs)
              (VList example_prs) (VList example_prs) VNone 2 2 1 2
              [VDict (InsertRows.example_pr_fields (VInt 5))]
              [VDict (InsertRows.example_pr_fields (VInt 6))]
              (InsertRows.example_pr_fields VNone) VNone [] 5
              eq_refl eq_refl eq_refl eq_refl eq_refl eq_refl eq_refl
              ltac:(repeat constructor; eexists; reflexivity)
              eq_refl eq_refl eq_refl)
    as (Hget & o & st' & Hrun & Hcalls & Hlog & _).
  split; [now rewrite Hget|].
  exists o, st'. split; [exact Hrun|]. split; [exact Hcalls|].
  now rewrite Hlog.
Defined.

Lemma falsy_contributor_id_loses_the_comments_witness :
  let run :=
    pull_request_comments_model nat (answers "")
      (serves (VDict (increment_fields example_comments)))
      InsertRows.text_of InsertRows.no_number 1
      [VDict [("pull_request_id", VInt 11)]] (mkWorker 0 [] []) in
  fst run = Return VNone /\ inserted_tables (log (snd run)) = [].
Proof.
  intro run. subst run.
  rewrite (falsy_contributor_id_loses_the_comments nat (answers "")
             (serves (VDict (increment_fields example_comments)))
             InsertRows.text_of InsertRows.no_number 1
             (mkWorker 0 [] [])
             (mkWorker 1 [] [message_ids [VDict [("pull_request_id", VInt 11)]]])
             [VDict [("pull_request_id", VInt 11)]]
             (VList []) (VList example_comments) (VList example_comments)
             (increment_fields example_comments) 1 1 2 3
             [VDict (InsertRows.example_comment_fields (VInt 5))] []
             (InsertRows.example_comment_fields (VInt 0)) (VInt 0)
             eq_refl eq_refl eq_refl eq_refl eq_refl eq_refl
             ltac:(repeat constructor; eexists; reflexivity)
             eq_refl eq_refl eq_refl).
  split; reflexivity.
Defined.

Lemma failed_key_enrichment_loses_the_references_witness :
  let first_fails :=
    pr_comments_insert nat (answers "message")
      InsertRows.text_of InsertRows.no_number 1
      (VDict (increment_fields [good_comment]))
      comment_action_map comment_ref_action_map (mkWorker 0 [] []) in
  let second_fails :=
    pr_comments_insert nat (answers "pull_requests")
      InsertRows.text_of InsertRows.no_number 1
      (VDict (increment_fields [good_comment]))
      comment_action_map comment_ref_action_map (mkWorker 0 [] []) in
  (fst first_fails = Raise UnboundLocalError
   /\ inserted_tables (log (snd first_fails)) = ["message"])
  /\ (fst second_fails = Raise UnboundLocalError
      /\ inserted_tables (log (snd second_fails)) = ["message"]).
Proof.
  intros first_fails second_fails. subst first_fails second_fails. split.
  - rewrite (proj1 (failed_key_enrichment_loses_the_references nat
                      (answers "message")
                      InsertRows.text_of InsertRows.no_number 1
                      (mkWorker 0 [] [])
                      (VList [good_comment]) (VList [good_comment])
                      (increment_fields [good_comment]) 0 1 2 3 4
                      [good_comment] good_comment_rows
                      (Raise KeyError) (Return VNone) KeyError
                      eq_refl eq_refl eq_refl eq_refl eq_refl eq_refl eq_refl)
               eq_refl).
    split; reflexivity.
  - rewrite (proj2 (failed_key_enrichment_loses_the_references nat
                      (answers "pull_requests")
                      InsertRows.text_of InsertRows.no_number 1
                      (mkWorker 0 [] [])
                      (VList [good_comment]) (VList [good_comment])
                      (increment_fields [good_comment]) 0 1 2 3 4
                      [good_comment] good_comment_rows
                      (Return (VList [good_comment])) (Return VNone) KeyError
                      eq_refl eq_refl eq_refl eq_refl eq_refl eq_refl eq_refl)
               (VList [good_comment]) 1 5 eq_refl eq_refl eq_refl).
    split; reflexivity.
Defined.

End Worker.

(** ** The fetch of [pull_request_files_model] *)

Module FilesFetch.
Import Py.
Import GraphQL.
#[local] Open Scope string_scope.
#[local] Open Scope list_scope.

(** A row of [pr_numbers]: a pull request of the repository as the table
    [pull_requests] has it. *)
Record pull_request : Type := mkPullRequest {
  pr_src_number : value;
  pull_request_id : value
}.

(** An edge of the files query: [{'node': {'additions': ..., 'deletions': ...,
    'path': ...}}]. *)
Definition file_edge (additions deletions path : value) : value :=
  VDict [("node", VDict [("additions", additions); ("deletions", deletions);
                         ("path", path)])].

(** What the endpoint serves for one pull request: its pages, of which the
    last is the one that reports no previous page. *)
Record served : Type := mkServed {
  of_pull_request : pull_request;
  earlier : list page;
  last : page
}.

Definition responses (x : served) : list value :=
  map response_of (earlier x) ++ [response_of (last x)].

Definition all_edges (x : served) : list value :=
  List.concat (map edges (earlier x)) ++ edges (last x).

Definition in_pages (fuel : nat) (x : served) : Prop :=
  Forall (fun p => truthy (previous p) = true) (earlier x)
  /\ truthy (previous (last x)) = false
  /\ 2 + List.length (earlier x) <= fuel.

Definition requests (prs : list served) : nat :=
  list_sum (map (fun x => S (List.length (earlier x))) prs).

Section Fetch.

(** [self.repo_id] *)
Variable repo_id : Z.

(** One row of [pr_file_rows]. *)
Definition pr_file_row (pull_request : pull_request) (pr_file : value)
  : result (list (string * value)) :=
  InsertRows.build
    [("pull_request_id", Return (pull_request_id pull_request));
     ("pr_file_additions",
      InsertRows.bind (getitem pr_file "node")
        (fun node => getitem node "additions"));
     ("pr_file_deletions",
      InsertRows.bind (getitem pr_file "node")
        (fun node => getitem node "deletions"));
     ("pr_file_path",
      InsertRows.bind (getitem pr_file "node")
        (fun node => getitem node "path"));
     ("tool_source", Return (VStr InsertRows.tool_source));
     ("tool_version", Return (VStr InsertRows.tool_version));
     ("data_source", Return (VStr "GitHub API"));
     ("repo_id", Return (VInt repo_id))].

(** The loop that fills [pr_file_rows]: for each pull request, the rows of
    the files the paginator returns for it.  [fuel] is that of each call of
    the paginator. *)
Fixpoint pr_file_rows (fuel : nat) (pr_numbers : list pull_request)
  (rows_so_far : list (list (string * value)))
  : M (list (list (string * value))) :=
  match pr_numbers with
  | [] => ret rows_so_far
  | pull_request :: pr_numbers' =>
      files <- graphql_paginate fuel (VDict [("files", VNone)]) None ;;
      pr_files <- lift (iterate files) ;;
      rows <- lift (InsertRows.comprehension (pr_file_row pull_request)
                      pr_files) ;;
      pr_file_rows fuel pr_numbers' (rows_so_far ++ rows)
  end.

(** The rows of the edges of one pull request, when they are all built. *)
Definition rows_of (pull_request : pull_request) (pr_files : list value)
  : list (list (string * value)) :=
  match InsertRows.comprehension (pr_file_row pull_request) pr_files with
  | Return rows => rows
  | Raise _ => []
  end.

(** *** Facts *)

Lemma paginate_files (x : served) (fuel : nat) (rest : list value)
  (done : list event) :
  in_pages fuel x ->
  exists events,
    graphql_paginate fuel (VDict [("files", VNone)]) None
      (mkWorld (responses x ++ rest) done)
    = Some (Return (VList (all_edges x)), mkWorld rest (done ++ events))
    /\ posts events = S (List.length (earlier x)).
Proof.
  intros (Hearlier & Hlast & Hfuel).
  destruct (page_loop_pages (earlier x) (last x)
              (fuel - 2 - List.length (earlier x)) rest Hearlier Hlast
              [("files", NoCursor)] [] done)
    as (bp' & events & Hrun & Hposts).
  exists events. split; [|assumption].
  replace fuel
    with (S (S (List.length (earlier x))
             + (fuel - 2 - List.length (earlier x)))) by lia.
  unfold responses. rewrite <- app_assoc. cbn [app].
  cbn [graphql_paginate]. unfold bind at 1. cbn [all_items lift].
  unfold bind at 1. cbn [lift ret fold_left last_subject rev app fst assign].
  unfold bind at 1. rewrite Hrun. reflexivity.
Qed.

Lemma pr_file_rows_fetched (fuel : nat)
  (prs : list (served * list (list (string * value)))) (rest : list value) :
  Forall (fun x => in_pages fuel (fst x)
                   /\ InsertRows.comprehension
                        (pr_file_row (of_pull_request (fst x)))
                        (all_edges (fst x))
                      = Return (snd x)) prs ->
  forall rows_so_far done,
  exists events,
    pr_file_rows fuel (map (fun x => of_pull_request (fst x)) prs) rows_so_far
      (mkWorld (flat_map (fun x => responses (fst x)) prs ++ rest) done)
    = Some (Return (rows_so_far ++ List.concat (map snd prs)),
            mkWorld rest (done ++ events))
    /\ posts events = requests (map fst prs).
Proof.
  induction 1 as [|[x rows] prs [Hpages Hrows] _ IH]; intros rows_so_far done.
  - exists []. cbn. now rewrite !app_nil_r.
  - cbn [map flat_map fst snd pr_file_rows List.concat] in *.
    rewrite <- app_assoc.
    destruct (paginate_files x fuel
                (flat_map (fun x => responses (fst x)) prs ++ rest) done
                Hpages) as (events & Hrun & Hposts).
    unfold bind at 1. rewrite Hrun. unfold bind at 1. cbn [lift iterate].
    unfold bind at 1. cbn [lift]. rewrite Hrows.
    destruct (IH (rows_so_far ++ rows) (done ++ events))
      as (events' & Hrun' & Hposts').
    exists (events ++ events'). rewrite Hrun', <- !app_assoc.
    split; [reflexivity|].
    rewrite posts_app, Hposts, Hposts'. reflexivity.
Qed.

(** X22 (the rows fetched): when the endpoint serves the files of each pull
    request in pages, [pr_file_rows] holds, after one request per page, the
    rows of the edges of every page, pull request after pull request and in
    the order of the pages, each row built with the [pull_request_id] of the
    pull request whose query returned the edge. *)
Theorem every_edge_gives_a_row_of_its_pull_request (fuel : nat)
  (prs : list (served * list (list (string * value)))) (rest : list value)
  (done : list event) :
  Forall (fun x => in_pages fuel (fst x)
                   /\ InsertRows.comprehension
                        (pr_file_row (of_pull_request (fst x)))
                        (all_edges (fst x))
                      = Return (snd x)) prs ->
  exists events,
    pr_file_rows fuel (map (fun x => of_pull_request (fst x)) prs) []
      (mkWorld (flat_map (fun x => responses (fst x)) prs ++ rest) done)
    = Some (Return (List.concat (map snd prs)), mkWorld rest (done ++ events))
    /\ posts events = requests (map fst prs)
    /\ Forall (fun x =>
                 List.length (snd x) = List.length (all_edges (fst x))
                 /\ Forall (fun row =>
                              lookup row "pull_request_id"
                              = Some (pull_request_id
                                        (of_pull_request (fst x))))
                           (snd x)) prs.
Proof.
  intro Hprs.
  destruct (pr_file_rows_fetched fuel prs rest Hprs [] done)
    as (events & Hrun & Hposts).
  exists events. split; [exact Hrun|]. split; [exact Hposts|].
  apply Forall_impl with (2 := Hprs). intros [x rows] [_ Hrows].
  cbn [fst snd] in *. clear Hprs Hrun.
  revert rows Hrows. generalize (all_edges x) as records.
  induction records as [|e records IH]; intros rows Hrows;
    cbn [InsertRows.comprehension] in Hrows.
  - injection Hrows as <-. now split.
  - destruct (pr_file_row (of_pull_request x) e) as [row|] eqn:Hrow;
      cbn [InsertRows.bind] in Hrows; [|discriminate].
    destruct (InsertRows.comprehension (pr_file_row (of_pull_request x))
                records) as [rows'|]; cbn [InsertRows.bind] in Hrows;
      [|discriminate].
    injection Hrows as <-. destruct (IH rows' eq_refl) as [Hlen Hall].
    split; [cbn [List.length]; now rewrite Hlen|].
    constructor; [|assumption].
    unfold pr_file_row in Hrow. cbn [InsertRows.build InsertRows.bind] in Hrow.
    destruct (InsertRows.bind (getitem e "node") _) in Hrow;
      cbn [InsertRows.bind] in Hrow; [|discriminate].
    destruct (InsertRows.bind (getitem e "node") _) in Hrow;
      cbn [InsertRows.bind] in Hrow; [|discriminate].
    destruct (InsertRows.bind (getitem e "node") _) in Hrow;
      cbn [InsertRows.bind] in Hrow; [|discriminate].
    injection Hrow as <-. reflexivity.
Qed.

Lemma pr_file_rows_raises (fuel : nat)
  (good : list (served * list (list (string * value)))) (bad : served)
  (after : list pull_request) (e : exn) (rest : list value) :
  Forall (fun x => in_pages fuel (fst x)
                   /\ InsertRows.comprehension
                        (pr_file_row (of_pull_request (fst x)))
                        (all_edges (fst x))
                      = Return (snd x)) good ->
  in_pages fuel bad ->
  InsertRows.comprehension (pr_file_row (of_pull_request bad)) (all_edges bad)
  = Raise e ->
  forall rows_so_far done,
  exists events,
    pr_file_rows fuel
      (map (fun x => of_pull_request (fst x)) good
       ++ of_pull_request bad :: after) rows_so_far
      (mkWorld (flat_map (fun x => responses (fst x)) good
                ++ responses bad ++ rest) done)
    = Some (Raise e, mkWorld rest (done ++ events))
    /\ posts events = requests (map fst good ++ [bad]).
Proof.
  intros Hgood Hpages Hbad.
  induction Hgood as [|[x rows] good [Hx Hrows] _ IH];
    intros rows_so_far done.
  - cbn [map flat_map app pr_file_rows].
    destruct (paginate_files bad fuel rest done Hpages)
      as (events & Hrun & Hposts).
    unfold bind at 1. rewrite Hrun. unfold bind at 1. cbn [lift iterate].
    unfold bind at 1. cbn [lift]. rewrite Hbad.
    exists events. split; [reflexivity|].
    rewrite Hposts. unfold requests. cbn. lia.
  - cbn [map flat_map fst snd app pr_file_rows] in *.
    rewrite <- app_assoc.
    destruct (paginate_files x fuel
                (flat_map (fun x => responses (fst x)) good
                 ++ responses bad ++ rest) done Hx)
      as (events & Hrun & Hposts).
    unfold bind at 1. rewrite Hrun. unfold bind at 1. cbn [lift iterate].
    unfold bind at 1. cbn [lift]. rewrite Hrows.
    destruct (IH (rows_so_far ++ rows) (done ++ events))
      as (events' & Hrun' & Hposts').
    exists (events ++ events'). rewrite Hrun', <- !app_assoc.
    split; [reflexivity|].
    rewrite posts_app, Hposts, Hposts'. reflexivity.
Qed.

(** X23 (an edge that gives no row): when an edge returned for one pull
    request has no [node], or a node without one of the three fields, the
    fetch raises what reading it raises: the rows gathered for the pull
    requests before are lost with it, and the files of the pull requests
    after it are never asked for. *)
Theorem an_edge_without_node_ends_the_fetch (fuel : nat)
  (good : list (served * list (list (string * value)))) (bad : served)
  (after : list pull_request) (e : exn) (rest : list value)
  (done : list event) :
  Forall (fun x => in_pages fuel (fst x)
                   /\ InsertRows.comprehension
                        (pr_file_row (of_pull_request (fst x)))
                        (all_edges (fst x))
                      = Return (snd x)) good ->
  in_pages fuel bad ->
  InsertRows.comprehension (pr_file_row (of_pull_request bad)) (all_edges bad)
  = Raise e ->
  exists events,
    pr_file_rows fuel
      (map (fun x => of_pull_request (fst x)) good
       ++ of_pull_request bad :: after) []
      (mkWorld (flat_map (fun x => responses (fst x)) good
                ++ responses bad ++ rest) done)
    = Some (Raise e, mkWorld rest (done ++ events))
    /\ posts events = requests (map fst good ++ [bad]).
Proof.
  intros Hgood Hpages Hbad.
  apply (pr_file_rows_raises fuel good bad after e rest Hgood Hpages Hbad).
Qed.

End Fetch.

(** *** A run *)

Definition first_pull_request : served :=
  mkServed (mkPullRequest (VInt 1) (VInt 11))
    [mkPage (VBool true) VNone VNone (VStr "c1")
       [file_edge (VInt 3) (VInt 1) (VStr "a.py")]]
    (mkPage (VBool false) VNone VNone (VStr "c2")
       [file_edge (VInt 0) (VInt 2) (VStr "b.py")]).

Definition second_pull_request : served :=
  mkServed (mkPullRequest (VInt 2) (VInt 12)) []
    (mkPage (VBool false) VNone VNone (VStr "c3")
       [file_edge (VInt 5) (VInt 5) (VStr "a.py")]).

(** The answer for a pull request whose one edge has a null node. *)
Definition broken_pull_request : served :=
  mkServed (mkPullRequest (VInt 2) (VInt 12)) []
    (mkPage (VBool false) VNone VNone (VStr "c3") [VDict [("node", VNone)]]).

Lemma every_edge_gives_a_row_of_its_pull_request_witness :
  exists events rows,
    pr_file_rows 1 3
      [of_pull_request first_pull_request;
       of_pull_request second_pull_request] []
      (mkWorld (responses first_pull_request
                ++ responses second_pull_request) [])
    = Some (Return rows, mkWorld [] events)
    /\ posts events = 3
    /\ map (fun row => (lookup row "pull_request_id",
                        lookup row "pr_file_path")) rows
       = [(Some (VInt 11), Some (VStr "a.py"));
          (Some (VInt 11), Some (VStr "b.py"));
          (Some (VInt 12), Some (VStr "a.py"))].
Proof.
  destruct (every_edge_gives_a_row_of_its_pull_request 1 3
              [(first_pull_request,
                rows_of 1 (of_pull_request first_pull_request)
                  (all_edges first_pull_request));
               (second_pull_request,
                rows_of 1 (of_pull_request second_pull_request)
                  (all_edges second_pull_request))] [] [])
    as (events & Hrun & Hposts & _).
  - repeat constructor; cbn; lia.
  - exists events. eexists. split; [exact Hrun|]. split; [exact Hposts|].
    reflexivity.
Defined.

Lemma an_edge_without_node_ends_the_fetch_witness :
  exists events,
    pr_file_rows 1 3
      [of_pull_request first_pull_request;
       of_pull_request broken_pull_request;
       mkPullRequest (VInt 3) (VInt 13)] []
      (mkWorld (responses first_pull_request
                ++ responses broken_pull_request
                ++ [response_of (last second_pull_request)]) [])
    = Some (Raise TypeError,
            mkWorld [response_of (last second_pull_request)] events)
    /\ posts events = 3.
Proof.
  destruct (an_edge_without_node_ends_the_fetch 1 3
              [(first_pull_request,
                rows_of 1 (of_pull_request first_pull_request)
                  (all_edges first_pull_request))]
              broken_pull_request [mkPullRequest (VInt 3) (VInt 13)]
              TypeError [response_of (last second_pull_request)] [])
    as (events & Hrun & Hposts).
  - repeat constructor; cbn; lia.
  - repeat constructor; cbn; lia.
  - reflexivity.
  - exists events. split; [exact Hrun | exact Hposts].
Defined.

End FilesFetch.
